(** * LSCP: Locally Selective Combination of Parallel Outlier Ensembles

    A shallow embedding of [pyod/models/lscp.py] and the properties of its
    local-competency selection: the local region estimator
    ([_get_local_region]), the competency selector
    ([_get_competent_detectors]) and the scoring orchestrator ([fit],
    [decision_function], [_get_decision_scores]), together with the
    constructor and the container methods.

    Conventions.
    - A float64 is a value of [f64]: a finite value is an exact rational,
      [NaN] is the undefined value.  Rounding is not modelled.
    - A 2-D array is a list of rows.
    - The object [self] is the record [LSCP]; a method is a computation of
      the monad [M], which threads the object, collects the emitted
      warnings and may raise.  The object keeps the writes made before an
      exception, as in Python. *)

From Stdlib Require Import List ZArith QArith Qround Qabs Lia Lqa Bool Arith
  Permutation.
Import ListNotations.

Set Implicit Arguments.

(** ** Values *)

Inductive f64 : Type :=
| Fin (q : Q)
| NaN.

Definition is_finite (x : f64) : bool :=
  match x with Fin _ => true | NaN => false end.

Definition matrix := list (list Q).

(** [X.shape[0]] and [X.shape[1]]. *)
Definition n_rows (X : matrix) : nat := length X.
Definition n_cols (X : matrix) : nat :=
  match X with [] => 0%nat | r :: _ => length r end.

(** ** Exceptions and warnings *)

Inductive value_error : Type :=
| FeatureMismatch (model_n input_n : nat)
| BinsNotPositive
| RangeNotFinite
| EmptySampleRange
| NeighborsQueryFailed
| ZeroSizeReduction
| BadArray.

Inductive exn : Type :=
| ValueError (e : value_error)
| IndexError
| AttributeError
| NotFittedError
| AssertionError.

Definition is_mismatch (e : exn) : bool :=
  match e with
  | ValueError (FeatureMismatch _ _) => true
  | _ => false
  end.

Inductive warning : Type :=
| LocalMaxFeaturesReduced
| RegionSizeOutsideRange (size lo hi : Z)
| BinsReduced.

Definition is_bins_reduced (w : warning) : bool :=
  match w with BinsReduced => true | _ => false end.

Inductive outcome (A : Type) : Type :=
| Ok (a : A)
| Raise (e : exn).
Arguments Ok {A} a.
Arguments Raise {A} e.

(** The call did not fail with the feature-count error of
    [decision_function]. *)
Definition no_mismatch {A} (r : outcome A) : Prop :=
  match r with
  | Ok _ => True
  | Raise e => is_mismatch e = false
  end.

(** The call did not fail, or failed with an exception about the data it
    was given: a value error or an index error. *)
Definition is_data_error (e : exn) : bool :=
  match e with
  | ValueError _ | IndexError => true
  | _ => false
  end.

Definition data_errors_only {A} (r : outcome A) : Prop :=
  match r with
  | Ok _ => True
  | Raise e => is_data_error e = true
  end.

Definition of_option {A} (o : option A) (e : exn) : outcome A :=
  match o with Some a => Ok a | None => Raise e end.

(** Python's [int(x)] on a float: truncation toward zero. *)
Definition py_int (x : Q) : Z := Z.quot (Qnum x) (Zpos (Qden x)).

(** ** Collaborators

    The base detectors are black boxes behind [fit] and
    [decision_function]: a detector is a scoring rule that reads the
    matrix it was fitted on. *)

Record Estimator : Type := mkEstimator {
  scorer : matrix -> list Q -> Q;
  trained_on : option matrix
}.

Definition estimator_fit (X : matrix) (e : Estimator) : Estimator :=
  mkEstimator (scorer e) (Some X).

(** [estimator.decision_scores_] *)
Definition estimator_decision_scores_ (e : Estimator) : outcome (list Q) :=
  match trained_on e with
  | Some T => Ok (map (scorer e T) T)
  | None => Raise NotFittedError
  end.

Definition estimator_decision_function (e : Estimator) (X : matrix)
  : outcome (list Q) :=
  match trained_on e with
  | Some T => Ok (map (scorer e T) X)
  | None => Raise NotFittedError
  end.

(** The library routines the module imports and that are neither numpy
    reductions nor part of pyod: the random source, the k-d tree, the
    standardizer and the Pearson coefficient. *)
Class Collaborators : Type := {
  RandomState : Type;
  (** one raw draw of the random source *)
  next_uint : RandomState -> nat * RandomState;
  (** [KDTree(train).query(queries, k)[1]], [None] when the tree rejects
      the query *)
  kdtree_query : matrix -> matrix -> Z -> option (list (list nat));
  (** [standardizer(train, test)] *)
  standardizer : matrix -> matrix -> matrix * matrix;
  (** [pearsonr(x, y)[0]] *)
  pearsonr : list Q -> list Q -> f64
}.

(** ** numpy *)

Definition Qleb (a b : Q) : bool := Qle_bool a b.

Definition Qmin2 (a b : Q) : Q := if Qleb a b then a else b.
Definition Qmax2 (a b : Q) : Q := if Qleb a b then b else a.

Definition list_min (x : Q) (l : list Q) : Q := fold_left Qmin2 l x.
Definition list_max (x : Q) (l : list Q) : Q := fold_left Qmax2 l x.

(** The finite values of an array, when all of them are finite. *)
Fixpoint finite_values (a : list f64) : option (list Q) :=
  match a with
  | [] => Some []
  | Fin q :: a' =>
      match finite_values a' with
      | Some l => Some (q :: l)
      | None => None
      end
  | NaN :: _ => None
  end.

(** [np.linspace(first, last, n + 1)]. *)
Definition bin_edge (first last : Q) (n : nat) (i : nat) : Q :=
  first + inject_Z (Z.of_nat i) * ((last - first) / inject_Z (Z.of_nat n)).

Definition linspace (first last : Q) (n : nat) : list Q :=
  map (bin_edge first last n) (seq 0 (S n)).

(** Bin of a value in [n] equal bins over [first, last]: the scaled
    offset truncated, the right end falling into the last bin. *)
Definition bin_index (first last : Q) (n : nat) (x : Q) : nat :=
  let k := Z.to_nat
             (Qfloor ((x - first) * (inject_Z (Z.of_nat n) / (last - first)))) in
  if (k =? n)%nat then (n - 1)%nat else k.

Definition count_bin (first last : Q) (n : nat) (xs : list Q) (b : nat) : nat :=
  length (filter (fun x => (bin_index first last n x =? b)%nat) xs).

(** The range [np.histogram] derives from the data. *)
Definition outer_edges (xs : list Q) : Q * Q :=
  match xs with
  | [] => (0, 1)
  | x :: xs' =>
      let first := list_min x xs' in
      let last := list_max x xs' in
      if Qeq_bool first last then (first - (1 # 2), last + (1 # 2))
      else (first, last)
  end.

(** [np.histogram(a, bins=bins)] for an integer [bins]. *)
Definition np_histogram (a : list f64) (bins : Z)
  : outcome (list nat * list Q) :=
  if (bins <? 1)%Z then Raise (ValueError BinsNotPositive)
  else
    match finite_values a with
    | None => Raise (ValueError RangeNotFinite)
    | Some xs =>
        let n := Z.to_nat bins in
        let '(first, last) := outer_edges xs in
        Ok (map (count_bin first last n xs) (seq 0 n), linspace first last n)
    end.

(** [scores >= e] and [scores <= e] on one element. *)
Definition f64_geb (x : f64) (e : Q) : bool :=
  match x with Fin q => Qleb e q | NaN => false end.
Definition f64_leb (x : f64) (e : Q) : bool :=
  match x with Fin q => Qleb q e | NaN => false end.

(** Positions of a boolean array that hold [True]: [np.where(mask)[0]]. *)
Fixpoint where_from (i : nat) (mask : list bool) : list nat :=
  match mask with
  | [] => []
  | b :: mask' =>
      if b then i :: where_from (S i) mask' else where_from (S i) mask'
  end.
Definition np_where (mask : list bool) : list nat := where_from 0 mask.

(** [np.mean] of a 1-D array; the mean of no value is NaN. *)
Definition np_mean (l : list Q) : f64 :=
  match l with
  | [] => NaN
  | _ => Fin (fold_right Qplus 0 l / inject_Z (Z.of_nat (length l)))
  end.

(** [np.max(A, axis=1)]; a row without entries has no maximum. *)
Definition row_max (r : list Q) : option Q :=
  match r with
  | [] => None
  | x :: r' => Some (list_max x r')
  end.

Fixpoint np_max_axis1 (A : matrix) : option (list Q) :=
  match A with
  | [] => Some []
  | r :: A' =>
      match row_max r, np_max_axis1 A' with
      | Some x, Some l => Some (x :: l)
      | _, _ => None
      end
  end.

(** [v[idx]] for an index list: every index must be in range. *)
Fixpoint take {A} (v : list A) (idx : list nat) : option (list A) :=
  match idx with
  | [] => Some []
  | i :: idx' =>
      match nth_error v i, take v idx' with
      | Some x, Some l => Some (x :: l)
      | _, _ => None
      end
  end.

(** [A[:, cols]] *)
Fixpoint select_columns (A : matrix) (cols : list nat) : option matrix :=
  match A with
  | [] => Some []
  | r :: A' =>
      match take r cols, select_columns A' cols with
      | Some r', Some B => Some (r' :: B)
      | _, _ => None
      end
  end.

(** [A[:, d]]; a matrix without rows has empty columns. *)
Fixpoint column (A : matrix) (d : nat) : option (list Q) :=
  match A with
  | [] => Some []
  | r :: A' =>
      match nth_error r d, column A' d with
      | Some x, Some l => Some (x :: l)
      | _, _ => None
      end
  end.

(** [collections.Counter(l).items()]: the distinct items in the order of
    their first occurrence, each with its number of occurrences. *)
Fixpoint counter_add (c : list (nat * nat)) (x : nat) : list (nat * nat) :=
  match c with
  | [] => [(x, 1%nat)]
  | (y, n) :: c' =>
      if (x =? y)%nat then (y, S n) :: c' else (y, n) :: counter_add c' x
  end.

Definition Counter (l : list nat) : list (nat * nat) :=
  fold_left counter_add l [].

(** Total count a counter records for [y]. *)
Fixpoint recorded (c : list (nat * nat)) (y : nat) : nat :=
  match c with
  | [] => 0%nat
  | (z, n) :: c' => if (z =? y)%nat then (n + recorded c' y)%nat else recorded c' y
  end.

(** ** sklearn validation *)

(** [check_array(X)] on a numeric array: two dimensions, at least one
    sample and one feature. *)
Definition check_array (X : matrix) : outcome matrix :=
  match X with
  | [] => Raise (ValueError BadArray)
  | r :: X' =>
      if ((0 <? length r)%nat
          && forallb (fun r' => (length r' =? length r)%nat) X')%bool
      then Ok X
      else Raise (ValueError BadArray)
  end.

(** [l[index]] on a Python list: a negative index counts from the end. *)
Definition py_list_index {A} (l : list A) (index : Z) : option A :=
  if (0 <=? index)%Z then nth_error l (Z.to_nat index)
  else if (- Z.of_nat (length l) <=? index)%Z
       then nth_error l (Z.to_nat (Z.of_nat (length l) + index))
       else None.

(** Modelled from the spec: [argmaxn] of [pyod.utils.utility], imported by
    the module but defined outside it.  The top bins "are chosen via a
    stable top-n by count rule that returns the first bin reaching that
    count in scan order on ties". *)
Fixpoint first_max (l : list (nat * nat)) : option (nat * nat) :=
  match l with
  | [] => None
  | (i, v) :: l' =>
      match first_max l' with
      | Some (j, w) => if (v <? w)%nat then Some (j, w) else Some (i, v)
      | None => Some (i, v)
      end
  end.

Fixpoint top_n (l : list (nat * nat)) (n : nat) : list nat :=
  match n with
  | O => []
  | S n' =>
      match first_max l with
      | None => []
      | Some (i, _) =>
          i :: top_n (filter (fun p => negb (fst p =? i)%nat) l) n'
      end
  end.

Definition argmaxn (value_list : list nat) (n : nat) : list nat :=
  top_n (combine (seq 0 (length value_list)) value_list) n.

(** [b] holds the highest count of [hist] and is the first bin to do so. *)
Definition densest (hist : list nat) (b : nat) : Prop :=
  exists c, nth_error hist b = Some c /\
    forall b' c', nth_error hist b' = Some c' ->
      (c' <= c)%nat /\ ((b' < b)%nat -> (c' < c)%nat).

(** The detectors of one bin (lines 325-326):
    [np.where((scores >= bin_edges[b]) & (scores <= bin_edges[b + 1]))[0]]. *)
Definition in_bin (low high : Q) (x : f64) : bool :=
  (f64_geb x low && f64_leb x high)%bool.

Definition select_in_bin (scores : list f64) (bin_edges : list Q) (max_bin : nat)
  : outcome (list nat) :=
  match nth_error bin_edges max_bin, nth_error bin_edges (max_bin + 1) with
  | Some low, Some high => Ok (np_where (map (in_bin low high) scores))
  | _, _ => Raise IndexError
  end.

(** Lines 285-286: [local_region_list[j] = local_region_list[j] +
    ind_arr[j, :].tolist()] for every [j]; the right-hand side is a new
    list, so the rows never alias although they start as one shared
    empty list. *)
Fixpoint add_neighbors (local_region_list ind_arr : list (list nat))
  : outcome (list (list nat)) :=
  match local_region_list with
  | [] => Ok []
  | r :: rest =>
      match ind_arr with
      | [] => Raise IndexError
      | nb :: ind_arr' =>
          match add_neighbors rest ind_arr' with
          | Ok t => Ok ((r ++ nb) :: t)
          | Raise e => Raise e
          end
      end
  end.

(** Lines 291-293: the items of the counter whose count exceeds the
    threshold. *)
Definition frequent_items (threshold : Z) (votes : list nat) : list nat :=
  map fst (filter (fun ic => (threshold <? Z.of_nat (snd ic))%Z) (Counter votes)).

(** Lines 220-222: one column of test scores per estimator, written into
    a zero matrix of [m] columns. *)
Fixpoint score_columns (X : matrix) (k m : nat) (ests : list Estimator)
  : outcome (list (list Q)) :=
  match ests with
  | [] => Ok []
  | e :: ests' =>
      match estimator_decision_function e X with
      | Raise x => Raise x
      | Ok col =>
          if (k <? m)%nat then
            match score_columns X (S k) m ests' with
            | Ok cols => Ok (col :: cols)
            | Raise x => Raise x
            end
          else Raise IndexError
      end
  end.

(** Lines 157-159: every estimator is fitted in turn and its training
    scores become one column; the estimators met before an exception stay
    fitted. *)
Fixpoint fit_columns (X : matrix) (k m : nat) (ests : list Estimator)
  : outcome (list (list Q)) * list Estimator :=
  match ests with
  | [] => (Ok [], [])
  | e :: ests' =>
      let e' := estimator_fit X e in
      match estimator_decision_scores_ e' with
      | Raise x => (Raise x, e' :: ests')
      | Ok col =>
          if (k <? m)%nat then
            match fit_columns X (S k) m ests' with
            | (Ok cols, l) => (Ok (col :: cols), e' :: l)
            | (Raise x, l) => (Raise x, e' :: l)
            end
          else (Raise IndexError, e' :: ests')
      end
  end.

Definition fill_columns (n m : nat) (cols : list (list Q)) : matrix :=
  map (fun i => map (fun k => nth i (nth k cols []) 0) (seq 0 m)) (seq 0 n).

Section Model.

Context {collab : Collaborators}.

(** Modelled from the spec: the Random Subspace Sampler
    [generate_bagging_indices] of [pyod.utils.utility], imported by the
    module but defined outside it: "sample(total_features, min_count,
    max_count) -> set of distinct feature indices", "of size uniformly
    bounded between" the two counts, "no replacement", "parameterized by
    an externally-seeded random source".  The counts must satisfy
    [0 <= min_count <= max_count <= total_features]. *)
Definition randint (g : RandomState) (low high : nat) : nat * RandomState :=
  let (u, g') := next_uint g in
  ((low + u mod (high - low + 1))%nat, g').

Fixpoint draw_distinct (g : RandomState) (pool : list nat) (k : nat)
  : list nat * RandomState :=
  match k with
  | O => ([], g)
  | S k' =>
      match pool with
      | [] => ([], g)
      | _ :: _ =>
          let (u, g1) := next_uint g in
          let j := (u mod length pool)%nat in
          let (rest, g2) :=
            draw_distinct g1 (firstn j pool ++ skipn (S j) pool) k' in
          (nth j pool O :: rest, g2)
      end
  end.

Definition generate_bagging_indices (g : RandomState) (n_features : nat)
  (min_features max_features : Z) : outcome (list nat) * RandomState :=
  if ((0 <=? min_features) && (min_features <=? max_features)
      && (max_features <=? Z.of_nat n_features))%Z%bool
  then
    let (k, g1) := randint g (Z.to_nat min_features) (Z.to_nat max_features) in
    let (features, g2) := draw_distinct g1 (seq 0 n_features) k in
    (Ok features, g2)
  else (Raise (ValueError EmptySampleRange), g).

(** [check_random_state] on a [RandomState] instance returns the instance
    itself.  The object is modelled with [random_state] bound to such an
    instance.  A constructor argument of [None] or of an integer seed is
    left out; for it the assignment of line 147, the first statement of
    [fit], binds the attribute to a new [RandomState] object. *)
Definition check_random_state (g : RandomState) : RandomState := g.

(** ** The object *)

Record LSCP : Type := mkLSCP {
  contamination : Q;
  estimator_list : list Estimator;
  n_clf : nat;
  local_region_size : Z;
  local_region_min : Z;
  local_region_max : Z;
  local_max_features : Q;
  local_min_features : Q;
  local_region_iterations : nat;
  local_region_threshold : Z;
  n_bins : Z;
  n_selected : nat;
  random_state : RandomState;
  (* attributes that exist once [fit] has run *)
  n_features_ : option nat;
  X_train_norm_ : option matrix;
  train_scores_ : option matrix;
  training_pseudo_label_ : option (list Q);
  decision_scores_ : option (list f64)
}.

Definition set_estimator_list (v : list Estimator) (s : LSCP) : LSCP :=
  mkLSCP (contamination s) v (n_clf s) (local_region_size s)
    (local_region_min s) (local_region_max s) (local_max_features s)
    (local_min_features s) (local_region_iterations s)
    (local_region_threshold s) (n_bins s) (n_selected s) (random_state s)
    (n_features_ s) (X_train_norm_ s) (train_scores_ s)
    (training_pseudo_label_ s) (decision_scores_ s).

Definition set_local_max_features (v : Q) (s : LSCP) : LSCP :=
  mkLSCP (contamination s) (estimator_list s) (n_clf s) (local_region_size s)
    (local_region_min s) (local_region_max s) v
    (local_min_features s) (local_region_iterations s)
    (local_region_threshold s) (n_bins s) (n_selected s) (random_state s)
    (n_features_ s) (X_train_norm_ s) (train_scores_ s)
    (training_pseudo_label_ s) (decision_scores_ s).

Definition set_n_bins (v : Z) (s : LSCP) : LSCP :=
  mkLSCP (contamination s) (estimator_list s) (n_clf s) (local_region_size s)
    (local_region_min s) (local_region_max s) (local_max_features s)
    (local_min_features s) (local_region_iterations s)
    (local_region_threshold s) v (n_selected s) (random_state s)
    (n_features_ s) (X_train_norm_ s) (train_scores_ s)
    (training_pseudo_label_ s) (decision_scores_ s).

Definition set_random_state (v : RandomState) (s : LSCP) : LSCP :=
  mkLSCP (contamination s) (estimator_list s) (n_clf s) (local_region_size s)
    (local_region_min s) (local_region_max s) (local_max_features s)
    (local_min_features s) (local_region_iterations s)
    (local_region_threshold s) (n_bins s) (n_selected s) v
    (n_features_ s) (X_train_norm_ s) (train_scores_ s)
    (training_pseudo_label_ s) (decision_scores_ s).

Definition set_n_features_ (v : nat) (s : LSCP) : LSCP :=
  mkLSCP (contamination s) (estimator_list s) (n_clf s) (local_region_size s)
    (local_region_min s) (local_region_max s) (local_max_features s)
    (local_min_features s) (local_region_iterations s)
    (local_region_threshold s) (n_bins s) (n_selected s) (random_state s)
    (Some v) (X_train_norm_ s) (train_scores_ s)
    (training_pseudo_label_ s) (decision_scores_ s).

Definition set_X_train_norm_ (v : matrix) (s : LSCP) : LSCP :=
  mkLSCP (contamination s) (estimator_list s) (n_clf s) (local_region_size s)
    (local_region_min s) (local_region_max s) (local_max_features s)
    (local_min_features s) (local_region_iterations s)
    (local_region_threshold s) (n_bins s) (n_selected s) (random_state s)
    (n_features_ s) (Some v) (train_scores_ s)
    (training_pseudo_label_ s) (decision_scores_ s).

Definition set_train_scores_ (v : matrix) (s : LSCP) : LSCP :=
  mkLSCP (contamination s) (estimator_list s) (n_clf s) (local_region_size s)
    (local_region_min s) (local_region_max s) (local_max_features s)
    (local_min_features s) (local_region_iterations s)
    (local_region_threshold s) (n_bins s) (n_selected s) (random_state s)
    (n_features_ s) (X_train_norm_ s) (Some v)
    (training_pseudo_label_ s) (decision_scores_ s).

Definition set_training_pseudo_label_ (v : list Q) (s : LSCP) : LSCP :=
  mkLSCP (contamination s) (estimator_list s) (n_clf s) (local_region_size s)
    (local_region_min s) (local_region_max s) (local_max_features s)
    (local_min_features s) (local_region_iterations s)
    (local_region_threshold s) (n_bins s) (n_selected s) (random_state s)
    (n_features_ s) (X_train_norm_ s) (train_scores_ s)
    (Some v) (decision_scores_ s).

Definition set_decision_scores_ (v : list f64) (s : LSCP) : LSCP :=
  mkLSCP (contamination s) (estimator_list s) (n_clf s) (local_region_size s)
    (local_region_min s) (local_region_max s) (local_max_features s)
    (local_min_features s) (local_region_iterations s)
    (local_region_threshold s) (n_bins s) (n_selected s) (random_state s)
    (n_features_ s) (X_train_norm_ s) (train_scores_ s)
    (training_pseudo_label_ s) (Some v).

(** ** The method monad *)

Definition M (A : Type) : Type := LSCP -> outcome A * LSCP * list warning.

Definition ret {A} (a : A) : M A := fun s => (Ok a, s, []).

Definition bind {A B} (m : M A) (f : A -> M B) : M B :=
  fun s =>
    match m s with
    | (Ok a, s1, w1) =>
        match f a s1 with
        | (r, s2, w2) => (r, s2, w1 ++ w2)
        end
    | (Raise e, s1, w1) => (Raise e, s1, w1)
    end.

Definition get : M LSCP := fun s => (Ok s, s, []).
Definition put (s' : LSCP) : M unit := fun _ => (Ok tt, s', []).
Definition warn (w : warning) : M unit := fun s => (Ok tt, s, [w]).
Definition lift {A} (r : outcome A) : M A := fun s => (r, s, []).
Definition raise {A} (e : exn) : M A := lift (Raise e).

(** Reading an attribute that [fit] creates. *)
Definition attr {A} (o : option A) : M A := lift (of_option o AttributeError).
Definition index {A} (o : option A) : M A := lift (of_option o IndexError).

Notation "x <- c1 ;; c2" := (bind c1 (fun x => c2))
  (at level 61, c1 at next level, right associativity).
Notation "c1 ;; c2" := (bind c1 (fun _ => c2))
  (at level 61, right associativity).

(** [for x in l: acc = body(acc, x)] *)
Fixpoint for_each {A B} (body : B -> A -> M B) (l : list A) (acc : B) : M B :=
  match l with
  | [] => ret acc
  | x :: l' => acc' <- body acc x ;; for_each body l' acc'
  end.

(** [for _ in range(n): acc = body(acc)] *)
Fixpoint for_range {B} (n : nat) (body : B -> M B) (acc : B) : M B :=
  match n with
  | O => ret acc
  | S n' => acc' <- body acc ;; for_range n' body acc'
  end.

(** ** The methods *)

(** [LSCP.__init__]; the constructor of the base class and
    [check_detector], both defined outside the module, are taken to accept
    their arguments. *)
Definition __init__ (estimator_list : list Estimator) (local_region_size : Z)
  (local_max_features : Q) (n_bins : Z) (random_state : RandomState)
  (contamination : Q) : outcome LSCP * list warning :=
  let local_region_iterations := 20%nat in
  let self :=
    mkLSCP contamination estimator_list (length estimator_list)
      local_region_size 30 200 local_max_features (1 # 2)
      local_region_iterations
      (py_int (inject_Z (Z.of_nat local_region_iterations) / 2))
      n_bins 1 random_state None None None None None in
  if (1 <? length estimator_list)%nat then
    if Qleb local_max_features 1 then (Ok self, [])
    else (Ok (set_local_max_features 1 self), [LocalMaxFeaturesReduced])
  else (Raise AssertionError, []).

(** [LSCP._get_competent_detectors] *)
Definition _get_competent_detectors (scores : list f64) : M (list nat) :=
  self <- get ;;
  (if (Z.of_nat (n_clf self) <? n_bins self)%Z
   then warn BinsReduced ;; put (set_n_bins (Z.of_nat (n_clf self)) self)
   else ret tt) ;;
  self <- get ;;
  hb <- lift (np_histogram scores (n_bins self)) ;;
  let hist := fst hb in
  let bin_edges := snd hb in
  let max_bins := argmaxn hist (n_selected self) in
  for_each
    (fun candidates max_bin =>
       selected <- lift (select_in_bin scores bin_edges max_bin) ;;
       ret (candidates ++ selected))
    max_bins [].

(** Lines 271-275: the feature subspace of one iteration, drawn from the
    object's random state, which the draw advances. *)
Definition draw_features : M (list nat) :=
  self <- get ;;
  X_train <- attr (X_train_norm_ self) ;;
  let d := n_cols X_train in
  let dq := inject_Z (Z.of_nat d) in
  match generate_bagging_indices (random_state self) d
          (py_int (dq * local_min_features self))
          (py_int (dq * local_max_features self)) with
  | (r, g) => put (set_random_state g self) ;; lift r
  end.

(** Lines 270-286: one iteration of the voting loop. *)
Definition local_region_iteration (X_test_norm : matrix)
  (local_region_list : list (list nat)) : M (list (list nat)) :=
  features <- draw_features ;;
  self <- get ;;
  X_train <- attr (X_train_norm_ self) ;;
  train_sub <- index (select_columns X_train features) ;;
  test_sub <- index (select_columns X_test_norm features) ;;
  ind_arr <- lift (of_option
                     (kdtree_query train_sub test_sub (local_region_size self))
                     (ValueError NeighborsQueryFailed)) ;;
  lift (add_neighbors local_region_list ind_arr).

(** Lines 264-286: the raw neighbour votes of every test instance after
    all iterations. *)
Definition raw_votes (X_test_norm : matrix) : M (list (list nat)) :=
  self <- get ;;
  for_range (local_region_iterations self)
    (local_region_iteration X_test_norm)
    (repeat [] (n_rows X_test_norm)).

(** [LSCP._get_local_region] *)
Definition _get_local_region (X_test_norm : matrix) : M (list (list nat)) :=
  local_region_list <- raw_votes X_test_norm ;;
  self <- get ;;
  ret (map (frequent_items (local_region_threshold self)) local_region_list).

(** Lines 241-243: the correlation of every detector with the local
    pseudo ground truth. *)
Fixpoint pearson_scores (local_pseudo_ground_truth : list Q)
  (local_train_scores : matrix) (ds : list nat) : outcome (list f64) :=
  match ds with
  | [] => Ok []
  | d :: ds' =>
      match column local_train_scores d with
      | None => Raise IndexError
      | Some col =>
          match pearson_scores local_pseudo_ground_truth local_train_scores ds' with
          | Ok l => Ok (pearsonr local_pseudo_ground_truth col :: l)
          | Raise e => Raise e
          end
      end
  end.

(** Lines 236-243: the correlation scores of the detectors in the local
    region of one test instance. *)
Definition local_correlations (train_scores_norm : matrix)
  (test_local_region : list nat) : M (list f64) :=
  self <- get ;;
  pseudo <- attr (training_pseudo_label_ self) ;;
  local_pseudo_ground_truth <- index (take pseudo test_local_region) ;;
  local_train_scores <- index (take train_scores_norm test_local_region) ;;
  lift (pearson_scores local_pseudo_ground_truth local_train_scores
          (seq 0 (n_clf self))).

(** Lines 236-246: the score of test instance [i]. *)
Definition score_instance (train_scores_norm test_scores_norm : matrix)
  (i : nat) (test_local_region : list nat) : M f64 :=
  pearson_corr_scores <- local_correlations train_scores_norm test_local_region ;;
  candidates <- _get_competent_detectors pearson_corr_scores ;;
  row <- index (nth_error test_scores_norm i) ;;
  selected <- index (take row candidates) ;;
  ret (np_mean selected).

(** Lines 234-246: the loop over the test instances. *)
Fixpoint score_instances (train_scores_norm test_scores_norm : matrix)
  (i : nat) (test_local_regions : list (list nat)) : M (list f64) :=
  match test_local_regions with
  | [] => ret []
  | region :: rest =>
      x <- score_instance train_scores_norm test_scores_norm i region ;;
      xs <- score_instances train_scores_norm test_scores_norm (S i) rest ;;
      ret (x :: xs)
  end.

(** Lines 210-228: the local regions, the standardized train and test
    scores, and the pseudo ground truth stored on the object. *)
Definition prepare_scores (X : matrix)
  : M (matrix * matrix * list (list nat)) :=
  self <- get ;;
  (if ((local_region_size self <? local_region_min self)
       || (local_region_max self <? local_region_size self))%Z%bool
   then warn (RegionSizeOutsideRange (local_region_size self)
                (local_region_min self) (local_region_max self))
   else ret tt) ;;
  let X_test_norm := X in
  test_local_regions <- _get_local_region X_test_norm ;;
  self <- get ;;
  cols <- lift (score_columns X_test_norm 0 (n_clf self)
                  (estimator_list self)) ;;
  let test_scores := fill_columns (n_rows X_test_norm) (n_clf self) cols in
  train_scores <- attr (train_scores_ self) ;;
  let train_scores_norm := fst (standardizer train_scores test_scores) in
  let test_scores_norm := snd (standardizer train_scores test_scores) in
  pseudo <- lift (of_option (np_max_axis1 train_scores_norm)
                    (ValueError ZeroSizeReduction)) ;;
  put (set_training_pseudo_label_ pseudo self) ;;
  ret (train_scores_norm, test_scores_norm, test_local_regions).

(** [LSCP._get_decision_scores] *)
Definition _get_decision_scores (X : matrix) : M (list f64) :=
  prepared <- prepare_scores X ;;
  let train_scores_norm := fst (fst prepared) in
  let test_scores_norm := snd (fst prepared) in
  let test_local_regions := snd prepared in
  score_instances train_scores_norm test_scores_norm 0 test_local_regions.

(** [check_is_fitted(self, ['training_pseudo_label_', 'train_scores_',
    'X_train_norm_', 'n_features_'])] *)
Definition check_is_fitted : M unit :=
  self <- get ;;
  match training_pseudo_label_ self, train_scores_ self,
        X_train_norm_ self, n_features_ self with
  | Some _, Some _, Some _, Some _ => ret tt
  | _, _, _, _ => raise NotFittedError
  end.

(** [LSCP.decision_function] *)
Definition decision_function (X : matrix) : M (list f64) :=
  check_is_fitted ;;
  X <- lift (check_array X) ;;
  self <- get ;;
  n_features <- attr (n_features_ self) ;;
  if negb (n_features =? n_cols X)%nat
  then raise (ValueError (FeatureMismatch n_features (n_cols X)))
  else
    decision_scores <- _get_decision_scores X ;;
    ret decision_scores.

(** [LSCP.fit]; the threshold and labels that
    [BaseDetector._process_decision_scores] derives from
    [decision_scores_] are attributes no method of this module reads and
    are left out of the object. *)
Definition fit (X : matrix) : M unit :=
  self <- get ;;
  put (set_random_state (check_random_state (random_state self)) self) ;;
  X <- lift (check_array X) ;;
  self <- get ;;
  put (set_n_features_ (n_cols X) self) ;;
  self <- get ;;
  put (set_X_train_norm_ X self) ;;
  self <- get ;;
  let fitted := fit_columns X 0 (n_clf self) (estimator_list self) in
  put (set_estimator_list (snd fitted) self) ;;
  self <- get ;;
  cols <- lift (fst fitted) ;;
  put (set_train_scores_ (fill_columns (n_rows X) (n_clf self) cols) self) ;;
  scores <- _get_decision_scores X ;;
  self <- get ;;
  put (set_decision_scores_ scores self).

(** [LSCP.__len__] *)
Definition __len__ : M nat :=
  self <- get ;;
  ret (length (estimator_list self)).

(** [LSCP.__getitem__] *)
Definition __getitem__ (index : Z) : M Estimator :=
  self <- get ;;
  lift (of_option (py_list_index (estimator_list self) index) IndexError).

(** [LSCP.__iter__]: the estimators in the order the iterator yields
    them. *)
Definition __iter__ : M (list Estimator) :=
  self <- get ;;
  ret (estimator_list self).

(** ** Vocabulary of the properties *)

(** The object the selector leaves, the warnings it emits and the bin
    count it works with. *)
Definition clamp (s : LSCP) : LSCP :=
  if (Z.of_nat (n_clf s) <? n_bins s)%Z
  then set_n_bins (Z.of_nat (n_clf s)) s else s.

Definition clamp_warnings (s : LSCP) : list warning :=
  if (Z.of_nat (n_clf s) <? n_bins s)%Z then [BinsReduced] else [].

Definition used_bins (s : LSCP) : nat := Z.to_nat (n_bins (clamp s)).

(** What [__init__] establishes and no method changes. *)
Definition constructed (s : LSCP) : Prop :=
  n_clf s = length (estimator_list s) /\ (2 <= n_clf s)%nat /\
  local_region_min s = 30%Z /\ local_region_max s = 200%Z /\
  local_min_features s = (1 # 2) /\ local_max_features s <= 1 /\
  local_region_iterations s = 20%nat /\ local_region_threshold s = 10%Z /\
  n_selected s = 1%nat.

(** The attributes [check_is_fitted] asks for exist. *)
Definition fitted (s : LSCP) : Prop :=
  training_pseudo_label_ s <> None /\ train_scores_ s <> None /\
  X_train_norm_ s <> None /\ n_features_ s <> None.

(** What a scoring call reads of the object: the bin count as the
    selector will use it, and whether a pseudo ground truth is stored,
    not which one. *)
Definition with_used_bins (s : LSCP) : LSCP := set_n_bins (n_bins (clamp s)) s.

Definition erase (s : LSCP) : LSCP :=
  mkLSCP (contamination s) (estimator_list s) (n_clf s) (local_region_size s)
    (local_region_min s) (local_region_max s) (local_max_features s)
    (local_min_features s) (local_region_iterations s)
    (local_region_threshold s) (n_bins (clamp s)) (n_selected s)
    (random_state s) (n_features_ s) (X_train_norm_ s) (train_scores_ s)
    (option_map (fun _ => []) (training_pseudo_label_ s)) (decision_scores_ s).

(** Two runs end with the same outcome, on objects that look the same
    through [view]. *)
Definition agree_on {A} (view : LSCP -> LSCP)
  (x y : outcome A * LSCP * list warning) : Prop :=
  fst (fst x) = fst (fst y) /\ view (snd (fst x)) = view (snd (fst y)).

(** The random state after one draw of a feature subspace. *)
Definition advance (s : LSCP) (g : RandomState) : RandomState :=
  match X_train_norm_ s with
  | None => g
  | Some X_train =>
      let d := n_cols X_train in
      snd (generate_bagging_indices g d
             (py_int (inject_Z (Z.of_nat d) * local_min_features s))
             (py_int (inject_Z (Z.of_nat d) * local_max_features s)))
  end.

(** The warning of lines 211-213. *)
Definition region_size_warnings (s : LSCP) : list warning :=
  if ((local_region_size s <? local_region_min s)
      || (local_region_max s <? local_region_size s))%Z%bool
  then [RegionSizeOutsideRange (local_region_size s)
          (local_region_min s) (local_region_max s)]
  else [].

(** The correlation scores of a region are undefined somewhere, or cannot
    be computed at all. *)
Definition undefined_correlation (tr : matrix) (sp : LSCP) (region : list nat)
  : Prop :=
  match fst (fst (local_correlations tr region sp)) with
  | Ok corr => In NaN corr
  | Raise _ => True
  end.

(** Modelled from the spec: the Correlation Primitive, [pearsonr] of
    [pyod.utils.stat_models], imported by the module but defined outside
    it: "if the local region is empty or has < 2 points, correlation is
    undefined". *)
Definition pearson_contract : Prop :=
  forall x y, (length x < 2)%nat -> pearsonr x y = NaN.

(** Contract of the standardizer: the test scores keep their shape. *)
Definition standardizer_contract : Prop :=
  forall train test,
    map (@length Q) (snd (standardizer train test)) = map (@length Q) test.

(** Contract of the spatial index: the neighbours of a query row are
    distinct rows of the indexed matrix. *)
Definition knn_distinct_contract : Prop :=
  forall train queries k ind_arr,
    kdtree_query train queries k = Some ind_arr ->
    Forall (fun nb => NoDup nb /\
                      Forall (fun i => (i < length train)%nat) nb) ind_arr.

(** What a scoring call reads of the object before it stores the pseudo
    ground truth of the call: neither the scores nor the pseudo ground
    truth stored by an earlier call. *)
Definition scoring_view (s : LSCP) : LSCP :=
  mkLSCP (contamination s) (estimator_list s) (n_clf s) (local_region_size s)
    (local_region_min s) (local_region_max s) (local_max_features s)
    (local_min_features s) (local_region_iterations s)
    (local_region_threshold s) (n_bins (clamp s)) (n_selected s)
    (random_state s) (n_features_ s) (X_train_norm_ s) (train_scores_ s)
    None None.

(** What the loop over the instances reads of the object: the pseudo
    ground truth as well. *)
Definition selecting_view (s : LSCP) : LSCP :=
  mkLSCP (contamination s) (estimator_list s) (n_clf s) (local_region_size s)
    (local_region_min s) (local_region_max s) (local_max_features s)
    (local_min_features s) (local_region_iterations s)
    (local_region_threshold s) (n_bins (clamp s)) (n_selected s)
    (random_state s) (n_features_ s) (X_train_norm_ s) (train_scores_ s)
    (training_pseudo_label_ s) None.

(** The estimator has been fitted on [X]. *)
Definition trained_with (X : matrix) (e : Estimator) : Prop :=
  trained_on e = Some X.

(** Contract of the spatial index: [k] neighbours for every query row. *)
Definition knn_contract : Prop :=
  forall train queries k ind_arr,
    kdtree_query train queries k = Some ind_arr ->
    Forall (fun nb => length nb = Z.to_nat k) ind_arr.

End Model.

(** ** An executable instance of the collaborators

    Used to run the model on concrete data.  Square roots are not
    available on rationals: the standardizer centres every column on its
    training mean and scales it by the training mean absolute deviation
    (zero-guarded), and the correlation is the signed square of Pearson's
    coefficient, undefined exactly where the coefficient is (fewer than
    two points, or a constant vector). *)
Module Demo.

Definition lcg_next (g : N) : nat * N :=
  let g' := ((g * 1103515245 + 12345) mod 2147483648)%N in
  (N.to_nat ((g' / 65536) mod 1024), g').

Definition Qsum (l : list Q) : Q := Qred (fold_right Qplus 0 l).

Definition sqdist (a b : list Q) : Q :=
  Qsum (map (fun p => (fst p - snd p) * (fst p - snd p)) (combine a b)).

Fixpoint insert_by (d : Q) (i : nat) (l : list (Q * nat)) : list (Q * nat) :=
  match l with
  | [] => [(d, i)]
  | (d', i') :: l' =>
      if Qleb d' d then (d', i') :: insert_by d i l' else (d, i) :: l
  end.

Definition nearest (train : matrix) (k : nat) (q : list Q) : list nat :=
  let ranked :=
    fold_left (fun acc p => insert_by (sqdist q (snd p)) (fst p) acc)
      (combine (seq 0 (length train)) train) [] in
  firstn k (map snd ranked).

Definition brute_force_query (train queries : matrix) (k : Z)
  : option (list (list nat)) :=
  if ((k <? 1) || (Z.of_nat (length train) <? k))%Z%bool
  then None
  else Some (map (nearest train (Z.to_nat k)) queries).

Definition mean (l : list Q) : Q :=
  Qred (Qsum l / inject_Z (Z.of_nat (length l))).

Definition column_of (A : matrix) (j : nat) : list Q :=
  map (fun r => nth j r 0) A.

Definition rescale (train : matrix) (A : matrix) : matrix :=
  let m := n_cols train in
  let mus := map (fun j => mean (column_of train j)) (seq 0 m) in
  let devs :=
    map (fun j =>
           let mu := nth j mus 0 in
           let dev := mean (map (fun x => Qabs (x - mu)) (column_of train j)) in
           if Qeq_bool dev 0 then 1 else dev) (seq 0 m) in
  map (fun r =>
         map (fun jx => Qred ((snd jx - nth (fst jx) mus 0) / nth (fst jx) devs 1))
           (combine (seq 0 (length r)) r)) A.

Definition mad_standardizer (train test : matrix) : matrix * matrix :=
  (rescale train train, rescale train test).

Definition signed_r2 (x y : list Q) : f64 :=
  if (length x <? 2)%nat then NaN
  else
    let mx := mean x in
    let my := mean y in
    let xm := map (fun a => a - mx) x in
    let ym := map (fun a => a - my) y in
    let sxy := Qsum (map (fun p => fst p * snd p) (combine xm ym)) in
    let sxx := Qsum (map (fun a => a * a) xm) in
    let syy := Qsum (map (fun a => a * a) ym) in
    if Qeq_bool (sxx * syy) 0 then NaN
    else if Qleb 0 sxy then Fin (Qred (sxy * sxy / (sxx * syy)))
         else Fin (Qred (- (sxy * sxy / (sxx * syy)))).

#[local] Instance collaborators : Collaborators := {
  RandomState := N;
  next_uint := lcg_next;
  kdtree_query := brute_force_query;
  standardizer := mad_standardizer;
  pearsonr := signed_r2
}.

(** Two detectors scoring a point by fixed linear forms. *)
Definition est_sum : Estimator :=
  mkEstimator (fun _ x => nth 0 x 0 + nth 1 x 0) None.
Definition est_diff : Estimator :=
  mkEstimator (fun _ x => nth 0 x 0 - 2 * nth 1 x 0) None.

(** Three pairs of training points: near the query [(0, 0)] in the first
    feature only, in the second feature only, and moderately near in
    both. *)
Definition X_train : matrix :=
  [ [0; 100]; [1; 101]; [100; 0]; [101; 1]; [30; 30]; [31; 31] ].

Definition new_model (seed : N) (n_bins : Z) : outcome LSCP * list warning :=
  __init__ [est_sum; est_diff] 2 1 n_bins seed (1 # 10).

(** The same pairs with a third feature that repeats the first. *)
Definition X_train3 : matrix :=
  [ [0; 100; 0]; [1; 101; 1]; [100; 0; 100]; [101; 1; 101];
    [30; 30; 30]; [31; 31; 31] ].

(** The constructed object, and the object after [fit]. *)
Definition object (seed : N) (n_bins : Z) : LSCP :=
  match new_model seed n_bins with
  | (Ok s, _) => s
  | (Raise _, _) =>
      mkLSCP 0 [] 0 0 0 0 0 0 0 0 0 0 seed None None None None None
  end.

Definition after_fit (X : matrix) (seed : N) (n_bins : Z) : LSCP :=
  snd (fst (fit X (object seed n_bins))).

Definition fitted_object : LSCP := after_fit X_train 1 10.

(** The same for a training matrix of three features. *)
Definition fitted_object3 : LSCP := after_fit X_train3 5 10.

(** The object fitted with a local region size of five of the six
    training points. *)
Definition fitted_wide : LSCP :=
  match __init__ [est_sum; est_diff] 5 1 10 1%N (1 # 10) with
  | (Ok s, _) => snd (fst (fit X_train s))
  | (Raise _, _) => fitted_object
  end.

(** A batch whose first point is a training point and whose second point
    is the query [(0, 0)]. *)
Definition batch : matrix := [ [0; 100]; [0; 0] ].

(** What the stage before the per-instance loop computes on that batch. *)
Definition prepared_scores : matrix * matrix * list (list nat) :=
  match fst (fst (prepare_scores batch fitted_object)) with
  | Ok p => p
  | Raise _ => ([], [], [])
  end.

(** The raw votes of the training points themselves. *)
Definition training_votes : list (list nat) :=
  match fst (fst (raw_votes X_train fitted_object)) with
  | Ok votes => votes
  | Raise _ => []
  end.

(** The fitted object with the bin count configured anew, and the scores
    of its next scoring call. *)
Definition reconfigured : LSCP := set_n_bins 10 fitted_object.

Definition rescored : list f64 :=
  match fst (fst (_get_decision_scores X_train reconfigured)) with
  | Ok scores => scores
  | Raise _ => []
  end.

(** Two correlation scores. *)
Definition two_scores : list Q := [1 # 2; - (1 # 3)].

End Demo.

Unset Implicit Arguments.

(** * Properties *)

(** ** Rational arithmetic of the histogram *)

Lemma Qleb_true (a b : Q) : Qleb a b = true <-> a <= b.
Proof. apply Qle_bool_iff. Qed.

Lemma Qleb_false (a b : Q) : Qleb a b = false <-> b < a.
Proof.
  unfold Qleb. split; intro H.
  - apply Qnot_le_lt. intro L. apply Qle_bool_iff in L. congruence.
  - destruct (Qle_bool a b) eqn:E; [|reflexivity].
    apply Qle_bool_iff in E. exfalso. apply (Qlt_not_le _ _ H E).
Qed.

Lemma Qmin2_spec (a b : Q) : Qmin2 a b <= a /\ Qmin2 a b <= b.
Proof.
  unfold Qmin2. destruct (Qleb a b) eqn:E.
  - apply Qleb_true in E. split; [apply Qle_refl | exact E].
  - apply Qleb_false in E. split; [apply Qlt_le_weak; exact E | apply Qle_refl].
Qed.

Lemma Qmax2_spec (a b : Q) : a <= Qmax2 a b /\ b <= Qmax2 a b.
Proof.
  unfold Qmax2. destruct (Qleb a b) eqn:E.
  - apply Qleb_true in E. split; [exact E | apply Qle_refl].
  - apply Qleb_false in E. split; [apply Qle_refl | apply Qlt_le_weak; exact E].
Qed.

Lemma list_min_le (l : list Q) : forall x,
  list_min x l <= x /\ Forall (fun y => list_min x l <= y) l.
Proof.
  unfold list_min. induction l as [|a l IH]; intro x; simpl.
  - split; [apply Qle_refl | constructor].
  - destruct (IH (Qmin2 x a)) as [H1 H2].
    destruct (Qmin2_spec x a) as [M1 M2].
    split; [eapply Qle_trans; eauto|].
    constructor; [eapply Qle_trans; eauto | exact H2].
Qed.

Lemma list_max_ge (l : list Q) : forall x,
  x <= list_max x l /\ Forall (fun y => y <= list_max x l) l.
Proof.
  unfold list_max. induction l as [|a l IH]; intro x; simpl.
  - split; [apply Qle_refl | constructor].
  - destruct (IH (Qmax2 x a)) as [H1 H2].
    destruct (Qmax2_spec x a) as [M1 M2].
    split; [eapply Qle_trans; eauto|].
    constructor; [eapply Qle_trans; eauto | exact H2].
Qed.

(** The derived range is never empty and covers the data. *)
Lemma outer_edges_spec (xs : list Q) :
  fst (outer_edges xs) < snd (outer_edges xs) /\
  Forall (fun x => fst (outer_edges xs) <= x <= snd (outer_edges xs)) xs.
Proof.
  destruct xs as [|x xs]; simpl.
  - split; [reflexivity | constructor].
  - destruct (list_min_le xs x) as [m1 m2].
    destruct (list_max_ge xs x) as [M1 M2].
    assert (A : Forall (fun y => list_min x xs <= y <= list_max x xs) (x :: xs)).
    { constructor; [split; assumption|].
      rewrite Forall_forall in *. intros y Hy. split; auto. }
    destruct (Qeq_bool (list_min x xs) (list_max x xs)) eqn:E; simpl.
    + split; [apply Qeq_bool_iff in E; lra|].
      eapply Forall_impl; [|exact A]. simpl. intros; lra.
    + split; [|exact A].
      apply Qeq_bool_neq in E.
      assert (list_min x xs <= list_max x xs) by (eapply Qle_trans; eauto).
      apply Qle_lteq in H. destruct H; [assumption | contradiction].
Qed.

Lemma scale_le (b y d n : Q) : 0 < d -> 0 < n ->
  (b * (d / n) <= y <-> b <= y * (n / d)).
Proof.
  intros Hd Hn.
  assert (P : 0 < n / d) by (apply Qlt_shift_div_l; lra).
  rewrite <- (Qmult_le_r (b * (d / n)) y (n / d) P).
  assert (E : b * (d / n) * (n / d) == b) by (field; split; lra).
  rewrite E. reflexivity.
Qed.

Lemma scale_ge (b y d n : Q) : 0 < d -> 0 < n ->
  (y <= b * (d / n) <-> y * (n / d) <= b).
Proof.
  intros Hd Hn.
  assert (P : 0 < n / d) by (apply Qlt_shift_div_l; lra).
  rewrite <- (Qmult_le_r y (b * (d / n)) (n / d) P).
  assert (E : b * (d / n) * (n / d) == b) by (field; split; lra).
  rewrite E. reflexivity.
Qed.

Lemma inject_nat_S (b : nat) :
  inject_Z (Z.of_nat (b + 1)) == inject_Z (Z.of_nat b) + 1.
Proof.
  rewrite Nat2Z.inj_add, inject_Z_plus. reflexivity.
Qed.

(** A value of the range lies between the edges of its bin. *)
Lemma bin_index_spec (first last x : Q) (n : nat) :
  first < last -> (1 <= n)%nat -> first <= x <= last ->
  let b := bin_index first last n x in
  (b < n)%nat /\
  bin_edge first last n b <= x /\ x <= bin_edge first last n (b + 1).
Proof.
  intros Hfl Hn [Hlo Hhi]. unfold bin_index, bin_edge.
  set (N := inject_Z (Z.of_nat n)).
  set (d := last - first).
  set (t := (x - first) * (N / d)).
  assert (Hd : 0 < d) by (unfold d; lra).
  assert (HN : 0 < N).
  { unfold N. change 0 with (inject_Z 0). rewrite <- Zlt_Qlt. lia. }
  assert (Ht0 : 0 <= t).
  { unfold t. apply Qmult_le_0_compat; [lra|].
    apply Qlt_le_weak, Qlt_shift_div_l; lra. }
  assert (HtN : t <= N).
  { unfold t. apply (scale_ge N (x - first) d N Hd HN).
    assert (E : N * (d / N) == d) by (field; lra). rewrite E. unfold d. lra. }
  assert (Hk0 : (0 <= Qfloor t)%Z).
  { rewrite <- (Qfloor_Z 0). apply Qfloor_resp_le. exact Ht0. }
  assert (Hkn : (Qfloor t <= Z.of_nat n)%Z).
  { rewrite <- (Qfloor_Z (Z.of_nat n)). apply Qfloor_resp_le. exact HtN. }
  assert (Hfl1 := Qfloor_le t). assert (Hfl2 := Qlt_floor t).
  assert (Ek : inject_Z (Z.of_nat (Z.to_nat (Qfloor t))) = inject_Z (Qfloor t)).
  { rewrite Z2Nat.id by assumption. reflexivity. }
  cbv zeta.
  destruct (Nat.eqb_spec (Z.to_nat (Qfloor t)) n) as [E|E].
  - split; [lia|].
    assert (EN : inject_Z (Qfloor t) = N).
    { unfold N. rewrite <- E. symmetry. exact Ek. }
    assert (tN : N <= t) by (rewrite <- EN; exact Hfl1).
    replace (n - 1 + 1)%nat with n by lia. fold N. fold d.
    assert (E1 : inject_Z (Z.of_nat (n - 1)) == N - 1).
    { unfold N. replace (Z.of_nat (n - 1)) with (Z.of_nat n - 1)%Z by lia.
      unfold Zminus. rewrite inject_Z_plus. reflexivity. }
    split.
    + assert (inject_Z (Z.of_nat (n - 1)) * (d / N) <= x - first); [|lra].
      apply (scale_le _ _ d N Hd HN). fold t. rewrite E1. lra.
    + assert (x - first <= N * (d / N)); [|lra].
      apply (scale_ge _ _ d N Hd HN). exact HtN.
  - split; [lia|]. fold N. fold d.
    split.
    + assert (inject_Z (Z.of_nat (Z.to_nat (Qfloor t))) * (d / N) <= x - first);
        [|lra].
      apply (scale_le _ _ d N Hd HN). fold t. rewrite Ek. exact Hfl1.
    + assert (x - first <=
              inject_Z (Z.of_nat (Z.to_nat (Qfloor t) + 1)) * (d / N)); [|lra].
      apply (scale_ge _ _ d N Hd HN). fold t. rewrite inject_nat_S, Ek.
      rewrite inject_Z_plus in Hfl2. apply Qlt_le_weak. exact Hfl2.
Qed.

(** ** Edges, counts and the densest bin *)

Lemma nth_error_linspace (first last : Q) (n i : nat) :
  (i <= n)%nat ->
  nth_error (linspace first last n) i = Some (bin_edge first last n i).
Proof.
  intro H. unfold linspace. rewrite nth_error_map, nth_error_seq.
  destruct (Nat.ltb_spec i (S n)); [reflexivity | lia].
Qed.

Lemma nth_error_hist (f : nat -> nat) (n b : nat) :
  nth_error (map f (seq 0 n)) b = if (b <? n)%nat then Some (f b) else None.
Proof.
  rewrite nth_error_map, nth_error_seq.
  destruct (b <? n)%nat; reflexivity.
Qed.

Lemma count_bin_pos (first last : Q) (n : nat) (xs : list Q) (b : nat) :
  (1 <= count_bin first last n xs b)%nat <->
  exists x, In x xs /\ bin_index first last n x = b.
Proof.
  unfold count_bin. split.
  - intro H.
    destruct (filter (fun x => (bin_index first last n x =? b)%nat) xs)
      as [|x l] eqn:E; [simpl in H; lia|].
    assert (I : In x (x :: l)) by (left; reflexivity).
    rewrite <- E in I. apply filter_In in I. destruct I as [I1 I2].
    exists x. split; [exact I1 | apply Nat.eqb_eq; exact I2].
  - intros [x [I E]].
    assert (J : In x (filter (fun x => (bin_index first last n x =? b)%nat) xs)).
    { apply filter_In. split; [exact I | apply Nat.eqb_eq; exact E]. }
    destruct (filter _ xs); [destruct J | simpl; lia].
Qed.

Lemma first_max_combine (h : list nat) : forall a i v,
  first_max (combine (seq a (length h)) h) = Some (i, v) ->
  (a <= i)%nat /\ nth_error h (i - a) = Some v /\
  forall k w, nth_error h k = Some w ->
    (w <= v)%nat /\ ((a + k < i)%nat -> (w < v)%nat).
Proof.
  induction h as [|x h IH]; intros a i v H; simpl in H; [discriminate|].
  destruct (first_max (combine (seq (S a) (length h)) h)) as [[j w]|] eqn:E.
  - destruct (IH _ _ _ E) as [A [B C]].
    destruct (Nat.ltb_spec x w) as [L|L]; inversion H; subst; clear H.
    + split; [lia|]. split.
      * replace (i - a)%nat with (S (i - S a)) by lia. exact B.
      * intros [|k] w' Hk; simpl in Hk.
        -- inversion Hk; subst. lia.
        -- destruct (C _ _ Hk). split; [assumption | intro; apply H0; lia].
    + split; [lia|]. split.
      * rewrite Nat.sub_diag. reflexivity.
      * intros [|k] w' Hk; simpl in Hk.
        -- inversion Hk; subst. lia.
        -- destruct (C _ _ Hk). split; lia.
  - inversion H; subst; clear H.
    split; [lia|]. split; [rewrite Nat.sub_diag; reflexivity|].
    destruct h as [|y h]; [|simpl in E;
      destruct (first_max (combine (seq (S (S i)) (length h)) h)) as [[? ?]|];
      [destruct (_ <? _)%nat|]; discriminate].
    intros [|k] w' Hk; simpl in Hk; [inversion Hk; subst; lia|].
    destruct k; discriminate.
Qed.

Lemma first_max_nonempty (l : list (nat * nat)) :
  l <> [] -> exists p, first_max l = Some p.
Proof.
  destruct l as [|[i v] l]; [congruence|]. intros _. simpl.
  destruct (first_max l) as [[j w]|]; [destruct (v <? w)%nat|]; eauto.
Qed.

(** With one bin to select, [argmaxn] returns the densest bin. *)
Lemma argmaxn_one (hist : list nat) :
  hist <> [] -> exists b, argmaxn hist 1 = [b] /\ densest hist b.
Proof.
  intro H. unfold argmaxn.
  destruct (first_max_nonempty (combine (seq 0 (length hist)) hist))
    as [[i v] E].
  { destruct hist; [congruence | simpl; discriminate]. }
  exists i. simpl. rewrite E. split; [reflexivity|].
  destruct (first_max_combine _ _ _ _ E) as [_ [B C]].
  rewrite Nat.sub_0_r in B. exists v. split; [exact B|].
  intros b' c' Hb. exact (C _ _ Hb).
Qed.

Lemma In_where_from (mask : list bool) : forall k i,
  In i (where_from k mask) <->
  (k <= i)%nat /\ nth_error mask (i - k) = Some true.
Proof.
  induction mask as [|b mask IH]; intros k i; simpl.
  - split; [tauto|]. intros [_ H]. destruct (i - k)%nat; discriminate.
  - assert (R : forall P,
      (P \/ In i (where_from (S k) mask)) <->
      (P \/ ((S k <= i)%nat /\ nth_error mask (i - S k) = Some true))).
    { intro P. rewrite IH. tauto. }
    destruct b; simpl.
    + rewrite R. split.
      * intros [E|[L N]]; [subst; rewrite Nat.sub_diag; split; [lia|reflexivity]|].
        split; [lia|]. replace (i - k)%nat with (S (i - S k)) by lia. exact N.
      * intros [L N]. destruct (Nat.eq_dec k i) as [E|E]; [left; exact E|].
        right. split; [lia|].
        replace (i - k)%nat with (S (i - S k)) in N by lia. exact N.
    + rewrite IH. split.
      * intros [L N]. split; [lia|].
        replace (i - k)%nat with (S (i - S k)) by lia. exact N.
      * intros [L N]. destruct (Nat.eq_dec k i) as [E|E].
        { subst. rewrite Nat.sub_diag in N. discriminate. }
        split; [lia|].
        replace (i - k)%nat with (S (i - S k)) in N by lia. exact N.
Qed.

Lemma In_np_where (mask : list bool) (i : nat) :
  In i (np_where mask) <-> nth_error mask i = Some true.
Proof.
  unfold np_where. rewrite In_where_from, Nat.sub_0_r.
  split; [tauto | intro; split; [lia | assumption]].
Qed.

Lemma where_from_all (mask : list bool) : forall k,
  Forall (fun b => b = true) mask ->
  where_from k mask = seq k (length mask).
Proof.
  induction mask as [|b mask IH]; intros k H; simpl; [reflexivity|].
  inversion H; subst. rewrite IH by assumption. reflexivity.
Qed.

Lemma finite_values_spec (a : list f64) (xs : list Q) :
  finite_values a = Some xs -> a = map Fin xs.
Proof.
  revert xs. induction a as [|[q|] a IH]; intros xs H; simpl in H.
  - inversion H. reflexivity.
  - destruct (finite_values a) as [l|]; [|discriminate].
    inversion H; subst. simpl. rewrite (IH l eq_refl). reflexivity.
  - discriminate.
Qed.

Lemma finite_values_map_Fin (xs : list Q) : finite_values (map Fin xs) = Some xs.
Proof.
  induction xs as [|x xs IH]; simpl; [reflexivity | rewrite IH; reflexivity].
Qed.

Lemma finite_values_None (a : list f64) :
  finite_values a = None <-> In NaN a.
Proof.
  induction a as [|[q|] a IH]; simpl.
  - split; [discriminate | tauto].
  - destruct (finite_values a).
    + split; [discriminate|]. intros [H|H]; [discriminate|].
      apply IH in H. discriminate.
    + split; [intro; right; apply IH; reflexivity | reflexivity].
  - split; [auto | reflexivity].
Qed.

Section Selector.

Context {collab : Collaborators}.

Lemma n_bins_clamp (s : LSCP) :
  n_bins (clamp s) = Z.min (n_bins s) (Z.of_nat (n_clf s)).
Proof.
  unfold clamp. destruct (Z.ltb_spec (Z.of_nat (n_clf s)) (n_bins s)); simpl; lia.
Qed.

Lemma clamp_idem (s : LSCP) : clamp (clamp s) = clamp s.
Proof.
  unfold clamp.
  destruct (Z.of_nat (n_clf s) <? n_bins s)%Z eqn:E; simpl.
  - rewrite Z.ltb_irrefl. reflexivity.
  - rewrite E. reflexivity.
Qed.

Lemma clamp_warnings_clamp (s : LSCP) : clamp_warnings (clamp s) = [].
Proof.
  unfold clamp_warnings, clamp.
  destruct (Z.of_nat (n_clf s) <? n_bins s)%Z eqn:E; simpl.
  - rewrite Z.ltb_irrefl. reflexivity.
  - rewrite E. reflexivity.
Qed.

(** The selector, with its state and warnings written out. *)
Lemma selector_unfold (scores : list f64) (s : LSCP) :
  _get_competent_detectors scores s =
  match np_histogram scores (n_bins (clamp s)) with
  | Ok hb =>
      match
        for_each
          (fun candidates max_bin =>
             bind (lift (select_in_bin scores (snd hb) max_bin))
               (fun selected => ret (candidates ++ selected)))
          (argmaxn (fst hb) (n_selected (clamp s))) [] (clamp s)
      with
      | (r, s2, w2) => (r, s2, clamp_warnings s ++ w2)
      end
  | Raise e => (Raise e, clamp s, clamp_warnings s)
  end.
Proof.
  unfold _get_competent_detectors, clamp, clamp_warnings, bind, get, put,
    warn, ret, lift.
  destruct (Z.of_nat (n_clf s) <? n_bins s)%Z; simpl;
    match goal with |- context [np_histogram ?a ?b] =>
      destruct (np_histogram a b) as [hb|e] end; simpl; try reflexivity;
    match goal with |- context [for_each ?f ?l ?a ?st] =>
      destruct (for_each f l a st) as [[r s2] w2] end; reflexivity.
Qed.

(** On finite scores the selector returns the detectors of the densest
    bin, bounds included. *)
Lemma selector_finite (scores : list f64) (xs : list Q) (s : LSCP) :
  n_selected s = 1%nat ->
  (1 <= n_bins (clamp s))%Z ->
  finite_values scores = Some xs ->
  let n := used_bins s in
  let first := fst (outer_edges xs) in
  let last := snd (outer_edges xs) in
  exists b,
    (b < n)%nat /\
    densest (map (count_bin first last n xs) (seq 0 n)) b /\
    _get_competent_detectors scores s =
      (Ok (np_where (map (in_bin (bin_edge first last n b)
                            (bin_edge first last n (b + 1))) scores)),
       clamp s, clamp_warnings s).
Proof.
  intros Hsel Hb Hfin n first last.
  assert (Hn : (1 <= n)%nat) by (unfold n, used_bins; lia).
  rewrite selector_unfold. unfold np_histogram.
  destruct (Z.ltb_spec (n_bins (clamp s)) 1) as [L|_]; [lia|].
  rewrite Hfin.
  destruct (outer_edges xs) as [f l] eqn:Eo. simpl in first, last.
  fold (used_bins s). fold n. cbn [fst snd].
  assert (Hs : n_selected (clamp s) = 1%nat).
  { unfold clamp. destruct (_ <? _)%Z; simpl; exact Hsel. }
  rewrite Hs.
  destruct (argmaxn_one (map (count_bin f l n xs) (seq 0 n)))
    as [b [Ea Hd]].
  { destruct n; [lia | simpl; discriminate]. }
  assert (Hbn : (b < n)%nat).
  { destruct Hd as [c [Hc _]]. rewrite nth_error_hist in Hc.
    destruct (Nat.ltb_spec b n); [assumption | discriminate]. }
  exists b. split; [exact Hbn|]. split; [exact Hd|].
  rewrite Ea. simpl. unfold bind, lift, ret, select_in_bin.
  rewrite !nth_error_linspace by lia. simpl.
  rewrite app_nil_r. reflexivity.
Qed.

End Selector.

Section SelectorClaims.

Context {collab : Collaborators}.

Lemma clamp_bins_pos (s : LSCP) :
  (1 <= n_bins s)%Z -> (1 <= n_clf s)%nat -> (1 <= n_bins (clamp s))%Z.
Proof. intros. rewrite n_bins_clamp. lia. Qed.

Lemma in_bin_Fin (low high x : Q) :
  in_bin low high (Fin x) = true <-> low <= x /\ x <= high.
Proof.
  unfold in_bin. simpl. rewrite andb_true_iff, !Qleb_true. tauto.
Qed.

Lemma In_selected (low high : Q) (xs : list Q) (i : nat) :
  In i (np_where (map (in_bin low high) (map Fin xs))) <->
  exists x, nth_error xs i = Some x /\ low <= x /\ x <= high.
Proof.
  rewrite In_np_where, map_map, nth_error_map.
  destruct (nth_error xs i) as [x|]; simpl.
  - split.
    + intro H. exists x. split; [reflexivity|]. apply in_bin_Fin.
      inversion H. reflexivity.
    + intros [y [E H]]. inversion E; subst. f_equal. apply in_bin_Fin. exact H.
  - split; [discriminate|]. intros [y [E _]]. discriminate.
Qed.

Lemma bin_edge_step (first last : Q) (n b : nat) :
  first < last -> (1 <= n)%nat ->
  bin_edge first last n b <= bin_edge first last n (b + 1).
Proof.
  intros Hfl Hn. unfold bin_edge. rewrite inject_nat_S.
  assert (0 < inject_Z (Z.of_nat n)).
  { change 0 with (inject_Z 0). rewrite <- Zlt_Qlt. lia. }
  assert (0 < (last - first) / inject_Z (Z.of_nat n))
    by (apply Qlt_shift_div_l; lra).
  set (w := (last - first) / inject_Z (Z.of_nat n)) in *.
  set (q := inject_Z (Z.of_nat b)). lra.
Qed.

(** C5: on finite correlation scores the detectors the selector returns
    are exactly those whose score lies in the closed interval between the
    two edges of the densest histogram bin; a score equal to the upper
    edge, which is also the lower edge of the next bin, is returned.  With
    a positive bin count the selector does return. *)
Theorem densest_bin_closed_interval (s : LSCP) (xs : list Q) :
  n_selected s = 1%nat ->
  (1 <= n_clf s)%nat ->
  let n := used_bins s in
  let first := fst (outer_edges xs) in
  let last := snd (outer_edges xs) in
  (forall candidates s1 w,
     _get_competent_detectors (map Fin xs) s = (Ok candidates, s1, w) ->
     exists b,
       (b < n)%nat /\
       densest (map (count_bin first last n xs) (seq 0 n)) b /\
       (forall i, In i candidates <->
          exists x, nth_error xs i = Some x /\
            bin_edge first last n b <= x /\ x <= bin_edge first last n (b + 1)) /\
       (forall i x, nth_error xs i = Some x ->
          x == bin_edge first last n (b + 1) -> In i candidates)) /\
  ((1 <= n_bins s)%Z ->
   exists candidates,
     _get_competent_detectors (map Fin xs) s =
       (Ok candidates, clamp s, clamp_warnings s)).
Proof.
  intros Hsel Hm n first last.
  assert (Run : (1 <= n_bins (clamp s))%Z ->
    exists b,
      (b < n)%nat /\
      densest (map (count_bin first last n xs) (seq 0 n)) b /\
      _get_competent_detectors (map Fin xs) s =
        (Ok (np_where (map (in_bin (bin_edge first last n b)
                              (bin_edge first last n (b + 1))) (map Fin xs))),
         clamp s, clamp_warnings s)).
  { intro Hc.
    exact (selector_finite (map Fin xs) xs s Hsel Hc (finite_values_map_Fin xs)). }
  split.
  - intros candidates s1 w E.
    destruct (Z.ltb_spec (n_bins (clamp s)) 1) as [L|L].
    { rewrite selector_unfold in E. unfold np_histogram in E.
      destruct (Z.ltb_spec (n_bins (clamp s)) 1); [discriminate | lia]. }
    destruct (Run L) as [b [Hbn [Hd E']]].
    rewrite E' in E. inversion E; subst candidates s1 w; clear E.
    exists b. split; [exact Hbn|]. split; [exact Hd|]. split.
    + intro i. apply In_selected.
    + intros i x Hx Ex. apply In_selected. exists x. split; [exact Hx|].
      destruct (outer_edges_spec xs) as [Hfl _]. fold first last in Hfl.
      assert (Hn : (1 <= n)%nat) by (unfold n, used_bins; lia).
      assert (S := bin_edge_step first last n b Hfl Hn).
      rewrite Ex. split; [exact S | apply Qle_refl].
  - intro Hb. destruct (Run (clamp_bins_pos s Hb Hm)) as [b [_ [_ E]]].
    eexists. exact E.
Qed.

(** C4: with a single bin the selector returns every detector index. *)
Theorem single_bin_selects_all (s : LSCP) (xs : list Q) :
  n_bins s = 1%Z ->
  n_selected s = 1%nat ->
  (2 <= n_clf s)%nat ->
  length xs = n_clf s ->
  _get_competent_detectors (map Fin xs) s = (Ok (seq 0 (n_clf s)), s, []).
Proof.
  intros Hb Hsel Hm Hlen.
  assert (Ec : clamp s = s).
  { unfold clamp. destruct (Z.ltb_spec (Z.of_nat (n_clf s)) (n_bins s));
      [lia | reflexivity]. }
  assert (Ew : clamp_warnings s = []).
  { unfold clamp_warnings. destruct (Z.ltb_spec (Z.of_nat (n_clf s)) (n_bins s));
      [lia | reflexivity]. }
  assert (Hc : (1 <= n_bins (clamp s))%Z) by (rewrite Ec; lia).
  destruct (selector_finite (map Fin xs) xs s Hsel Hc (finite_values_map_Fin xs))
    as [b [Hbn [_ E]]].
  assert (En : used_bins s = 1%nat) by (unfold used_bins; rewrite Ec, Hb; reflexivity).
  rewrite En in *. assert (b = 0%nat) by lia. subst b.
  rewrite E, Ec, Ew. f_equal. f_equal. f_equal.
  unfold np_where. rewrite where_from_all.
  - rewrite !length_map. rewrite Hlen. reflexivity.
  - rewrite map_map. apply Forall_map.
    destruct (outer_edges_spec xs) as [Hfl Hall].
    eapply Forall_impl; [|exact Hall]. simpl. intros x [H1 H2].
    apply in_bin_Fin.
    set (first := fst (outer_edges xs)) in *.
    set (last := snd (outer_edges xs)) in *.
    assert (E0 : bin_edge first last 1 0 == first).
    { unfold bin_edge. simpl. field. }
    assert (E1 : bin_edge first last 1 (0 + 1) == last).
    { unfold bin_edge. simpl. field. }
    rewrite E0, E1. split; assumption.
Qed.

(** The candidates of a finite, non-empty score vector: at least one, all
    of them detector indices. *)
Lemma selector_candidates (s : LSCP) (xs : list Q) :
  xs <> [] ->
  n_selected s = 1%nat ->
  (1 <= n_bins (clamp s))%Z ->
  exists candidates,
    _get_competent_detectors (map Fin xs) s =
      (Ok candidates, clamp s, clamp_warnings s) /\
    (1 <= length candidates)%nat /\
    Forall (fun i => (i < length xs)%nat) candidates.
Proof.
  intros Hne Hsel Hc.
  destruct (selector_finite (map Fin xs) xs s Hsel Hc (finite_values_map_Fin xs))
    as [b [Hbn [[c [Hcb Hmax]] E]]].
  eexists. split; [exact E|].
  set (n := used_bins s) in *.
  set (first := fst (outer_edges xs)) in *.
  set (last := snd (outer_edges xs)) in *.
  assert (Hn : (1 <= n)%nat) by (unfold n, used_bins; lia).
  destruct (outer_edges_spec xs) as [Hfl Hall]. fold first last in Hfl, Hall.
  rewrite Forall_forall in Hall.
  split.
  - (* some score exists, so some bin is inhabited *)
    destruct xs as [|x0 xs']; [congruence|].
    assert (I0 : In x0 (x0 :: xs')) by (left; reflexivity).
    destruct (bin_index_spec first last x0 n Hfl Hn (Hall _ I0)) as [B0 _].
    set (b0 := bin_index first last n x0) in *.
    assert (C0 : (1 <= count_bin first last n (x0 :: xs') b0)%nat).
    { apply count_bin_pos. exists x0. split; [exact I0 | reflexivity]. }
    assert (Hb0 : nth_error (map (count_bin first last n (x0 :: xs')) (seq 0 n)) b0
                  = Some (count_bin first last n (x0 :: xs') b0)).
    { rewrite nth_error_hist. destruct (Nat.ltb_spec b0 n); [reflexivity | lia]. }
    destruct (Hmax _ _ Hb0) as [Hle _].
    (* hence the densest bin is inhabited *)
    rewrite nth_error_hist in Hcb.
    destruct (Nat.ltb_spec b n); [|discriminate]. inversion Hcb as [Ec].
    assert (C : (1 <= count_bin first last n (x0 :: xs') b)%nat) by lia.
    apply count_bin_pos in C. destruct C as [x [Ix Ebx]].
    destruct (bin_index_spec first last x n Hfl Hn (Hall _ Ix)) as [_ [L1 L2]].
    rewrite Ebx in L1, L2.
    destruct (In_nth_error _ _ Ix) as [i Hi].
    assert (J : In i (np_where (map (in_bin (bin_edge first last n b)
                  (bin_edge first last n (b + 1))) (map Fin (x0 :: xs'))))).
    { apply In_selected. exists x. auto. }
    destruct (np_where _); [destruct J | simpl; lia].
  - apply Forall_forall. intros i Hi. apply In_selected in Hi.
    destruct Hi as [x [Hx _]]. apply nth_error_Some. congruence.
Qed.

Lemma finite_scores (scores : list f64) :
  Forall (fun x => is_finite x = true) scores ->
  exists xs, scores = map Fin xs.
Proof.
  induction 1 as [|x scores Hx _ [xs ->]].
  - exists []. reflexivity.
  - destruct x as [q|]; [|discriminate]. exists (q :: xs). reflexivity.
Qed.

(** C6: with at least two detectors the selector never returns an empty
    candidate set, whatever the number of detectors; on finite scores and
    a positive bin count it returns one; on an undefined score or a bin
    count below one it raises a value error and returns no candidate
    set. *)
Theorem candidate_set_nonempty (s : LSCP) (scores : list f64) :
  (2 <= n_clf s)%nat ->
  length scores = n_clf s ->
  n_selected s = 1%nat ->
  (forall candidates s1 w,
     _get_competent_detectors scores s = (Ok candidates, s1, w) ->
     (1 <= length candidates)%nat) /\
  ((1 <= n_bins s)%Z ->
   Forall (fun x => is_finite x = true) scores ->
   exists candidates,
     _get_competent_detectors scores s =
       (Ok candidates, clamp s, clamp_warnings s) /\
     (1 <= length candidates)%nat) /\
  (In NaN scores \/ (n_bins s < 1)%Z ->
   exists v,
     _get_competent_detectors scores s =
       (Raise (ValueError v), clamp s, clamp_warnings s)).
Proof.
  intros Hm Hlen Hsel.
  assert (Run : (1 <= n_bins (clamp s))%Z ->
    forall xs, scores = map Fin xs ->
    exists candidates,
      _get_competent_detectors scores s =
        (Ok candidates, clamp s, clamp_warnings s) /\
      (1 <= length candidates)%nat).
  { intros Hc xs ->. rewrite length_map in Hlen.
    destruct (selector_candidates s xs) as [candidates [E [L _]]];
      [intro E; subst xs; simpl in Hlen; lia | exact Hsel | exact Hc|].
    exists candidates. split; assumption. }
  split.
  - intros candidates s1 w E.
    assert (E0 := E). rewrite selector_unfold in E0. unfold np_histogram in E0.
    destruct (Z.ltb_spec (n_bins (clamp s)) 1) as [L|L]; [discriminate|].
    destruct (finite_values scores) as [xs|] eqn:Ef; [|discriminate].
    destruct (Run L xs (finite_values_spec scores xs Ef)) as [c [E' Lc]].
    rewrite E' in E. inversion E; subst. exact Lc.
  - split.
    + intros Hb Hfin. destruct (finite_scores scores Hfin) as [xs Exs].
      apply (Run (clamp_bins_pos s Hb ltac:(lia)) xs Exs).
    + intros Hbad. rewrite selector_unfold. unfold np_histogram.
      destruct (Z.ltb_spec (n_bins (clamp s)) 1) as [L|L];
        [eexists; reflexivity|].
      destruct Hbad as [Hnan|Hb].
      * rewrite (proj2 (finite_values_None scores) Hnan). eexists; reflexivity.
      * rewrite n_bins_clamp in L. lia.
Qed.

End SelectorClaims.

(** ** The occurrence counter *)

Lemma recorded_add (c : list (nat * nat)) (x y : nat) :
  recorded (counter_add c x) y =
  (recorded c y + if (x =? y)%nat then 1 else 0)%nat.
Proof.
  induction c as [|[z n] c IH]; simpl.
  - destruct (x =? y)%nat; reflexivity.
  - destruct (Nat.eqb_spec x z) as [E|E]; simpl.
    + subst z. destruct (x =? y)%nat; lia.
    + rewrite IH. destruct (z =? y)%nat; lia.
Qed.

Lemma keys_add (c : list (nat * nat)) (x y : nat) :
  In y (map fst (counter_add c x)) <-> y = x \/ In y (map fst c).
Proof.
  induction c as [|[z n] c IH]; simpl.
  - intuition.
  - destruct (Nat.eqb_spec x z) as [E|E]; simpl.
    + subst z. intuition.
    + rewrite IH. intuition.
Qed.

Lemma keys_add_NoDup (c : list (nat * nat)) (x : nat) :
  NoDup (map fst c) -> NoDup (map fst (counter_add c x)).
Proof.
  induction c as [|[z n] c IH]; simpl; intro H.
  - constructor; [intros [] | constructor].
  - inversion H as [|? ? Hz Hc]; subst.
    destruct (Nat.eqb_spec x z) as [E|E]; simpl.
    + constructor; assumption.
    + constructor; [|apply IH; assumption].
      rewrite keys_add. intros [E'|I]; [congruence | contradiction].
Qed.

Lemma positive_add (c : list (nat * nat)) (x : nat) :
  Forall (fun p => (0 < snd p)%nat) c ->
  Forall (fun p => (0 < snd p)%nat) (counter_add c x).
Proof.
  induction c as [|[z n] c IH]; simpl; intro H.
  - constructor; [simpl; lia | constructor].
  - inversion H; subst.
    destruct (x =? z)%nat; constructor; simpl in *; auto; lia.
Qed.

Lemma recorded_absent (c : list (nat * nat)) (y : nat) :
  ~ In y (map fst c) -> recorded c y = 0%nat.
Proof.
  induction c as [|[z n] c IH]; simpl; intro H; [reflexivity|].
  destruct (Nat.eqb_spec z y); [exfalso; auto | apply IH; auto].
Qed.

Lemma recorded_entry (c : list (nat * nat)) (y n : nat) :
  NoDup (map fst c) -> In (y, n) c -> recorded c y = n.
Proof.
  induction c as [|[z m] c IH]; simpl; intros H I; [destruct I|].
  inversion H as [|? ? Hz Hc]; subst.
  destruct I as [E|I].
  - inversion E; subst. rewrite Nat.eqb_refl.
    rewrite (@recorded_absent _ _ Hz). lia.
  - destruct (Nat.eqb_spec z y) as [E|E].
    + subst. exfalso. apply Hz. apply (in_map fst) in I. exact I.
    + apply IH; assumption.
Qed.

Lemma recorded_pos_entry (c : list (nat * nat)) (y : nat) :
  (0 < recorded c y)%nat -> exists n, In (y, n) c.
Proof.
  induction c as [|[z m] c IH]; simpl; intro H; [lia|].
  destruct (Nat.eqb_spec z y) as [E|E].
  - subst. exists m. left. reflexivity.
  - destruct (IH H) as [n I]. exists n. right. exact I.
Qed.

(** What a counter built over [c0] knows after reading [l]. *)
Lemma Counter_fold (l : list nat) : forall c0,
  NoDup (map fst c0) ->
  Forall (fun p => (0 < snd p)%nat) c0 ->
  let c := fold_left counter_add l c0 in
  NoDup (map fst c) /\
  Forall (fun p => (0 < snd p)%nat) c /\
  (forall y, recorded c y = (recorded c0 y + count_occ Nat.eq_dec l y)%nat) /\
  (forall y, In y (map fst c) <-> In y (map fst c0) \/ In y l).
Proof.
  induction l as [|x l IH]; intros c0 Hn Hp; simpl.
  - split; [exact Hn|]. split; [exact Hp|]. split; intro y; [lia | tauto].
  - destruct (IH (counter_add c0 x) (@keys_add_NoDup _ x Hn) (positive_add c0 x Hp))
      as [A [B [C D]]].
    split; [exact A|]. split; [exact B|]. split.
    + intro y. rewrite C, recorded_add.
      destruct (Nat.eq_dec x y) as [E|E].
      * subst. rewrite Nat.eqb_refl. lia.
      * destruct (Nat.eqb_spec x y); [contradiction | lia].
    + intro y. rewrite D, keys_add. intuition.
Qed.

Lemma Counter_spec (l : list nat) :
  NoDup (map fst (Counter l)) /\
  (forall y n, In (y, n) (Counter l) ->
     n = count_occ Nat.eq_dec l y /\ In y l) /\
  (forall y, In y l -> In (y, count_occ Nat.eq_dec l y) (Counter l)).
Proof.
  unfold Counter.
  destruct (Counter_fold l []) as [A [B [C D]]];
    [constructor | constructor |].
  split; [exact A|]. split.
  - intros y n I. split.
    + rewrite <- (@recorded_entry _ _ _ A I). rewrite C. reflexivity.
    + apply (in_map fst) in I. apply D in I. destruct I as [[]|I]; exact I.
  - intros y I.
    assert (P : (0 < recorded (fold_left counter_add l []) y)%nat).
    { rewrite C. simpl. apply count_occ_In. exact I. }
    destruct (@recorded_pos_entry _ _ P) as [n J].
    rewrite <- (@recorded_entry _ _ _ A J) in J. rewrite C in J. exact J.
Qed.

(** The thresholded votes: exactly the items that occur more often than
    the threshold, each once, all of them raw votes. *)
Lemma frequent_items_spec (threshold : Z) (votes : list nat) :
  (0 <= threshold)%Z ->
  (forall i, In i (frequent_items threshold votes) <->
             (threshold < Z.of_nat (count_occ Nat.eq_dec votes i))%Z) /\
  NoDup (frequent_items threshold votes) /\
  incl (frequent_items threshold votes) votes /\
  (length (frequent_items threshold votes) <= length votes)%nat.
Proof.
  intro Ht. destruct (Counter_spec votes) as [A [B C]].
  unfold frequent_items.
  assert (S1 : forall i,
    In i (map fst (filter (fun ic => (threshold <? Z.of_nat (snd ic))%Z)
                     (Counter votes))) <->
    (threshold < Z.of_nat (count_occ Nat.eq_dec votes i))%Z).
  { intro i. rewrite in_map_iff. split.
    - intros [[y n] [E I]]. simpl in E. subst y.
      apply filter_In in I. destruct I as [I L]. simpl in L.
      apply Z.ltb_lt in L. destruct (B _ _ I) as [En _]. subst n. exact L.
    - intro L. assert (I : In i votes).
      { apply (count_occ_In Nat.eq_dec). lia. }
      exists (i, count_occ Nat.eq_dec votes i). split; [reflexivity|].
      apply filter_In. split; [apply C; exact I|]. simpl.
      apply Z.ltb_lt. exact L. }
  assert (S2 : NoDup (map fst (filter (fun ic => (threshold <? Z.of_nat (snd ic))%Z)
                     (Counter votes)))).
  { clear - A. induction (Counter votes) as [|[y n] c IH]; simpl; [constructor|].
    simpl in A. inversion A as [|? ? Hy Hc]; subst.
    destruct (threshold <? Z.of_nat n)%Z; simpl; [|apply IH; assumption].
    constructor; [|apply IH; assumption].
    intro I. apply Hy. apply in_map_iff in I. destruct I as [p [E I]].
    apply filter_In in I. destruct I as [I _].
    apply in_map_iff. exists p. split; assumption. }
  assert (S3 : incl (map fst (filter (fun ic => (threshold <? Z.of_nat (snd ic))%Z)
                     (Counter votes))) votes).
  { intros i I. apply S1 in I. apply (count_occ_In Nat.eq_dec). lia. }
  split; [exact S1|]. split; [exact S2|]. split; [exact S3|].
  apply NoDup_incl_length; assumption.
Qed.

(** ** The local region estimator *)

Section LocalRegion.

Context {collab : Collaborators}.

Ltac unfold_monad :=
  unfold attr, index, raise in *;
  unfold bind, get, put, ret, lift, warn, of_option in *.

Lemma bind_get {A} (f : LSCP -> M A) (s : LSCP) : bind get f s = f s s.
Proof. unfold bind, get. destruct (f s s) as [[r s2] w2]. reflexivity. Qed.

Lemma bind_lift {A B} (x : outcome A) (f : A -> M B) (s : LSCP) :
  bind (lift x) f s =
  match x with Ok a => f a s | Raise e => (Raise e, s, []) end.
Proof.
  unfold bind, lift. destruct x as [a|e]; [|reflexivity].
  destruct (f a s) as [[r s2] w2]. reflexivity.
Qed.

Lemma set_random_state_same (s : LSCP) : set_random_state (random_state s) s = s.
Proof. destruct s; reflexivity. Qed.

(** The draw of a feature subspace, with its state written out. *)
Lemma draw_features_unfold (s : LSCP) :
  draw_features s =
  match X_train_norm_ s with
  | None => (Raise AttributeError, s, [])
  | Some X_train =>
      let d := n_cols X_train in
      let drawn :=
        generate_bagging_indices (random_state s) d
          (py_int (inject_Z (Z.of_nat d) * local_min_features s))
          (py_int (inject_Z (Z.of_nat d) * local_max_features s)) in
      (fst drawn, set_random_state (snd drawn) s, [])
  end.
Proof.
  unfold draw_features. unfold_monad.
  destruct (X_train_norm_ s) as [X_train|]; [|reflexivity].
  cbv zeta.
  destruct (generate_bagging_indices _ _ _ _) as [[features|e] g]; reflexivity.
Qed.

Lemma generate_bagging_indices_exn g d a b :
  no_mismatch (fst (generate_bagging_indices g d a b)).
Proof.
  unfold generate_bagging_indices.
  destruct ((0 <=? a) && (a <=? b) && (b <=? Z.of_nat d))%Z%bool;
    [|reflexivity].
  destruct (randint g (Z.to_nat a) (Z.to_nat b)) as [k g1].
  destruct (draw_distinct g1 (seq 0 d) k) as [features g2]. exact I.
Qed.

Lemma add_neighbors_exn lrl : forall ind_arr,
  no_mismatch (add_neighbors lrl ind_arr).
Proof.
  induction lrl as [|r rest IH]; intros [|nb ind_arr]; simpl;
    try exact I; try reflexivity.
  specialize (IH ind_arr). destruct (add_neighbors rest ind_arr); simpl in *; auto.
Qed.

(** One voting iteration changes nothing but the random state, which it
    advances by one draw. *)
Lemma local_region_iteration_state X lrl s r s1 w :
  local_region_iteration X lrl s = (r, s1, w) ->
  s1 = set_random_state (advance s (random_state s)) s /\ w = [] /\
  no_mismatch r.
Proof.
  unfold local_region_iteration, bind at 1. rewrite draw_features_unfold.
  unfold advance.
  destruct (X_train_norm_ s) as [X_train|] eqn:EX.
  - cbv zeta.
    assert (G := generate_bagging_indices_exn (random_state s) (n_cols X_train)
      (py_int (inject_Z (Z.of_nat (n_cols X_train)) * local_min_features s))
      (py_int (inject_Z (Z.of_nat (n_cols X_train)) * local_max_features s))).
    destruct (generate_bagging_indices _ _ _ _) as [[features|e] g].
    + cbn [fst snd]. unfold_monad. cbn [X_train_norm_ set_random_state].
      rewrite EX.
      destruct (select_columns X_train features); cbn;
        [destruct (select_columns X features); cbn;
          [destruct (kdtree_query _ _ _); cbn|]|];
        intro H; inversion H; subst; repeat split.
      apply add_neighbors_exn.
    + cbn [fst snd] in *. intro H; inversion H; subst; repeat split. exact G.
  - intro H; inversion H; subst. repeat split.
    symmetry. apply set_random_state_same.
Qed.

Lemma add_neighbors_length (k : nat) (ind_arr : list (list nat)) :
  Forall (fun nb => length nb = k) ind_arr ->
  forall lrl t lrl',
    Forall (fun v => length v = t) lrl ->
    add_neighbors lrl ind_arr = Ok lrl' ->
    length lrl' = length lrl /\ Forall (fun v => length v = (t + k)%nat) lrl'.
Proof.
  induction 1 as [|nb ind_arr Hnb Hrest IH]; intros lrl t lrl' Hl E.
  - destruct lrl; simpl in E; [|discriminate].
    inversion E; subst. split; [reflexivity | constructor].
  - destruct lrl as [|r rest]; simpl in E.
    + inversion E; subst. split; [reflexivity | constructor].
    + inversion Hl; subst.
      destruct (add_neighbors rest ind_arr) as [t'|] eqn:Er; [|discriminate].
      inversion E; subst. destruct (IH _ _ _ H2 Er) as [A B].
      split; [simpl; congruence|].
      constructor; [rewrite length_app; lia | exact B].
Qed.

Lemma local_region_iteration_votes X lrl s votes s1 w t :
  knn_contract ->
  local_region_iteration X lrl s = (Ok votes, s1, w) ->
  Forall (fun v => length v = t) lrl ->
  length votes = length lrl /\
  Forall (fun v => length v = (t + Z.to_nat (local_region_size s))%nat) votes.
Proof.
  intros K.
  unfold local_region_iteration, bind at 1. rewrite draw_features_unfold.
  destruct (X_train_norm_ s) as [X_train|] eqn:EX; [|discriminate].
  cbv zeta. destruct (generate_bagging_indices _ _ _ _) as [[features|e] g];
    cbn [fst snd]; [|discriminate].
  unfold_monad. cbn [X_train_norm_ set_random_state local_region_size].
  rewrite EX.
  destruct (select_columns X_train features); cbn; [|discriminate].
  destruct (select_columns X features); cbn; [|discriminate].
  destruct (kdtree_query _ _ _) as [ind_arr|] eqn:EK; cbn; [|discriminate].
  destruct (add_neighbors lrl ind_arr) as [lrl'|] eqn:EA; [|discriminate].
  intros H Hl. inversion H; subst.
  eapply add_neighbors_length; [eapply K; exact EK | exact Hl | exact EA].
Qed.

Lemma votes_loop X (n : nat) : forall lrl s r s1 w,
  for_range n (local_region_iteration X) lrl s = (r, s1, w) ->
  s1 = set_random_state (random_state s1) s /\ w = [] /\ no_mismatch r /\
  (forall votes, r = Ok votes ->
     random_state s1 = Nat.iter n (advance s) (random_state s)).
Proof.
  induction n as [|n IH]; intros lrl s r s1 w H; simpl in H.
  - inversion H; subst.
    split; [symmetry; apply set_random_state_same|]. repeat split.
  - unfold bind in H.
    destruct (local_region_iteration X lrl s) as [[[lrl'|e] s'] w'] eqn:E;
      destruct (local_region_iteration_state _ _ _ _ _ _ E) as [A [B N]].
    + destruct (for_range n (local_region_iteration X) lrl' s')
        as [[r2 s2] w2] eqn:E2.
      inversion H; subst r s1 w.
      destruct (IH _ _ _ _ _ E2) as [C [D [N2 R]]]. subst w' w2.
      split; [rewrite C at 1; rewrite A; reflexivity|].
      split; [reflexivity|]. split; [exact N2|].
      intros votes Ev. rewrite (R _ Ev). rewrite A.
      cbn [random_state set_random_state]. rewrite Nat.iter_succ_r. reflexivity.
    + inversion H; subst r s1 w. split; [rewrite A; reflexivity|].
      split; [exact B|]. split; [exact N|]. intros votes Ev; discriminate.
Qed.

Lemma votes_loop_length X (n : nat) : knn_contract -> forall lrl s votes s1 w t,
  for_range n (local_region_iteration X) lrl s = (Ok votes, s1, w) ->
  Forall (fun v => length v = t) lrl ->
  length votes = length lrl /\
  Forall (fun v => length v = (t + n * Z.to_nat (local_region_size s))%nat) votes.
Proof.
  intro K. induction n as [|n IH]; intros lrl s votes s1 w t H Hl; simpl in H.
  - inversion H; subst. split; [reflexivity|].
    eapply Forall_impl; [|exact Hl]. simpl. intros; lia.
  - unfold bind in H.
    destruct (local_region_iteration X lrl s) as [[[lrl'|e] s'] w'] eqn:E;
      [|discriminate].
    destruct (for_range n (local_region_iteration X) lrl' s')
      as [[r2 s2] w2] eqn:E2.
    inversion H; subst.
    destruct (local_region_iteration_votes _ _ _ _ _ _ _ K E Hl) as [A B].
    destruct (local_region_iteration_state _ _ _ _ _ _ E) as [C _].
    destruct (IH _ _ _ _ _ _ E2 B) as [F G].
    split; [congruence|].
    rewrite C in G. cbn [local_region_size set_random_state] in G.
    eapply Forall_impl; [|exact G]. simpl. intros; lia.
Qed.

End LocalRegion.

(** ** What a scoring call does to the object *)

Section Effects.

Context {collab : Collaborators}.

Ltac unfold_monad :=
  unfold attr, index, raise in *;
  unfold bind, get, put, ret, lift, warn, of_option in *.

Lemma select_loop_state scores edges (bins : list nat) : forall acc s r s1 w,
  for_each
    (fun candidates max_bin =>
       bind (lift (select_in_bin scores edges max_bin))
         (fun selected => ret (candidates ++ selected)))
    bins acc s = (r, s1, w) ->
  s1 = s /\ w = [] /\ no_mismatch r.
Proof.
  induction bins as [|b bins IH]; intros acc s r s1 w H; simpl in H.
  - inversion H; subst. repeat split.
  - unfold bind at 1 in H. rewrite bind_lift in H.
    unfold select_in_bin in H.
    destruct (nth_error edges b) as [lo|];
      [destruct (nth_error edges (b + 1)) as [hi|]|].
    + unfold ret at 1 in H.
      match type of H with context [for_each ?f ?l ?a ?st] =>
        destruct (for_each f l a st) as [[r2 s2] w2] eqn:E2 end.
      inversion H; subst. destruct (IH _ _ _ _ _ E2) as [A [B C]].
      subst. repeat split. exact C.
    + inversion H; subst. repeat split.
    + inversion H; subst. repeat split.
Qed.

(** The selector leaves the clamped object and emits the clamp warning. *)
Lemma selector_state scores s r s1 w :
  _get_competent_detectors scores s = (r, s1, w) ->
  s1 = clamp s /\ w = clamp_warnings s /\
  no_mismatch r.
Proof.
  rewrite selector_unfold. unfold np_histogram.
  destruct (n_bins (clamp s) <? 1)%Z.
  { intro H; inversion H; subst. repeat split. }
  destruct (finite_values scores) as [xs|].
  2:{ intro H; inversion H; subst. repeat split. }
  destruct (outer_edges xs) as [first last].
  match goal with |- context [for_each ?f ?l ?a ?st] =>
    destruct (for_each f l a st) as [[r2 s2] w2] eqn:E2 end.
  intro H; inversion H; subst.
  destruct (select_loop_state _ _ _ _ _ _ _ _ E2) as [A [B C]]. subst.
  rewrite app_nil_r. repeat split. exact C.
Qed.

Lemma pearson_scores_exn lpgt lts ds e :
  pearson_scores lpgt lts ds = Raise e -> e = IndexError.
Proof.
  induction ds as [|d ds IH]; simpl; [discriminate|].
  destruct (column lts d); [|intro H; inversion H; reflexivity].
  destruct (pearson_scores lpgt lts ds); [discriminate|].
  intro H; inversion H; subst. apply IH. reflexivity.
Qed.

Lemma local_correlations_state tr region s r s1 w :
  local_correlations tr region s = (r, s1, w) ->
  s1 = s /\ w = [] /\ no_mismatch r.
Proof.
  unfold local_correlations. rewrite bind_get. unfold attr, index.
  rewrite bind_lift.
  destruct (training_pseudo_label_ s) as [pseudo|]; simpl.
  2:{ intro H; inversion H; subst. repeat split. }
  rewrite bind_lift. destruct (take pseudo region) as [lpgt|]; simpl.
  2:{ intro H; inversion H; subst. repeat split. }
  rewrite bind_lift. destruct (take tr region) as [lts|]; simpl.
  2:{ intro H; inversion H; subst. repeat split. }
  unfold lift. intro H; inversion H; subst. repeat split.
  destruct (pearson_scores lpgt lts (seq 0 (n_clf s1))) as [l|e] eqn:E;
    [exact I|]. apply pearson_scores_exn in E. subst. reflexivity.
Qed.

(** One instance: either it fails before the selector runs and nothing
    changes, or the selector has run. *)
Lemma score_instance_state tr te i region s r s1 w :
  score_instance tr te i region s = (r, s1, w) ->
  ((s1 = s /\ w = [] /\ exists e, r = Raise e) \/
   (s1 = clamp s /\ w = clamp_warnings s)) /\
  no_mismatch r.
Proof.
  unfold score_instance. unfold bind at 1.
  destruct (local_correlations tr region s) as [[[corr|e0] s0] w0] eqn:E0;
    destruct (local_correlations_state _ _ _ _ _ _ E0) as [A [B C]]; subst.
  2:{ intro H; inversion H; subst. split; [left; eauto | exact C]. }
  unfold bind at 1.
  destruct (_get_competent_detectors corr s) as [[[cands|e1] s1'] w1] eqn:E1;
    destruct (selector_state _ _ _ _ _ E1) as [A' [B' C']]; subst.
  2:{ intro H; inversion H; subst. split; [right; split; reflexivity | exact C']. }
  unfold index. rewrite bind_lift.
  destruct (nth_error te i) as [row|]; simpl.
  2:{ intro H; inversion H; subst. rewrite app_nil_r.
      split; [right; split; reflexivity | reflexivity]. }
  rewrite bind_lift. destruct (take row cands) as [selected|]; simpl.
  2:{ intro H; inversion H; subst. rewrite app_nil_r.
      split; [right; split; reflexivity | reflexivity]. }
  unfold ret. intro H; inversion H; subst. rewrite app_nil_r.
  split; [right; split; reflexivity | exact I].
Qed.

Lemma score_instances_state tr te (regions : list (list nat)) :
  forall i s r s1 w,
  score_instances tr te i regions s = (r, s1, w) ->
  ((s1 = s /\ w = [] /\ (regions = [] \/ exists e, r = Raise e)) \/
   (s1 = clamp s /\ w = clamp_warnings s)) /\
  (no_mismatch r) /\
  (forall scores, r = Ok scores -> length scores = length regions).
Proof.
  induction regions as [|region rest IH]; intros i s r s1 w H; simpl in H.
  - inversion H; subst. split; [left; auto|].
    split; [exact I|]. intros scores E; inversion E; reflexivity.
  - unfold bind at 1 in H.
    destruct (score_instance tr te i region s) as [[[x|e0] s0] w0] eqn:E0;
      destruct (score_instance_state _ _ _ _ _ _ _ _ E0) as [A C].
    2:{ inversion H; subst. split; [|split; [exact C | intros ? E; discriminate]].
        destruct A as [[? [? ?]]|[? ?]]; subst; [left; eauto | right; auto]. }
    destruct A as [[_ [_ [e E]]]|[A B]]; [discriminate|]. subst.
    unfold bind at 1 in H.
    destruct (score_instances tr te (S i) rest (clamp s)) as [[[xs|e1] s2] w2] eqn:E2;
      destruct (IH _ _ _ _ _ E2) as [A' [C' D']].
    + unfold ret in H. inversion H; subst.
      split; [|split; [exact I|]].
      * right. destruct A' as [[? [? _]]|[? ?]]; subst.
        -- rewrite !app_nil_r. auto.
        -- rewrite clamp_idem, clamp_warnings_clamp, !app_nil_r. auto.
      * intros scores E. inversion E; subst. simpl. f_equal. apply D'. reflexivity.
    + inversion H; subst.
      split; [|split; [exact C' | intros ? E; discriminate]].
      right. destruct A' as [[? [? _]]|[? ?]]; subst.
      * rewrite !app_nil_r. auto.
      * rewrite clamp_idem, clamp_warnings_clamp, !app_nil_r. auto.
Qed.

End Effects.

Section Regions.

Context {collab : Collaborators}.

Lemma add_neighbors_rows lrl : forall ind_arr lrl',
  add_neighbors lrl ind_arr = Ok lrl' -> length lrl' = length lrl.
Proof.
  induction lrl as [|r rest IH]; intros ind_arr lrl' H; simpl in H.
  - inversion H; reflexivity.
  - destruct ind_arr as [|nb ind_arr]; [discriminate|].
    destruct (add_neighbors rest ind_arr) as [t|] eqn:E; [|discriminate].
    inversion H; subst. simpl. f_equal. eapply IH; eauto.
Qed.

Lemma local_region_iteration_rows X lrl s votes s1 w :
  local_region_iteration X lrl s = (Ok votes, s1, w) ->
  length votes = length lrl.
Proof.
  unfold local_region_iteration, bind at 1. rewrite draw_features_unfold.
  destruct (X_train_norm_ s) as [X_train|] eqn:EX; [|discriminate].
  cbv zeta. destruct (generate_bagging_indices _ _ _ _) as [[features|e] g];
    cbn [fst snd]; [|discriminate].
  unfold attr, index. rewrite bind_get.
  cbn [X_train_norm_ set_random_state local_region_size].
  rewrite EX, bind_lift. cbn [of_option]. rewrite bind_lift.
  destruct (select_columns X_train features); cbn [of_option]; [|discriminate].
  rewrite bind_lift.
  destruct (select_columns X features); cbn [of_option]; [|discriminate].
  rewrite bind_lift.
  destruct (kdtree_query _ _ _) as [ind_arr|]; cbn [of_option]; [|discriminate].
  unfold lift. destruct (add_neighbors lrl ind_arr) as [lrl'|] eqn:EA;
    [|discriminate].
  intro H. inversion H; subst. eapply add_neighbors_rows; eauto.
Qed.

Lemma votes_loop_rows X (n : nat) : forall lrl s votes s1 w,
  for_range n (local_region_iteration X) lrl s = (Ok votes, s1, w) ->
  length votes = length lrl.
Proof.
  induction n as [|n IH]; intros lrl s votes s1 w H; simpl in H.
  - inversion H; reflexivity.
  - unfold bind in H.
    destruct (local_region_iteration X lrl s) as [[[lrl'|e] s'] w'] eqn:E;
      [|discriminate].
    destruct (for_range n (local_region_iteration X) lrl' s')
      as [[r2 s2] w2] eqn:E2.
    inversion H; subst.
    rewrite (IH _ _ _ _ _ E2).
    eapply local_region_iteration_rows; eauto.
Qed.

(** The voting loop changes nothing but the random state. *)
Lemma raw_votes_state X s r s1 w :
  raw_votes X s = (r, s1, w) ->
  s1 = set_random_state (random_state s1) s /\ w = [] /\ no_mismatch r /\
  (forall votes, r = Ok votes ->
     random_state s1 =
       Nat.iter (local_region_iterations s) (advance s) (random_state s) /\
     length votes = n_rows X).
Proof.
  unfold raw_votes. rewrite bind_get. intro H.
  destruct (votes_loop _ _ _ _ _ _ _ H) as [A [B [C D]]].
  split; [exact A|]. split; [exact B|]. split; [exact C|].
  intros votes E. subst r. split; [eapply D; reflexivity|].
  rewrite (votes_loop_rows _ _ _ _ _ _ _ H). unfold n_rows.
  apply repeat_length.
Qed.

Lemma get_local_region_unfold X s :
  _get_local_region X s =
  match raw_votes X s with
  | (Ok votes, s1, w) =>
      (Ok (map (frequent_items (local_region_threshold s)) votes), s1, w)
  | (Raise e, s1, w) => (Raise e, s1, w)
  end.
Proof.
  unfold _get_local_region, bind at 1.
  destruct (raw_votes X s) as [[[votes|e] s1] w] eqn:E; [|reflexivity].
  destruct (raw_votes_state _ _ _ _ _ E) as [A [B _]].
  rewrite bind_get. unfold ret. rewrite A. cbn [local_region_threshold set_random_state].
  rewrite app_nil_r. reflexivity.
Qed.

Lemma get_local_region_state X s r s1 w :
  _get_local_region X s = (r, s1, w) ->
  s1 = set_random_state (random_state s1) s /\ w = [] /\ no_mismatch r /\
  (forall regions, r = Ok regions ->
     random_state s1 =
       Nat.iter (local_region_iterations s) (advance s) (random_state s) /\
     length regions = n_rows X).
Proof.
  rewrite get_local_region_unfold.
  destruct (raw_votes X s) as [[[votes|e] s'] w'] eqn:E;
    destruct (raw_votes_state _ _ _ _ _ E) as [A [B [C D]]];
    intro H; inversion H; subst r s1 w.
  - split; [exact A|]. split; [exact B|]. split; [exact I|].
    intros regions Er. inversion Er; subst.
    destruct (D _ eq_refl) as [D1 D2]. split; [exact D1|].
    rewrite length_map. exact D2.
  - split; [exact A|]. split; [exact B|]. split; [exact C|].
    intros regions Er; discriminate.
Qed.

(** C3: the local region of every query point is exactly the set of
    training indices that occur in more than 10 of its raw neighbour votes
    over the 20 iterations; it holds no index twice, is contained in the
    raw votes, and has at most [20 * local_region_size] indices. *)
Theorem local_region_majority_vote (X : matrix) (s s1 : LSCP)
  (votes : list (list nat)) (w : list warning) :
  knn_contract ->
  constructed s ->
  raw_votes X s = (Ok votes, s1, w) ->
  exists regions,
    _get_local_region X s = (Ok regions, s1, w) /\
    length regions = n_rows X /\
    forall j v, nth_error votes j = Some v ->
      exists r,
        nth_error regions j = Some r /\
        (forall i, In i r <-> (10 < count_occ Nat.eq_dec v i)%nat) /\
        NoDup r /\ incl r v /\
        length v = (20 * Z.to_nat (local_region_size s))%nat /\
        (length r <= 20 * Z.to_nat (local_region_size s))%nat.
Proof.
  intros K [_ [_ [_ [_ [_ [_ [Hit [Hth _]]]]]]]] Hv.
  exists (map (frequent_items (local_region_threshold s)) votes).
  split; [rewrite get_local_region_unfold, Hv; reflexivity|].
  destruct (raw_votes_state _ _ _ _ _ Hv) as [_ [_ [_ D]]].
  destruct (D _ eq_refl) as [_ Hlen].
  split; [rewrite length_map; exact Hlen|].
  intros j v Hj. exists (frequent_items (local_region_threshold s) v).
  split; [apply map_nth_error; exact Hj|].
  rewrite Hth.
  destruct (frequent_items_spec 10 v) as [A [B [C D']]]; [lia|].
  assert (L : length v = (20 * Z.to_nat (local_region_size s))%nat).
  { unfold raw_votes in Hv. rewrite bind_get in Hv. rewrite Hit in Hv.
    destruct (votes_loop_length X 20 K _ _ _ _ _ 0%nat Hv) as [_ F].
    { apply Forall_forall. intros x Hx. apply repeat_spec in Hx. subst. reflexivity. }
    rewrite Forall_forall in F. apply F. eapply nth_error_In; eauto. }
  split.
  { intro i. rewrite A. lia. }
  split; [exact B|]. split; [exact C|]. split; [exact L|]. lia.
Qed.

End Regions.

Section Orchestrator.

Context {collab : Collaborators}.

(** The stage before the per-instance loop, with its state and warnings
    written out. *)
Lemma prepare_scores_unfold X s :
  prepare_scores X s =
  match _get_local_region X s with
  | (Raise e, s1, _) => (Raise e, s1, region_size_warnings s)
  | (Ok regions, s1, _) =>
      match score_columns X 0 (n_clf s) (estimator_list s) with
      | Raise e => (Raise e, s1, region_size_warnings s)
      | Ok cols =>
          match train_scores_ s with
          | None => (Raise AttributeError, s1, region_size_warnings s)
          | Some train_scores =>
              let z := standardizer train_scores
                         (fill_columns (n_rows X) (n_clf s) cols) in
              match np_max_axis1 (fst z) with
              | None =>
                  (Raise (ValueError ZeroSizeReduction), s1,
                   region_size_warnings s)
              | Some pseudo =>
                  (Ok (fst z, snd z, regions),
                   set_training_pseudo_label_ pseudo s1,
                   region_size_warnings s)
              end
          end
      end
  end.
Proof.
  unfold prepare_scores. rewrite bind_get. unfold region_size_warnings.
  set (c := ((local_region_size s <? local_region_min s)
             || (local_region_max s <? local_region_size s))%Z%bool).
  set (W := RegionSizeOutsideRange (local_region_size s)
              (local_region_min s) (local_region_max s)).
  assert (E : forall (m : M (matrix * matrix * list (list nat))),
    bind (if c then warn W else ret tt) (fun _ => m) s =
    match m s with
    | (r, s1, w) => (r, s1, (if c then [W] else []) ++ w)
    end).
  { intros m. unfold bind, warn, ret.
    destruct c; destruct (m s) as [[r s1] w]; reflexivity. }
  rewrite E. clear E. unfold bind at 1.
  destruct (_get_local_region X s) as [[[regions|e] s1] w1] eqn:ER;
    destruct (get_local_region_state _ _ _ _ _ ER) as [A [B _]]; subst w1.
  2:{ rewrite app_nil_r. reflexivity. }
  assert (F1 : n_clf s1 = n_clf s) by (rewrite A; reflexivity).
  assert (F2 : estimator_list s1 = estimator_list s) by (rewrite A; reflexivity).
  assert (F3 : train_scores_ s1 = train_scores_ s) by (rewrite A; reflexivity).
  rewrite bind_get.
  rewrite F1, F2, F3. rewrite bind_lift.
  destruct (score_columns X 0 (n_clf s) (estimator_list s)) as [cols|e];
    [|rewrite app_nil_r; reflexivity].
  unfold attr. rewrite bind_lift.
  destruct (train_scores_ s) as [train_scores|]; cbn [of_option];
    [|rewrite app_nil_r; reflexivity].
  rewrite bind_lift. cbv zeta.
  destruct (np_max_axis1 _) as [pseudo|]; cbn [of_option];
    [|rewrite app_nil_r; reflexivity].
  unfold bind, put, ret. cbn [app]. rewrite app_nil_r. reflexivity.
Qed.

Lemma score_columns_exn X ests : forall k m,
  no_mismatch (score_columns X k m ests).
Proof.
  induction ests as [|e ests IH]; intros k m; simpl; [exact I|].
  unfold estimator_decision_function.
  destruct (trained_on e); [|reflexivity].
  destruct (k <? m)%nat; [|reflexivity].
  specialize (IH (S k) m). destruct (score_columns X (S k) m ests); auto.
Qed.

Lemma prepare_scores_state X s r s1 w :
  prepare_scores X s = (r, s1, w) ->
  w = region_size_warnings s /\ no_mismatch r /\
  match r with
  | Raise _ => s1 = set_random_state (random_state s1) s
  | Ok (tr, te, regions) =>
      exists pseudo train_scores cols,
        s1 = set_training_pseudo_label_ pseudo
               (set_random_state (random_state s1) s) /\
        random_state s1 =
          Nat.iter (local_region_iterations s) (advance s) (random_state s) /\
        length regions = n_rows X /\
        train_scores_ s = Some train_scores /\
        score_columns X 0 (n_clf s) (estimator_list s) = Ok cols /\
        tr = fst (standardizer train_scores
                    (fill_columns (n_rows X) (n_clf s) cols)) /\
        te = snd (standardizer train_scores
                    (fill_columns (n_rows X) (n_clf s) cols)) /\
        np_max_axis1 tr = Some pseudo
  end.
Proof.
  rewrite prepare_scores_unfold.
  destruct (_get_local_region X s) as [[[regions|e] s'] w'] eqn:ER;
    destruct (get_local_region_state _ _ _ _ _ ER) as [A [B [C D]]].
  2:{ intro H; inversion H; subst. repeat split; assumption. }
  assert (SC := score_columns_exn X (estimator_list s) 0 (n_clf s)).
  destruct (score_columns X 0 (n_clf s) (estimator_list s)) as [cols|e].
  2:{ intro H; inversion H; subst. repeat split; assumption. }
  destruct (train_scores_ s) as [train_scores|].
  2:{ intro H; inversion H; subst. repeat split; assumption. }
  cbv zeta. destruct (np_max_axis1 _) as [pseudo|] eqn:EP.
  2:{ intro H; inversion H; subst. repeat split; assumption. }
  intro H; inversion H; subst r s1 w. split; [reflexivity|]. split; [exact I|].
  destruct (D _ eq_refl) as [D1 D2].
  exists pseudo, train_scores, cols.
  cbn [random_state set_training_pseudo_label_].
  split; [rewrite A at 1; reflexivity|].
  repeat split; assumption.
Qed.

(** Where a scoring call can leave the object. *)
Lemma decision_scores_state X s r s1 w :
  _get_decision_scores X s = (r, s1, w) ->
  no_mismatch r /\
  ((s1 = set_random_state (random_state s1) s /\
    w = region_size_warnings s /\ exists e, r = Raise e) \/
   (exists pseudo,
      s1 = set_training_pseudo_label_ pseudo
             (set_random_state (random_state s1) s) /\
      w = region_size_warnings s /\ (X = [] \/ exists e, r = Raise e)) \/
   (exists pseudo,
      s1 = clamp (set_training_pseudo_label_ pseudo
                    (set_random_state (random_state s1) s)) /\
      w = region_size_warnings s ++ clamp_warnings s)) /\
  (forall scores, r = Ok scores ->
     length scores = n_rows X /\
     random_state s1 =
       Nat.iter (local_region_iterations s) (advance s) (random_state s) /\
     exists train_scores cols,
       train_scores_ s = Some train_scores /\
       score_columns X 0 (n_clf s) (estimator_list s) = Ok cols /\
       training_pseudo_label_ s1 =
         np_max_axis1
           (fst (standardizer train_scores
                   (fill_columns (n_rows X) (n_clf s) cols)))).
Proof.
  unfold _get_decision_scores, bind at 1.
  destruct (prepare_scores X s) as [[[[[tr te] regions]|e] sp] wp] eqn:EP;
    destruct (prepare_scores_state _ _ _ _ _ EP) as [A [B C]].
  2:{ intro H; inversion H; subst. split; [exact B|].
      split; [left; eauto | intros ? E; discriminate]. }
  destruct C as [pseudo [train_scores [cols [C1 [C2 [C3 [C4 [C5 [C6 [C7 C8]]]]]]]]]].
  cbn [fst snd].
  destruct (score_instances tr te 0 regions sp) as [[r2 s2] w2] eqn:ES.
  destruct (score_instances_state _ _ _ _ _ _ _ _ ES) as [P [Q R]].
  intro H; inversion H; subst r s1 w. split; [exact Q|].
  assert (G : forall t, random_state (clamp t) = random_state t).
  { intro t. unfold clamp. destruct (_ <? _)%Z; reflexivity. }
  assert (Tp : forall t, training_pseudo_label_ (clamp t) = training_pseudo_label_ t).
  { intro t. unfold clamp. destruct (_ <? _)%Z; reflexivity. }
  assert (Cw : clamp_warnings sp = clamp_warnings s).
  { rewrite C1. reflexivity. }
  subst wp. split.
  - destruct P as [[P1 [P2 P3]]|[P1 P2]]; subst s2 w2.
    + right. left. exists pseudo. split; [exact C1|].
      split; [apply app_nil_r|].
      destruct P3 as [P3|P3]; [left | right; exact P3].
      subst regions. simpl in C3. unfold n_rows in C3.
      destruct X; [reflexivity | discriminate].
    + right. right. exists pseudo. rewrite G. split; [rewrite C1 at 1; reflexivity|].
      rewrite Cw. reflexivity.
  - intros scores E. subst r2.
    assert (RS : random_state s2 = random_state sp /\
                 training_pseudo_label_ s2 = training_pseudo_label_ sp).
    { destruct P as [[P1 _]|[P1 _]]; subst s2; [split; reflexivity|].
      split; [apply G | apply Tp]. }
    destruct RS as [RS1 RS2].
    split; [rewrite (R _ eq_refl); exact C3|].
    split; [rewrite RS1; exact C2|].
    exists train_scores, cols. split; [exact C4|]. split; [exact C5|].
    rewrite RS2, C1. cbn [training_pseudo_label_ set_training_pseudo_label_].
    rewrite <- C6. symmetry. exact C8.
Qed.

End Orchestrator.

Section DecisionFunction.

Context {collab : Collaborators}.

Lemma check_array_ok X X' : check_array X = Ok X' -> X' = X /\ X <> [].
Proof.
  unfold check_array. destruct X as [|r X0]; [discriminate|].
  destruct (_ && _)%bool; [|discriminate].
  intro H; inversion H. split; [reflexivity | discriminate].
Qed.

(** [decision_function], with its checks written out. *)
Lemma decision_function_unfold X s :
  decision_function X s =
  match training_pseudo_label_ s, train_scores_ s,
        X_train_norm_ s, n_features_ s with
  | Some _, Some _, Some _, Some d =>
      match check_array X with
      | Raise e => (Raise e, s, [])
      | Ok X' =>
          if (d =? n_cols X')%nat then _get_decision_scores X' s
          else (Raise (ValueError (FeatureMismatch d (n_cols X'))), s, [])
      end
  | _, _, _, _ => (Raise NotFittedError, s, [])
  end.
Proof.
  unfold decision_function, check_is_fitted.
  unfold bind at 1. rewrite bind_get.
  destruct (training_pseudo_label_ s); [|reflexivity].
  destruct (train_scores_ s); [|reflexivity].
  destruct (X_train_norm_ s); [|reflexivity].
  destruct (n_features_ s) as [d|] eqn:Ed; [|reflexivity].
  unfold ret at 1. rewrite bind_lift.
  destruct (check_array X) as [X'|e]; [|reflexivity].
  rewrite bind_get. unfold attr. rewrite Ed, bind_lift. cbn [of_option].
  destruct (d =? n_cols X')%nat; cbn [negb]; [|reflexivity].
  unfold bind, ret.
  destruct (_get_decision_scores X' s) as [[[scores|e] s1] w]; cbn [app];
    rewrite ?app_nil_r; reflexivity.
Qed.

Lemma check_array_exn X : no_mismatch (check_array X).
Proof.
  unfold check_array. destruct X as [|r X0]; [reflexivity|].
  destruct (_ && _)%bool; [exact I | reflexivity].
Qed.

(** C7: on a fitted model a valid query matrix whose feature count
    differs from that of the training matrix makes [decision_function]
    raise the feature-mismatch error, with no score returned and the
    object untouched; with equal feature counts the call is the scoring
    call and never raises that error. *)
Theorem feature_count_checked (s : LSCP) (X X_train : matrix) :
  fitted s ->
  X_train_norm_ s = Some X_train ->
  n_features_ s = Some (n_cols X_train) ->
  check_array X = Ok X ->
  (n_cols X <> n_cols X_train ->
   decision_function X s =
     (Raise (ValueError (FeatureMismatch (n_cols X_train) (n_cols X))), s, [])) /\
  (n_cols X = n_cols X_train ->
   decision_function X s = _get_decision_scores X s /\
   no_mismatch (fst (fst (decision_function X s)))).
Proof.
  intros [F1 [F2 [F3 F4]]] HX Hn Hc.
  rewrite decision_function_unfold, Hn, HX.
  destruct (training_pseudo_label_ s); [|congruence].
  destruct (train_scores_ s); [|congruence].
  rewrite Hc. split; intro H.
  - destruct (Nat.eqb_spec (n_cols X_train) (n_cols X)); [congruence | reflexivity].
  - destruct (Nat.eqb_spec (n_cols X_train) (n_cols X)); [|congruence].
    split; [reflexivity|].
    destruct (_get_decision_scores X s) as [[r s1] w] eqn:E.
    apply (decision_scores_state _ _ _ _ _ E).
Qed.

Lemma n_bins_clamp_set (s : LSCP) pseudo g :
  n_bins (clamp (set_training_pseudo_label_ pseudo (set_random_state g s))) =
  n_bins (clamp s) /\
  n_clf (clamp (set_training_pseudo_label_ pseudo (set_random_state g s))) =
  n_clf s.
Proof.
  unfold clamp. cbn [n_clf n_bins set_training_pseudo_label_ set_random_state].
  destruct (Z.of_nat (n_clf s) <? n_bins s)%Z; split; reflexivity.
Qed.

Lemma region_size_warnings_quiet (s : LSCP) :
  filter is_bins_reduced (region_size_warnings s) = [].
Proof.
  unfold region_size_warnings. destruct (_ || _)%bool; reflexivity.
Qed.

(** How a scoring call treats the stored bin count. *)
Lemma decision_scores_bins X s r s1 w :
  _get_decision_scores X s = (r, s1, w) ->
  n_clf s1 = n_clf s /\
  ((n_bins s1 = n_bins s /\ filter is_bins_reduced w = [] /\
    (X = [] \/ exists e, r = Raise e)) \/
   (n_bins s1 = n_bins (clamp s) /\
    filter is_bins_reduced w = clamp_warnings s)).
Proof.
  intro H. destruct (decision_scores_state _ _ _ _ _ H) as [_ [P _]].
  destruct P as [[A [B C]]|[[pseudo [A [B C]]]|[pseudo [A B]]]].
  - rewrite A. cbn [n_clf n_bins set_random_state]. split; [reflexivity|].
    left. rewrite B, region_size_warnings_quiet. auto.
  - rewrite A. cbn [n_clf n_bins set_random_state set_training_pseudo_label_].
    split; [reflexivity|].
    left. rewrite B, region_size_warnings_quiet.
    split; [reflexivity|]. split; [reflexivity | exact C].
  - rewrite A. destruct (n_bins_clamp_set s pseudo (random_state s1)) as [N1 N2].
    split; [exact N2|]. right. split; [exact N1|].
    rewrite B, filter_app, region_size_warnings_quiet. simpl.
    unfold clamp_warnings. destruct (_ <? _)%Z; reflexivity.
Qed.

(** C9: when the configured bin count exceeds the number of detectors, a
    scoring call on at least one instance that returns leaves the
    detector count in [n_bins] and warns once; every later scoring call
    and every later [decision_function] finds the clamped value, leaves it
    in place and does not warn again. *)
Theorem n_bins_clamped_for_good (s s1 : LSCP) (X : matrix)
  (scores : list f64) (w : list warning) :
  (Z.of_nat (n_clf s) < n_bins s)%Z ->
  X <> [] ->
  _get_decision_scores X s = (Ok scores, s1, w) ->
  n_bins s1 = Z.of_nat (n_clf s) /\
  n_clf s1 = n_clf s /\
  filter is_bins_reduced w = [BinsReduced] /\
  (forall X' r s2 w2,
     _get_decision_scores X' s1 = (r, s2, w2) ->
     n_bins s2 = Z.of_nat (n_clf s) /\ n_clf s2 = n_clf s /\
     filter is_bins_reduced w2 = []) /\
  (forall X' r s2 w2,
     decision_function X' s1 = (r, s2, w2) ->
     n_bins s2 = Z.of_nat (n_clf s) /\ n_clf s2 = n_clf s /\
     filter is_bins_reduced w2 = []).
Proof.
  intros Hgt HX H.
  assert (Cb : forall t, (Z.of_nat (n_clf t) < n_bins t)%Z ->
             n_bins (clamp t) = Z.of_nat (n_clf t) /\
             clamp_warnings t = [BinsReduced]).
  { intros t L. unfold clamp, clamp_warnings.
    destruct (Z.ltb_spec (Z.of_nat (n_clf t)) (n_bins t)); [|lia].
    split; reflexivity. }
  assert (Cn : forall t, (n_bins t <= Z.of_nat (n_clf t))%Z ->
             n_bins (clamp t) = n_bins t /\ clamp_warnings t = []).
  { intros t L. unfold clamp, clamp_warnings.
    destruct (Z.ltb_spec (Z.of_nat (n_clf t)) (n_bins t)); [lia|].
    split; reflexivity. }
  destruct (decision_scores_bins _ _ _ _ _ H) as [N [[_ [_ [E|[e E]]]]|[B W]]];
    [contradiction | discriminate |].
  destruct (Cb s Hgt) as [B1 W1]. rewrite B1 in B. rewrite W1 in W.
  assert (Later : forall X' r s2 w2,
     _get_decision_scores X' s1 = (r, s2, w2) ->
     n_bins s2 = Z.of_nat (n_clf s) /\ n_clf s2 = n_clf s /\
     filter is_bins_reduced w2 = []).
  { intros X' r s2 w2 H2.
    destruct (Cn s1) as [B2 W2]; [lia|].
    destruct (decision_scores_bins _ _ _ _ _ H2) as [N' [[B' [W' _]]|[B' W']]].
    - split; [congruence|]. split; [congruence | exact W'].
    - split; [congruence|]. split; [congruence|]. rewrite W'. exact W2. }
  split; [exact B|]. split; [exact N|]. split; [exact W|].
  split; [exact Later|].
  intros X' r s2 w2 H2. rewrite decision_function_unfold in H2.
  assert (Same : (r, s2, w2) = (r, s1, []) ->
     n_bins s2 = Z.of_nat (n_clf s) /\ n_clf s2 = n_clf s /\
     filter is_bins_reduced w2 = []).
  { intro E. inversion E; subst. auto. }
  destruct (training_pseudo_label_ s1); [|apply Same; congruence].
  destruct (train_scores_ s1); [|apply Same; congruence].
  destruct (X_train_norm_ s1); [|apply Same; congruence].
  destruct (n_features_ s1) as [d|]; [|apply Same; congruence].
  destruct (check_array X') as [X''|e]; [|apply Same; congruence].
  destruct (d =? n_cols X'')%nat; [|apply Same; congruence].
  eapply Later; eauto.
Qed.

(** The attributes a scoring call never writes. *)
Lemma decision_scores_frame X s r s1 w :
  _get_decision_scores X s = (r, s1, w) ->
  X_train_norm_ s1 = X_train_norm_ s /\ train_scores_ s1 = train_scores_ s /\
  n_features_ s1 = n_features_ s /\ estimator_list s1 = estimator_list s /\
  decision_scores_ s1 = decision_scores_ s /\ constructed s1 = constructed s.
Proof.
  intro H. destruct (decision_scores_state _ _ _ _ _ H) as [_ [P _]].
  assert (C : forall t, X_train_norm_ (clamp t) = X_train_norm_ t /\
    train_scores_ (clamp t) = train_scores_ t /\
    n_features_ (clamp t) = n_features_ t /\
    estimator_list (clamp t) = estimator_list t /\
    decision_scores_ (clamp t) = decision_scores_ t /\
    constructed (clamp t) = constructed t).
  { intro t. unfold clamp. destruct (_ <? _)%Z; repeat split; reflexivity. }
  destruct P as [[A _]|[[pseudo [A _]]|[pseudo [A _]]]]; rewrite A.
  - repeat split; reflexivity.
  - repeat split; reflexivity.
  - destruct (C (set_training_pseudo_label_ pseudo
                   (set_random_state (random_state s1) s)))
      as [C1 [C2 [C3 [C4 [C5 C6]]]]].
    rewrite C1, C2, C3, C4, C5, C6. repeat split; reflexivity.
Qed.

End DecisionFunction.

Section Invariants.

Context {collab : Collaborators}.

Lemma init_constructed ests size lmf bins g c s w :
  __init__ ests size lmf bins g c = (Ok s, w) -> constructed s.
Proof.
  unfold __init__.
  destruct (Nat.ltb_spec 1 (length ests)) as [L|L]; [|discriminate].
  destruct (Qleb lmf 1) eqn:E; intro H; inversion H; subst; clear H;
    unfold constructed; cbn.
  - apply Qleb_true in E. repeat split; try reflexivity; try lia. exact E.
  - repeat split; try reflexivity; try lia. apply Qle_refl.
Qed.

Lemma fit_columns_length X ests : forall k m,
  length (snd (fit_columns X k m ests)) = length ests.
Proof.
  induction ests as [|e ests IH]; intros k m; simpl; [reflexivity|].
  unfold estimator_decision_scores_. cbn [trained_on estimator_fit].
  destruct (k <? m)%nat; [|reflexivity].
  specialize (IH (S k) m).
  destruct (fit_columns X (S k) m ests) as [[cols|e'] l]; simpl in *; congruence.
Qed.

(** [fit], with its state written out. *)
Lemma fit_unfold X s :
  fit X s =
  match check_array X with
  | Raise e => (Raise e, s, [])
  | Ok X' =>
      let fitted := fit_columns X' 0 (n_clf s) (estimator_list s) in
      let s1 := set_estimator_list (snd fitted)
                  (set_X_train_norm_ X' (set_n_features_ (n_cols X') s)) in
      match fst fitted with
      | Raise e => (Raise e, s1, [])
      | Ok cols =>
          let s2 := set_train_scores_
                      (fill_columns (n_rows X') (n_clf s) cols) s1 in
          match _get_decision_scores X' s2 with
          | (Ok scores, s3, w) => (Ok tt, set_decision_scores_ scores s3, w)
          | (Raise e, s3, w) => (Raise e, s3, w)
          end
      end
  end.
Proof.
  unfold fit, check_random_state. rewrite bind_get.
  rewrite set_random_state_same.
  unfold bind at 1. unfold put at 1. rewrite bind_lift.
  destruct (check_array X) as [X'|e]; [|reflexivity].
  rewrite bind_get. unfold bind at 1. unfold put at 1.
  rewrite bind_get. unfold bind at 1. unfold put at 1.
  rewrite bind_get. cbv zeta.
  cbn [n_clf estimator_list set_X_train_norm_ set_n_features_].
  unfold bind at 1. unfold put at 1. rewrite bind_get.
  cbn [n_clf set_estimator_list]. rewrite bind_lift.
  destruct (fit_columns X' 0 (n_clf s) (estimator_list s)) as [[cols|e] l];
    cbn [fst snd]; [|reflexivity].
  set (t := set_train_scores_ (fill_columns (n_rows X') (n_clf s) cols)
              (set_estimator_list l
                 (set_X_train_norm_ X' (set_n_features_ (n_cols X') s)))).
  destruct (_get_decision_scores X' t) as [[r3 s3] w] eqn:ED.
  unfold bind at 1. unfold put at 1. unfold bind at 1.
  match goal with |- context [_get_decision_scores X' ?u] =>
    change (_get_decision_scores X' u) with (_get_decision_scores X' t) end.
  rewrite ED. destruct r3 as [scores|e]; [|reflexivity].
  rewrite bind_get. unfold put. cbn [app]. rewrite app_nil_r. reflexivity.
Qed.

(** A successful [fit] yields a fitted object for the training matrix and
    keeps what the constructor established. *)
Lemma fit_establishes X s s1 w :
  constructed s ->
  fit X s = (Ok tt, s1, w) ->
  fitted s1 /\ constructed s1 /\
  X_train_norm_ s1 = Some X /\ n_features_ s1 = Some (n_cols X).
Proof.
  intros C. rewrite fit_unfold.
  destruct (check_array X) as [X'|e] eqn:EX; [|discriminate].
  destruct (check_array_ok _ _ EX) as [-> _]. cbv zeta.
  assert (L := fit_columns_length X (estimator_list s) 0 (n_clf s)).
  destruct (fit_columns X 0 (n_clf s) (estimator_list s)) as [[cols|e] l];
    cbn [fst snd] in *; [|discriminate].
  match goal with |- context [_get_decision_scores X ?t] =>
    destruct (_get_decision_scores X t) as [[[scores|e] s3] w3] eqn:ED end;
    [|discriminate].
  intro H; inversion H; subst s1 w; clear H.
  destruct (decision_scores_frame _ _ _ _ _ ED) as [F1 [F2 [F3 [F4 [F5 F6]]]]].
  destruct (decision_scores_state _ _ _ _ _ ED) as [_ [_ R]].
  destruct (R _ eq_refl) as [_ [_ [ts [cs [_ [_ Tp]]]]]].
  cbn in F1, F2, F3, F4.
  assert (P : training_pseudo_label_ s3 <> None).
  { destruct (decision_scores_state _ _ _ _ _ ED) as [_ [Q _]].
    destruct Q as [[_ [_ [e E]]]|[[p [A _]]|[p [A _]]]]; [discriminate| |];
      rewrite A; [discriminate|].
    unfold clamp. destruct (_ <? _)%Z; discriminate. }
  split.
  { unfold fitted. cbn. rewrite F1, F2, F3. repeat split; try discriminate.
    exact P. }
  split.
  { change (constructed (set_decision_scores_ scores s3)) with (constructed s3).
    rewrite F6. destruct C as [C1 [C2 [C3 [C4 [C5 [C6 [C7 [C8 C9]]]]]]]].
    unfold constructed. cbn. repeat split; try assumption. congruence. }
  cbn. rewrite F1, F3. split; reflexivity.
Qed.

(** [decision_function] keeps an object fitted and constructed. *)
Lemma decision_function_keeps X s r s1 w :
  decision_function X s = (r, s1, w) ->
  (constructed s -> constructed s1) /\ (fitted s -> fitted s1) /\
  X_train_norm_ s1 = X_train_norm_ s /\ train_scores_ s1 = train_scores_ s /\
  n_features_ s1 = n_features_ s.
Proof.
  rewrite decision_function_unfold.
  assert (Same : (r, s1, w) = (r, s, []) ->
    (constructed s -> constructed s1) /\ (fitted s -> fitted s1) /\
    X_train_norm_ s1 = X_train_norm_ s /\ train_scores_ s1 = train_scores_ s /\
    n_features_ s1 = n_features_ s).
  { intro E; inversion E; subst.
    split; [auto|]. split; [auto|]. repeat split; reflexivity. }
  destruct (training_pseudo_label_ s) eqn:Tp; [|intro; apply Same; congruence].
  destruct (train_scores_ s) eqn:Ts; [|intro; apply Same; congruence].
  destruct (X_train_norm_ s) eqn:Tx; [|intro; apply Same; congruence].
  destruct (n_features_ s) as [d|] eqn:Tn; [|intro; apply Same; congruence].
  destruct (check_array X) as [X'|e]; [|intro; apply Same; congruence].
  destruct (d =? n_cols X')%nat; [|intro; apply Same; congruence].
  intro H.
  destruct (decision_scores_frame _ _ _ _ _ H) as [F1 [F2 [F3 [F4 [F5 F6]]]]].
  split; [rewrite F6; auto|]. split; [|repeat split; congruence].
  intros _. unfold fitted. rewrite F1, F2, F3, Ts, Tx, Tn.
  repeat split; try discriminate.
  destruct (decision_scores_state _ _ _ _ _ H) as [_ [Q _]].
  destruct Q as [[A _]|[[p [A _]]|[p [A _]]]]; rewrite A; cbn.
  - rewrite Tp. discriminate.
  - discriminate.
  - unfold clamp. destruct (_ <? _)%Z; discriminate.
Qed.

End Invariants.

(** ** The feature subspace *)

Lemma py_int_floor (q : Q) : 0 <= q -> py_int q = Qfloor q.
Proof.
  destruct q as [n d]. unfold Qle, py_int, Qfloor. simpl. intro H.
  apply Z.quot_div_nonneg; lia.
Qed.

Lemma py_int_mono (p q : Q) : 0 <= p -> p <= q -> (py_int p <= py_int q)%Z.
Proof.
  intros Hp Hpq. rewrite !py_int_floor by lra. apply Qfloor_resp_le. exact Hpq.
Qed.

Lemma py_int_nonneg (q : Q) : 0 <= q -> (0 <= py_int q)%Z.
Proof.
  intro H. rewrite py_int_floor by exact H.
  rewrite <- (Qfloor_Z 0). apply Qfloor_resp_le. exact H.
Qed.

Lemma Qscale_le (z x y : Q) : 0 <= z -> x <= y -> z * x <= z * y.
Proof.
  intros Hz Hxy. rewrite (Qmult_comm z x), (Qmult_comm z y).
  apply Qmult_le_compat_r; assumption.
Qed.

Lemma py_int_scaled (d : nat) (f : Q) :
  0 <= f -> f <= 1 -> (py_int (inject_Z (Z.of_nat d) * f) <= Z.of_nat d)%Z.
Proof.
  intros H0 H1.
  assert (D : 0 <= inject_Z (Z.of_nat d)).
  { change 0 with (inject_Z 0). rewrite <- Zle_Qle. lia. }
  assert (P : 0 <= inject_Z (Z.of_nat d) * f) by (apply Qmult_le_0_compat; assumption).
  rewrite py_int_floor by exact P.
  rewrite <- (Qfloor_Z (Z.of_nat d)) at 2. apply Qfloor_resp_le.
  rewrite <- (Qmult_1_r (inject_Z (Z.of_nat d))) at 2.
  apply Qscale_le; assumption.
Qed.

Lemma split_at {A} (l : list A) (j : nat) (d : A) :
  (j < length l)%nat -> l = firstn j l ++ nth j l d :: skipn (S j) l.
Proof.
  revert j. induction l as [|a l IH]; intros j H; simpl in H; [lia|].
  destruct j as [|j]; simpl; [reflexivity|].
  f_equal. apply IH. lia.
Qed.

Section Sampler.

Context {collab : Collaborators}.

Lemma randint_range g low high :
  (low <= high)%nat ->
  (low <= fst (randint g low high) <= high)%nat.
Proof.
  intro H. unfold randint. destruct (next_uint g) as [u g']. simpl.
  assert (u mod (high - low + 1) < high - low + 1)%nat
    by (apply Nat.mod_upper_bound; lia).
  lia.
Qed.

Lemma draw_distinct_step g pool k :
  pool <> [] ->
  draw_distinct g pool (S k) =
  let (u, g1) := next_uint g in
  let j := (u mod length pool)%nat in
  let (rest, g2) :=
    draw_distinct g1 (firstn j pool ++ skipn (S j) pool) k in
  (nth j pool O :: rest, g2).
Proof. destruct pool; [congruence | reflexivity]. Qed.

(** Drawing without replacement: as many indices as asked, all from the
    pool, none twice. *)
Lemma draw_distinct_spec (k : nat) : forall g pool,
  NoDup pool -> (k <= length pool)%nat ->
  length (fst (draw_distinct g pool k)) = k /\
  NoDup (fst (draw_distinct g pool k)) /\
  incl (fst (draw_distinct g pool k)) pool.
Proof.
  induction k as [|k IH]; intros g pool Hn Hk.
  - simpl. split; [reflexivity|]. split; [constructor | intros x []].
  - rewrite draw_distinct_step by (intro E; subst; simpl in Hk; lia).
    destruct (next_uint g) as [u g1]. cbv zeta.
    set (j := (u mod length pool)%nat).
    assert (Hj : (j < length pool)%nat)
      by (apply Nat.mod_upper_bound; lia).
    assert (E := split_at pool j 0%nat Hj).
    set (x := nth j pool 0%nat) in *.
    set (rest := firstn j pool ++ skipn (S j) pool) in *.
    assert (Hr : NoDup rest /\ ~ In x rest).
    { rewrite E in Hn. split.
      - eapply NoDup_remove_1; exact Hn.
      - eapply NoDup_remove_2; exact Hn. }
    assert (Lr : length pool = S (length rest)).
    { rewrite E at 1. unfold rest. rewrite !length_app. simpl. lia. }
    destruct (IH g1 rest (proj1 Hr)) as [A [B C]]; [lia|].
    destruct (draw_distinct g1 rest k) as [picked g2]. simpl in *.
    assert (Ir : incl rest pool).
    { intros y Hy. rewrite E. unfold rest in Hy. apply in_app_or in Hy.
      apply in_or_app. destruct Hy; [left | right; right]; assumption. }
    split; [congruence|]. split.
    + constructor; [|exact B]. intro I. apply (proj2 Hr). apply C. exact I.
    + intros y [Hy|Hy].
      * subst y. unfold x. apply nth_In. exact Hj.
      * apply Ir, C, Hy.
Qed.

(** The sampler keeps its contract whenever the counts are admissible. *)
Lemma generate_bagging_indices_spec g n_features min_features max_features :
  (0 <= min_features)%Z -> (min_features <= max_features)%Z ->
  (max_features <= Z.of_nat n_features)%Z ->
  exists features,
    fst (generate_bagging_indices g n_features min_features max_features)
      = Ok features /\
    (min_features <= Z.of_nat (length features) <= max_features)%Z /\
    NoDup features /\
    Forall (fun f => (f < n_features)%nat) features.
Proof.
  intros H0 H1 H2. unfold generate_bagging_indices.
  destruct (Z.leb_spec 0 min_features); [|lia].
  destruct (Z.leb_spec min_features max_features); [|lia].
  destruct (Z.leb_spec max_features (Z.of_nat n_features)); [|lia].
  cbn [andb].
  assert (R := randint_range g (Z.to_nat min_features) (Z.to_nat max_features)).
  destruct (randint g (Z.to_nat min_features) (Z.to_nat max_features))
    as [k g1]. simpl in R.
  assert (Rk : (Z.to_nat min_features <= k <= Z.to_nat max_features)%nat)
    by (apply R; lia).
  destruct (draw_distinct_spec k g1 (seq 0 n_features)) as [A [B C]].
  { apply seq_NoDup. }
  { rewrite length_seq. lia. }
  destruct (draw_distinct g1 (seq 0 n_features) k) as [features g2].
  simpl in *. exists features. split; [reflexivity|].
  split; [lia|]. split; [exact B|].
  apply Forall_forall. intros f Hf. apply C in Hf. apply in_seq in Hf. lia.
Qed.

(** C2, as the code has it: in every iteration the subspace drawn for a
    constructed object with [local_max_features >= 0.5] has at least
    [int(d * 0.5)] and at most [int(d * local_max_features)] features,
    rounded toward zero, all distinct and below the feature count [d]. *)
Theorem subspace_size_truncated (s : LSCP) (X_train : matrix) :
  constructed s ->
  X_train_norm_ s = Some X_train ->
  (1 # 2) <= local_max_features s ->
  let d := n_cols X_train in
  exists features,
    draw_features s =
      (Ok features, set_random_state (advance s (random_state s)) s, []) /\
    (Qfloor (inject_Z (Z.of_nat d) * (1 # 2))
       <= Z.of_nat (length features)
       <= Qfloor (inject_Z (Z.of_nat d) * local_max_features s))%Z /\
    NoDup features /\
    Forall (fun f => (f < d)%nat) features.
Proof.
  intros [_ [_ [_ [_ [Hmin [Hmax _]]]]]] HX Hlo d.
  assert (D : 0 <= inject_Z (Z.of_nat d)).
  { change 0 with (inject_Z 0). rewrite <- Zle_Qle. lia. }
  assert (P1 : 0 <= inject_Z (Z.of_nat d) * (1 # 2))
    by (apply Qmult_le_0_compat; [exact D | discriminate]).
  assert (P2 : inject_Z (Z.of_nat d) * (1 # 2)
               <= inject_Z (Z.of_nat d) * local_max_features s)
    by (apply Qscale_le; assumption).
  destruct (generate_bagging_indices_spec (random_state s) d
              (py_int (inject_Z (Z.of_nat d) * local_min_features s))
              (py_int (inject_Z (Z.of_nat d) * local_max_features s)))
    as [features [E [L [N F]]]].
  { rewrite Hmin. apply py_int_nonneg. exact P1. }
  { rewrite Hmin. apply py_int_mono; assumption. }
  { apply py_int_scaled; [lra | exact Hmax]. }
  exists features. rewrite draw_features_unfold, HX. cbv zeta. fold d.
  unfold advance. rewrite HX. fold d.
  split.
  { destruct (generate_bagging_indices _ _ _ _) as [r g]. simpl in *.
    rewrite E. reflexivity. }
  rewrite Hmin in L. rewrite !py_int_floor in L by lra.
  split; [exact L|]. split; [exact N | exact F].
Qed.

End Sampler.

(** ** What [decision_function] writes *)

Section Mutation.

Context {collab : Collaborators}.

Lemma decision_function_writes X s r s1 w :
  decision_function X s = (r, s1, w) ->
  X_train_norm_ s1 = X_train_norm_ s /\
  train_scores_ s1 = train_scores_ s /\
  n_features_ s1 = n_features_ s /\
  forall scores, r = Ok scores ->
    random_state s1 =
      Nat.iter (local_region_iterations s) (advance s) (random_state s) /\
    exists train_scores cols,
      train_scores_ s = Some train_scores /\
      score_columns X 0 (n_clf s) (estimator_list s) = Ok cols /\
      training_pseudo_label_ s1 =
        np_max_axis1
          (fst (standardizer train_scores
                  (fill_columns (n_rows X) (n_clf s) cols))).
Proof.
  intro H.
  destruct (decision_function_keeps _ _ _ _ _ H) as [_ [_ [F1 [F2 F3]]]].
  split; [exact F1|]. split; [exact F2|]. split; [exact F3|].
  intros scores E. subst r. rewrite decision_function_unfold in H.
  destruct (training_pseudo_label_ s); [|discriminate].
  destruct (train_scores_ s) eqn:Ts; [|discriminate].
  destruct (X_train_norm_ s); [|discriminate].
  destruct (n_features_ s) as [d|]; [|discriminate].
  destruct (check_array X) as [X'|e] eqn:EX; [|discriminate].
  destruct (check_array_ok _ _ EX) as [-> _].
  destruct (d =? n_cols X)%nat; [|discriminate].
  destruct (decision_scores_state _ _ _ _ _ H) as [_ [_ R]].
  destruct (R _ eq_refl) as [_ [R1 [ts [cols [R2 [R3 R4]]]]]].
  split; [exact R1|]. exists ts, cols. rewrite <- Ts. auto.
Qed.

End Mutation.

(** C10: [decision_function] never writes the training matrix, the train
    score matrix or the feature count; a call that returns has advanced
    the stored random state by one draw per iteration and has stored the
    pseudo ground truth recomputed from the standardized train scores.
    Two consecutive calls with the same input can therefore start from
    different random states and draw different feature subspaces. *)
Theorem decision_function_not_read_only :
  (forall (collab : Collaborators) (s s1 : LSCP) (X : matrix)
          (r : outcome (list f64)) (w : list warning),
     decision_function X s = (r, s1, w) ->
     X_train_norm_ s1 = X_train_norm_ s /\
     train_scores_ s1 = train_scores_ s /\
     n_features_ s1 = n_features_ s /\
     forall scores, r = Ok scores ->
       random_state s1 =
         Nat.iter (local_region_iterations s) (advance s) (random_state s) /\
       exists train_scores cols,
         train_scores_ s = Some train_scores /\
         score_columns X 0 (n_clf s) (estimator_list s) = Ok cols /\
         training_pseudo_label_ s1 =
           np_max_axis1
             (fst (standardizer train_scores
                     (fill_columns (n_rows X) (n_clf s) cols)))) /\
  (let s := Demo.fitted_object in
   let first_call := decision_function Demo.X_train s in
   let s1 := snd (fst first_call) in
   let second_call := decision_function Demo.X_train s1 in
   (exists scores, fst (fst first_call) = Ok scores) /\
   (exists scores, fst (fst second_call) = Ok scores) /\
   random_state s1 <> random_state s /\
   fst (fst (draw_features s1)) <> fst (fst (draw_features s))).
Proof.
  split.
  - intros collab s s1 X r w H. exact (decision_function_writes X s r s1 w H).
  - vm_compute. split; [eexists; reflexivity|]. split; [eexists; reflexivity|].
    split; discriminate.
Qed.

(** ** Determinism of the decision path *)

Section Determinism.

Context {collab : Collaborators}.

Lemma erase_set_random_state g s :
  erase (set_random_state g s) = set_random_state g (erase s).
Proof. unfold erase, clamp. cbn. destruct (_ <? _)%Z; reflexivity. Qed.

Lemma erase_clamp s : erase (clamp s) = erase s.
Proof.
  unfold erase. rewrite clamp_idem. unfold clamp.
  destruct (_ <? _)%Z; reflexivity.
Qed.

Lemma with_used_bins_clamp s : with_used_bins (clamp s) = with_used_bins s.
Proof.
  unfold with_used_bins. rewrite clamp_idem. unfold clamp.
  destruct (_ <? _)%Z; reflexivity.
Qed.

Ltac record_fields :=
  cbn [contamination estimator_list n_clf local_region_size local_region_min
       local_region_max local_max_features local_min_features
       local_region_iterations local_region_threshold n_bins n_selected
       random_state n_features_ X_train_norm_ train_scores_
       training_pseudo_label_ decision_scores_] in *.

Lemma with_used_bins_label pseudo s :
  with_used_bins (set_training_pseudo_label_ pseudo s) =
  set_training_pseudo_label_ pseudo (with_used_bins s).
Proof.
  unfold with_used_bins, clamp. cbn. destruct (_ <? _)%Z; reflexivity.
Qed.

Lemma erase_label pseudo s s' :
  erase s = erase s' ->
  with_used_bins (set_training_pseudo_label_ pseudo s) =
  with_used_bins (set_training_pseudo_label_ pseudo s').
Proof.
  intro H. rewrite !with_used_bins_label.
  unfold erase, with_used_bins, set_training_pseudo_label_, set_n_bins in *.
  set (b := n_bins (clamp s)) in *. set (b' := n_bins (clamp s')) in *.
  clearbody b b'. destruct s, s'. record_fields.
  injection H as -> -> -> -> -> -> -> -> -> -> -> -> -> -> -> -> _ ->.
  reflexivity.
Qed.

Lemma with_used_bins_erase s s' :
  with_used_bins s = with_used_bins s' -> erase s = erase s'.
Proof.
  intro H. unfold erase, with_used_bins, set_n_bins in *.
  set (b := n_bins (clamp s)) in *. set (b' := n_bins (clamp s')) in *.
  clearbody b b'. destruct s, s'. record_fields.
  injection H as -> -> -> -> -> -> -> -> -> -> -> -> -> -> -> -> -> ->.
  reflexivity.
Qed.

End Determinism.

Section Simulation.

Context {collab : Collaborators}.

Lemma bind_agree {A B} (view view2 : LSCP -> LSCP)
  (m m' : M A) (f f' : A -> M B) (s s' : LSCP) :
  agree_on view (m s) (m' s') ->
  (forall a t t', view t = view t' -> agree_on view2 (f a t) (f' a t')) ->
  (forall t t', view t = view t' -> view2 t = view2 t') ->
  agree_on view2 (bind m f s) (bind m' f' s').
Proof.
  unfold agree_on, bind. intros [E R] H V.
  destruct (m s) as [[[a|e] t] w]; destruct (m' s') as [[[a'|e'] t'] w'];
    simpl in E, R; inversion E; subst.
  - specialize (H a' t t' R).
    destruct (f a' t) as [[r2 t2] w2]. destruct (f' a' t') as [[r2' t2'] w2'].
    exact H.
  - simpl. split; [reflexivity | apply V; exact R].
Qed.

Lemma lift_agree {A} (view : LSCP -> LSCP) (x : outcome A) (s s' : LSCP) :
  view s = view s' -> agree_on view (lift x s) (lift x s').
Proof. intro H. split; [reflexivity | exact H]. Qed.

Lemma draw_features_agree s s' :
  erase s = erase s' -> agree_on erase (draw_features s) (draw_features s').
Proof.
  intro H. rewrite !draw_features_unfold.
  rewrite <- (f_equal X_train_norm_ H : X_train_norm_ s = X_train_norm_ s').
  rewrite <- (f_equal random_state H : random_state s = random_state s').
  rewrite <- (f_equal local_min_features H
              : local_min_features s = local_min_features s').
  rewrite <- (f_equal local_max_features H
              : local_max_features s = local_max_features s').
  destruct (X_train_norm_ s); [|split; [reflexivity | exact H]].
  cbv zeta. split; [reflexivity|]. cbn [fst snd].
  rewrite !erase_set_random_state, H. reflexivity.
Qed.

Lemma local_region_iteration_agree X lrl s s' :
  erase s = erase s' ->
  agree_on erase (local_region_iteration X lrl s)
    (local_region_iteration X lrl s').
Proof.
  intro H. unfold local_region_iteration.
  apply (bind_agree erase erase); [apply draw_features_agree; exact H| |auto].
  intros features t t' R. rewrite !bind_get. unfold attr, index.
  rewrite <- (f_equal X_train_norm_ R : X_train_norm_ t = X_train_norm_ t').
  rewrite <- (f_equal local_region_size R
              : local_region_size t = local_region_size t').
  rewrite !bind_lift.
  destruct (X_train_norm_ t) as [X_train|]; cbn [of_option];
    [|split; [reflexivity | exact R]].
  rewrite !bind_lift.
  destruct (select_columns X_train features); cbn [of_option];
    [|split; [reflexivity | exact R]].
  rewrite !bind_lift.
  destruct (select_columns X features); cbn [of_option];
    [|split; [reflexivity | exact R]].
  rewrite !bind_lift.
  destruct (kdtree_query _ _ _); cbn [of_option];
    [|split; [reflexivity | exact R]].
  apply lift_agree. exact R.
Qed.

Lemma votes_loop_agree X (n : nat) : forall lrl s s',
  erase s = erase s' ->
  agree_on erase (for_range n (local_region_iteration X) lrl s)
    (for_range n (local_region_iteration X) lrl s').
Proof.
  induction n as [|n IH]; intros lrl s s' H; simpl.
  - split; [reflexivity | exact H].
  - apply (bind_agree erase erase);
      [apply local_region_iteration_agree; exact H| |auto].
    intros lrl' t t' R. apply IH. exact R.
Qed.

Lemma get_local_region_agree X s s' :
  erase s = erase s' ->
  agree_on erase (_get_local_region X s) (_get_local_region X s').
Proof.
  intro H. rewrite !get_local_region_unfold. unfold raw_votes.
  rewrite !bind_get.
  rewrite <- (f_equal local_region_iterations H
              : local_region_iterations s = local_region_iterations s').
  rewrite <- (f_equal local_region_threshold H
              : local_region_threshold s = local_region_threshold s').
  destruct (votes_loop_agree X (local_region_iterations s)
              (repeat [] (n_rows X)) s s' H) as [E R].
  destruct (for_range _ _ _ s) as [[[votes|e] t] w];
    destruct (for_range _ _ _ s') as [[[votes'|e'] t'] w'];
    simpl in E, R; inversion E; subst; split; try reflexivity; exact R.
Qed.

(** Objects that read the same are prepared alike, and then store the
    same pseudo ground truth. *)
Lemma prepare_scores_agree X s s' :
  erase s = erase s' ->
  agree_on with_used_bins (prepare_scores X s) (prepare_scores X s') \/
  (exists e, fst (fst (prepare_scores X s)) = Raise e /\
             fst (fst (prepare_scores X s')) = Raise e).
Proof.
  intro H. rewrite !prepare_scores_unfold.
  rewrite <- (f_equal n_clf H : n_clf s = n_clf s').
  rewrite <- (f_equal estimator_list H : estimator_list s = estimator_list s').
  rewrite <- (f_equal train_scores_ H : train_scores_ s = train_scores_ s').
  destruct (get_local_region_agree X s s' H) as [E R].
  destruct (_get_local_region X s) as [[[regions|e] t] w];
    destruct (_get_local_region X s') as [[[regions'|e'] t'] w'];
    simpl in E, R; inversion E; subst; [|right; eexists; split; reflexivity].
  destruct (score_columns X 0 (n_clf s) (estimator_list s)) as [cols|e];
    [|right; eexists; split; reflexivity].
  destruct (train_scores_ s) as [train_scores|]; [|right; eexists; split; reflexivity].
  cbv zeta. destruct (np_max_axis1 _) as [pseudo|]; [|right; eexists; split; reflexivity].
  left. split; [reflexivity|]. cbn [fst snd].
  apply erase_label. exact R.
Qed.

Lemma select_loop_pure scores edges (bins : list nat) : forall acc s s',
  fst (fst (for_each
    (fun candidates max_bin =>
       bind (lift (select_in_bin scores edges max_bin))
         (fun selected => ret (candidates ++ selected)))
    bins acc s)) =
  fst (fst (for_each
    (fun candidates max_bin =>
       bind (lift (select_in_bin scores edges max_bin))
         (fun selected => ret (candidates ++ selected)))
    bins acc s')).
Proof.
  induction bins as [|b bins IH]; intros acc s s'; simpl; [reflexivity|].
  destruct (select_in_bin scores edges b) as [selected|e];
    cbn [bind lift ret fst snd]; [|reflexivity].
  specialize (IH (acc ++ selected) s s').
  match goal with |- context [for_each ?f bins ?a s] =>
    destruct (for_each f bins a s) as [[r t] w] end.
  match goal with |- context [for_each ?f bins ?a s'] =>
    destruct (for_each f bins a s') as [[r' t'] w'] end.
  exact IH.
Qed.

Lemma selector_agree scores s s' :
  with_used_bins s = with_used_bins s' ->
  agree_on with_used_bins (_get_competent_detectors scores s)
    (_get_competent_detectors scores s').
Proof.
  intro H.
  assert (B : n_bins (clamp s) = n_bins (clamp s'))
    by exact (f_equal n_bins H).
  assert (Sel : n_selected (clamp s) = n_selected (clamp s')).
  { assert (forall t, n_selected (clamp t) = n_selected t)
      by (intro t; unfold clamp; destruct (_ <? _)%Z; reflexivity).
    rewrite !H0. exact (f_equal n_selected H). }
  destruct (_get_competent_detectors scores s) as [[r t] w] eqn:E1.
  destruct (_get_competent_detectors scores s') as [[r' t'] w'] eqn:E2.
  destruct (selector_state _ _ _ _ _ E1) as [A1 _].
  destruct (selector_state _ _ _ _ _ E2) as [A2 _]. subst t t'.
  split; [|cbn [fst snd]; rewrite !with_used_bins_clamp; exact H].
  cbn [fst snd]. rewrite selector_unfold in E1, E2.
  rewrite <- B, <- Sel in E2.
  destruct (np_histogram scores (n_bins (clamp s))) as [hb|e].
  - assert (P := select_loop_pure scores (snd hb)
                   (argmaxn (fst hb) (n_selected (clamp s))) []
                   (clamp s) (clamp s')).
    match type of E1 with context [for_each ?f ?l ?a (clamp s)] =>
      destruct (for_each f l a (clamp s)) as [[r1 t1] w1] end.
    match type of E2 with context [for_each ?f ?l ?a (clamp s')] =>
      destruct (for_each f l a (clamp s')) as [[r2 t2] w2] end.
    simpl in P. inversion E1; inversion E2; subst. reflexivity.
  - inversion E1; inversion E2; subst. reflexivity.
Qed.

Lemma local_correlations_agree tr region s s' :
  with_used_bins s = with_used_bins s' ->
  agree_on with_used_bins (local_correlations tr region s)
    (local_correlations tr region s').
Proof.
  intro H. unfold local_correlations. rewrite !bind_get. unfold attr, index.
  rewrite <- (f_equal training_pseudo_label_ H
              : training_pseudo_label_ s = training_pseudo_label_ s').
  rewrite <- (f_equal n_clf H : n_clf s = n_clf s').
  rewrite !bind_lift.
  destruct (training_pseudo_label_ s) as [pseudo|]; cbn [of_option];
    [|split; [reflexivity | exact H]].
  rewrite !bind_lift.
  destruct (take pseudo region); cbn [of_option];
    [|split; [reflexivity | exact H]].
  rewrite !bind_lift.
  destruct (take tr region); cbn [of_option];
    [|split; [reflexivity | exact H]].
  apply lift_agree. exact H.
Qed.

Lemma score_instance_agree tr te i region s s' :
  with_used_bins s = with_used_bins s' ->
  agree_on with_used_bins (score_instance tr te i region s)
    (score_instance tr te i region s').
Proof.
  intro H. unfold score_instance.
  apply (bind_agree with_used_bins with_used_bins);
    [apply local_correlations_agree; exact H| |auto].
  intros corr t t' R.
  apply (bind_agree with_used_bins with_used_bins);
    [apply selector_agree; exact R| |auto].
  intros cands u u' Ru. unfold index. rewrite !bind_lift.
  destruct (nth_error te i) as [row|]; cbn [of_option];
    [|split; [reflexivity | exact Ru]].
  rewrite !bind_lift.
  destruct (take row cands); cbn [of_option];
    [|split; [reflexivity | exact Ru]].
  split; [reflexivity | exact Ru].
Qed.

Lemma score_instances_agree tr te (regions : list (list nat)) : forall i s s',
  with_used_bins s = with_used_bins s' ->
  agree_on with_used_bins (score_instances tr te i regions s)
    (score_instances tr te i regions s').
Proof.
  induction regions as [|region rest IH]; intros i s s' H; simpl.
  - split; [reflexivity | exact H].
  - apply (bind_agree with_used_bins with_used_bins);
      [apply score_instance_agree; exact H| |auto].
    intros x t t' R.
    apply (bind_agree with_used_bins with_used_bins);
      [apply IH; exact R| |auto].
    intros xs u u' Ru. split; [reflexivity | exact Ru].
Qed.

(** The outcome of a scoring call is a function of what the object reads
    like. *)
Lemma decision_scores_agree X s s' :
  erase s = erase s' ->
  fst (fst (_get_decision_scores X s)) = fst (fst (_get_decision_scores X s')).
Proof.
  intro H. unfold _get_decision_scores, bind.
  destruct (prepare_scores_agree X s s' H) as [[E R]|[e [E1 E2]]].
  - destruct (prepare_scores X s) as [[[p|e] t] w];
      destruct (prepare_scores X s') as [[[p'|e'] t'] w'];
      simpl in E, R; inversion E; subst; [|reflexivity].
    destruct (score_instances_agree (fst (fst p')) (snd (fst p')) (snd p')
                0 t t' R) as [E' _].
    destruct (score_instances _ _ _ _ t) as [[r2 t2] w2].
    destruct (score_instances _ _ _ _ t') as [[r2' t2'] w2'].
    exact E'.
  - destruct (prepare_scores X s) as [[[p|e1] t] w];
      destruct (prepare_scores X s') as [[[p'|e2] t'] w'];
      simpl in E1, E2; try discriminate.
    inversion E1; inversion E2; subst. reflexivity.
Qed.

Lemma decision_function_agree X s s' :
  erase s = erase s' ->
  fst (fst (decision_function X s)) = fst (fst (decision_function X s')).
Proof.
  intro H. rewrite !decision_function_unfold.
  rewrite <- (f_equal train_scores_ H : train_scores_ s = train_scores_ s').
  rewrite <- (f_equal X_train_norm_ H : X_train_norm_ s = X_train_norm_ s').
  rewrite <- (f_equal n_features_ H : n_features_ s = n_features_ s').
  assert (T := f_equal training_pseudo_label_ H). cbn [erase training_pseudo_label_] in T.
  destruct (training_pseudo_label_ s); destruct (training_pseudo_label_ s');
    try discriminate; [|reflexivity].
  destruct (train_scores_ s); [|reflexivity].
  destruct (X_train_norm_ s); [|reflexivity].
  destruct (n_features_ s) as [d|]; [|reflexivity].
  destruct (check_array X) as [X'|e]; [|reflexivity].
  destruct (d =? n_cols X')%nat; [|reflexivity].
  apply decision_scores_agree. exact H.
Qed.

End Simulation.

Section Repeatable.

Context {collab : Collaborators}.

Lemma erase_label_stored pseudo s :
  training_pseudo_label_ s <> None ->
  erase (set_training_pseudo_label_ pseudo s) = erase s.
Proof.
  intro H. unfold erase, clamp. cbn.
  destruct (training_pseudo_label_ s); [|congruence].
  destruct (_ <? _)%Z; reflexivity.
Qed.

Lemma erase_reseeded g s :
  erase (set_random_state (random_state s) (set_random_state g s)) = erase s.
Proof.
  rewrite <- (set_random_state_same s) at 3. reflexivity.
Qed.

(** After a call, the object with its random state put back reads as
    before the call. *)
Lemma reseeded_reads_the_same X s :
  erase (set_random_state (random_state s)
           (snd (fst (decision_function X s)))) = erase s.
Proof.
  destruct (decision_function X s) as [[r s1] w] eqn:H. cbn [fst snd].
  rewrite decision_function_unfold in H.
  assert (Same : (r, s1, w) = (r, s, []) ->
            erase (set_random_state (random_state s) s1) = erase s).
  { intro E; inversion E; subst. rewrite set_random_state_same. reflexivity. }
  destruct (training_pseudo_label_ s) eqn:Tp; [|apply Same; congruence].
  destruct (train_scores_ s); [|apply Same; congruence].
  destruct (X_train_norm_ s); [|apply Same; congruence].
  destruct (n_features_ s) as [d|]; [|apply Same; congruence].
  destruct (check_array X) as [X'|e]; [|apply Same; congruence].
  destruct (d =? n_cols X')%nat; [|apply Same; congruence].
  destruct (decision_scores_state _ _ _ _ _ H) as [_ [Q _]].
  assert (T : forall g, training_pseudo_label_ (set_random_state g s) <> None).
  { intro g. cbn. rewrite Tp. discriminate. }
  destruct Q as [[A _]|[[p [A _]]|[p [A _]]]]; rewrite A;
    rewrite erase_set_random_state.
  - rewrite <- erase_set_random_state. apply erase_reseeded.
  - rewrite erase_label_stored by apply T.
    rewrite <- erase_set_random_state. apply erase_reseeded.
  - rewrite erase_clamp, erase_label_stored by apply T.
    rewrite <- erase_set_random_state. apply erase_reseeded.
Qed.

(** C8: a second call of [decision_function] on the same object with the
    same input, the random state being put back to what it was before the
    first call, has the outcome of the first call: the same score vector,
    or the same exception. *)
Theorem decision_function_repeatable (s : LSCP) (X : matrix) :
  let first_call := decision_function X s in
  let reseeded :=
    set_random_state (random_state s) (snd (fst first_call)) in
  fst (fst (decision_function X reseeded)) = fst (fst first_call).
Proof.
  cbv zeta. apply decision_function_agree. apply reseeded_reads_the_same.
Qed.

End Repeatable.

(** ** Degenerate local regions *)

Lemma take_length {A} (v : list A) (idx : list nat) : forall l,
  take v idx = Some l -> length l = length idx.
Proof.
  induction idx as [|i idx IH]; intros l H; simpl in H.
  - inversion H; reflexivity.
  - destruct (nth_error v i); [|discriminate].
    destruct (take v idx) as [l'|]; [|discriminate].
    inversion H; subst. simpl. f_equal. apply IH. reflexivity.
Qed.

Lemma take_total {A} (v : list A) (idx : list nat) :
  Forall (fun i => (i < length v)%nat) idx ->
  exists l, take v idx = Some l /\ length l = length idx.
Proof.
  induction 1 as [|i idx Hi _ IH]; simpl.
  - exists []. split; reflexivity.
  - destruct IH as [l [E L]]. rewrite E.
    destruct (nth_error v i) as [x|] eqn:Ex.
    + exists (x :: l). split; [reflexivity | simpl; congruence].
    + apply nth_error_None in Ex. lia.
Qed.

Lemma fill_columns_shape (n m : nat) (cols : list (list Q)) :
  map (@length Q) (fill_columns n m cols) = repeat m n.
Proof.
  unfold fill_columns. rewrite map_map.
  assert (E : forall start,
    map (fun i => length (map (fun k => nth i (nth k cols []) 0) (seq 0 m)))
      (seq start n) = repeat m n).
  { induction n as [|n IH]; intro start; simpl; [reflexivity|].
    rewrite length_map, length_seq, IH. reflexivity. }
  apply E.
Qed.

Lemma np_mean_finite (l : list Q) : l <> [] -> is_finite (np_mean l) = true.
Proof. destruct l; [congruence | reflexivity]. Qed.

Section Degenerate.

Context {collab : Collaborators}.

Lemma pearson_scores_length lpgt lts (ds : list nat) : forall l,
  pearson_scores lpgt lts ds = Ok l -> length l = length ds.
Proof.
  induction ds as [|d ds IH]; intros l H; simpl in H.
  - inversion H; reflexivity.
  - destruct (column lts d); [|discriminate].
    destruct (pearson_scores lpgt lts ds) as [l'|]; [|discriminate].
    inversion H; subst. simpl. f_equal. apply IH. reflexivity.
Qed.

Lemma local_correlations_length tr region s corr s1 w :
  local_correlations tr region s = (Ok corr, s1, w) ->
  length corr = n_clf s.
Proof.
  unfold local_correlations. rewrite bind_get. unfold attr, index.
  rewrite bind_lift.
  destruct (training_pseudo_label_ s) as [pseudo|]; cbn [of_option];
    [|discriminate].
  rewrite bind_lift. destruct (take pseudo region); cbn [of_option];
    [|discriminate].
  rewrite bind_lift. destruct (take tr region); cbn [of_option];
    [|discriminate].
  unfold lift. intro H. inversion H as [[E S W]]. clear H.
  apply pearson_scores_length in E. rewrite E, length_seq. congruence.
Qed.

Lemma degenerate_region_undefined tr sp region :
  pearson_contract ->
  (1 <= n_clf sp)%nat ->
  (length region < 2)%nat ->
  undefined_correlation tr sp region.
Proof.
  intros P Hm Hr. unfold undefined_correlation, local_correlations.
  rewrite bind_get. unfold attr, index. rewrite bind_lift.
  destruct (training_pseudo_label_ sp) as [pseudo|]; cbn [of_option];
    [|exact I].
  rewrite bind_lift.
  destruct (take pseudo region) as [lpgt|] eqn:Et; cbn [of_option]; [|exact I].
  rewrite bind_lift. destruct (take tr region) as [lts|]; cbn [of_option];
    [|exact I].
  unfold lift. cbn [fst].
  destruct (n_clf sp) as [|m]; [lia|]. simpl.
  destruct (column lts 0) as [col|]; [|exact I].
  destruct (pearson_scores lpgt lts (seq 1 m)) as [l|]; [|exact I].
  left. apply P. rewrite (take_length _ _ _ Et). exact Hr.
Qed.

Lemma score_instance_raises tr te i region sp t :
  with_used_bins t = with_used_bins sp ->
  undefined_correlation tr sp region ->
  exists e s1 w, score_instance tr te i region t = (Raise e, s1, w).
Proof.
  intros H U. unfold undefined_correlation in U.
  destruct (local_correlations_agree tr region t sp H) as [E _].
  rewrite <- E in U. clear E.
  unfold score_instance, bind at 1.
  destruct (local_correlations tr region t) as [[[corr|e] t1] w1] eqn:EC;
    cbn [fst] in U; [|eauto].
  destruct (local_correlations_state _ _ _ _ _ _ EC) as [-> [-> _]].
  unfold bind at 1. rewrite selector_unfold. unfold np_histogram.
  destruct (n_bins (clamp t) <? 1)%Z; [eauto|].
  apply finite_values_None in U. rewrite U. eauto.
Qed.

Lemma score_instances_raises tr te sp (regions : list (list nat)) :
  forall i t,
  with_used_bins t = with_used_bins sp ->
  (exists region, In region regions /\ undefined_correlation tr sp region) ->
  exists e s1 w, score_instances tr te i regions t = (Raise e, s1, w).
Proof.
  induction regions as [|region rest IH]; intros i t H [bad [Hin U]];
    [destruct Hin|].
  simpl. unfold bind at 1.
  destruct (score_instance tr te i region t) as [[[x|e] t1] w1] eqn:ES;
    [|eauto].
  destruct (score_instance_state _ _ _ _ _ _ _ _ ES) as [[[_ [_ [e E]]]|[A _]] _];
    [discriminate|]. subst t1.
  destruct Hin as [->|Hin].
  - destruct (score_instance_raises tr te i bad sp t H U) as [e [s1 [w E]]].
    congruence.
  - destruct (IH (S i) (clamp t)) as [e [s1 [w E]]].
    { rewrite with_used_bins_clamp. exact H. }
    { exists bad. split; assumption. }
    unfold bind at 1. rewrite E. eauto.
Qed.

Lemma score_instance_finite tr te i region sp t xs row :
  with_used_bins t = with_used_bins sp ->
  n_selected sp = 1%nat ->
  (1 <= n_bins (clamp sp))%Z ->
  (1 <= n_clf sp)%nat ->
  fst (fst (local_correlations tr region sp)) = Ok (map Fin xs) ->
  nth_error te i = Some row ->
  (n_clf sp <= length row)%nat ->
  exists x w,
    score_instance tr te i region t = (Ok x, clamp t, w) /\
    is_finite x = true.
Proof.
  intros H Hsel Hb Hm Hc Hrow Hlen.
  destruct (local_correlations_agree tr region t sp H) as [E _].
  rewrite Hc in E. clear Hc.
  unfold score_instance, bind at 1.
  destruct (local_correlations tr region t) as [[r t1] w1] eqn:EC.
  cbn [fst] in E. subst r.
  destruct (local_correlations_state _ _ _ _ _ _ EC) as [-> [-> _]].
  assert (L := local_correlations_length _ _ _ _ _ _ EC).
  rewrite length_map in L.
  assert (Ht : n_clf t = n_clf sp) by exact (f_equal n_clf H).
  destruct (selector_candidates t xs) as [cands [Es [L1 L2]]].
  { intro Ex. subst xs. simpl in L. lia. }
  { rewrite <- Hsel. exact (f_equal n_selected H). }
  { replace (n_bins (clamp t)) with (n_bins (clamp sp)); [exact Hb|].
    symmetry. exact (f_equal n_bins H). }
  unfold bind at 1. rewrite Es. unfold index. rewrite bind_lift, Hrow.
  cbn [of_option]. rewrite bind_lift.
  destruct (take_total row cands) as [selected [Et Ls]].
  { eapply Forall_impl; [|exact L2]. simpl. intros; lia. }
  rewrite Et. cbn [of_option]. unfold ret.
  eexists. eexists. split; [reflexivity|].
  apply np_mean_finite. intro Ex. subst selected. simpl in Ls. lia.
Qed.

Lemma score_instances_finite tr te sp (regions : list (list nat)) :
  n_selected sp = 1%nat ->
  (1 <= n_bins (clamp sp))%Z ->
  (1 <= n_clf sp)%nat ->
  forall i t,
  with_used_bins t = with_used_bins sp ->
  (forall region, In region regions ->
     exists xs, fst (fst (local_correlations tr region sp)) = Ok (map Fin xs)) ->
  (forall k, (k < length regions)%nat ->
     exists row, nth_error te (i + k) = Some row /\
                 (n_clf sp <= length row)%nat) ->
  exists scores s1 w,
    score_instances tr te i regions t = (Ok scores, s1, w) /\
    length scores = length regions /\
    Forall (fun x => is_finite x = true) scores.
Proof.
  intros Hsel Hb Hm.
  induction regions as [|region rest IH]; intros i t H Hc Hrows; simpl.
  - exists [], t, []. repeat split. constructor.
  - destruct (Hc region (or_introl eq_refl)) as [xs Exs].
    destruct (Hrows 0%nat) as [row [Er Lr]]; [simpl; lia|].
    rewrite Nat.add_0_r in Er.
    destruct (score_instance_finite tr te i region sp t xs row
                H Hsel Hb Hm Exs Er Lr) as [x [w [E F]]].
    destruct (IH (S i) (clamp t)) as [scores [s1 [w' [E' [L' F']]]]].
    { rewrite with_used_bins_clamp. exact H. }
    { intros r Hr. apply Hc. right. exact Hr. }
    { intros k Hk. destruct (Hrows (S k)) as [row' [Er' Lr']]; [simpl; lia|].
      exists row'. split; [|exact Lr'].
      replace (S i + k)%nat with (i + S k)%nat by lia. exact Er'. }
    unfold bind at 1. rewrite E. unfold bind at 1. rewrite E'. unfold ret.
    eexists. eexists. eexists. split; [reflexivity|].
    split; [simpl; congruence|]. constructor; assumption.
Qed.

(** C1, as the code has it: once the local regions and the standardized
    scores of a valid batch are computed, [decision_function] returns one
    finite score per query point provided the correlation scores of every
    detector are defined in every local region; if some query point's
    local region holds fewer than two training indices, where the
    correlation is undefined, the call raises and returns no score at
    all. *)
Theorem degenerate_region_aborts_batch (s sp : LSCP) (X tr te : matrix)
  (regions : list (list nat)) (wp : list warning) :
  fitted s ->
  constructed s ->
  (1 <= n_bins s)%Z ->
  check_array X = Ok X ->
  n_features_ s = Some (n_cols X) ->
  standardizer_contract ->
  pearson_contract ->
  prepare_scores X s = (Ok (tr, te, regions), sp, wp) ->
  ((forall region, In region regions ->
      exists xs,
        fst (fst (local_correlations tr region sp)) = Ok (map Fin xs)) ->
   exists scores s1 w,
     decision_function X s = (Ok scores, s1, w) /\
     length scores = n_rows X /\
     Forall (fun x => is_finite x = true) scores) /\
  ((exists region, In region regions /\ (length region < 2)%nat) ->
   exists e s1 w, decision_function X s = (Raise e, s1, w)).
Proof.
  intros [F1 [F2 [F3 F4]]] C Hb Hx Hn Sc Pc Hp.
  destruct C as [_ [Hm [_ [_ [_ [_ [_ [_ Hsel]]]]]]]].
  assert (D : decision_function X s = _get_decision_scores X s).
  { rewrite decision_function_unfold, Hn, Hx.
    destruct (training_pseudo_label_ s); [|congruence].
    destruct (train_scores_ s); [|congruence].
    destruct (X_train_norm_ s); [|congruence].
    rewrite Nat.eqb_refl. reflexivity. }
  assert (G : _get_decision_scores X s =
              match score_instances tr te 0 regions sp with
              | (r, s2, w2) => (r, s2, wp ++ w2)
              end).
  { unfold _get_decision_scores, bind. rewrite Hp. reflexivity. }
  rewrite D, G. clear D G.
  destruct (prepare_scores_state _ _ _ _ _ Hp)
    as [_ [_ [pseudo [ts [cols [A [_ [Lr [_ [_ [_ [Ete _]]]]]]]]]]]].
  assert (Nc : n_clf sp = n_clf s) by (rewrite A; reflexivity).
  assert (Ns : n_selected sp = 1%nat) by (rewrite A; exact Hsel).
  assert (Nb : (1 <= n_bins (clamp sp))%Z).
  { apply clamp_bins_pos; rewrite A; cbn; [exact Hb | lia]. }
  split.
  - intro Hc.
    destruct (score_instances_finite tr te sp regions Ns Nb) with (i := 0%nat) (t := sp)
      as [scores [s1 [w [E [L F]]]]]; [lia | reflexivity | exact Hc | |].
    + intros k Hk. rewrite Lr in Hk. simpl.
      assert (Sh := Sc ts (fill_columns (n_rows X) (n_clf s) cols)).
      rewrite <- Ete, fill_columns_shape in Sh.
      assert (Lk : nth_error (map (@length Q) te) k = Some (n_clf s)).
      { rewrite Sh. rewrite nth_error_repeat by exact Hk. reflexivity. }
      rewrite nth_error_map in Lk.
      destruct (nth_error te k) as [row|]; [|discriminate].
      exists row. split; [reflexivity|]. inversion Lk. lia.
    + rewrite E. exists scores, s1, (wp ++ w).
      split; [reflexivity|]. split; [congruence | exact F].
  - intros [region [Hin Hlen]].
    destruct (score_instances_raises tr te sp regions 0 sp eq_refl)
      as [e [s1 [w E]]].
    { exists region. split; [exact Hin|].
      apply degenerate_region_undefined; [exact Pc | lia | exact Hlen]. }
    rewrite E. eauto.
Qed.

End Degenerate.

(** ** The executable instance keeps the contracts *)

Lemma insert_by_length d i l : length (Demo.insert_by d i l) = S (length l).
Proof.
  induction l as [|[d' i'] l IH]; simpl; [reflexivity|].
  destruct (Qleb d' d); simpl; [rewrite IH|]; reflexivity.
Qed.

Lemma ranked_length (q : list Q) (l : list (nat * list Q)) : forall acc,
  length (fold_left
            (fun acc p => Demo.insert_by (Demo.sqdist q (snd p)) (fst p) acc)
            l acc) = (length l + length acc)%nat.
Proof.
  induction l as [|p l IH]; intro acc; simpl; [reflexivity|].
  rewrite IH, insert_by_length. lia.
Qed.

Lemma nearest_length train k q :
  (k <= length train)%nat -> length (Demo.nearest train k q) = k.
Proof.
  intro H. unfold Demo.nearest.
  rewrite length_firstn, length_map, ranked_length, length_combine, length_seq.
  simpl. lia.
Qed.

Lemma demo_knn_contract : @knn_contract Demo.collaborators.
Proof.
  intros train queries k ind_arr H. cbn in H.
  unfold Demo.brute_force_query in H.
  destruct (Z.ltb_spec k 1); [discriminate|].
  destruct (Z.ltb_spec (Z.of_nat (length train)) k); [discriminate|].
  cbn in H. inversion H; subst. apply Forall_map, Forall_forall.
  intros q _. apply nearest_length. lia.
Qed.

Lemma demo_standardizer_contract : @standardizer_contract Demo.collaborators.
Proof.
  intros train test. cbn. unfold Demo.rescale. rewrite map_map.
  apply map_ext. intro r.
  rewrite length_map, length_combine, length_seq. apply Nat.min_id.
Qed.

Lemma demo_pearson_contract : @pearson_contract Demo.collaborators.
Proof.
  intros x y H. cbn. unfold Demo.signed_r2.
  destruct (Nat.ltb_spec (length x) 2); [reflexivity | lia].
Qed.

Lemma demo_constructed : constructed Demo.fitted_object.
Proof.
  vm_compute. repeat split; try reflexivity; try lia; try discriminate.
Qed.

Lemma demo_fitted : fitted Demo.fitted_object.
Proof. vm_compute. repeat split; discriminate. Qed.

Lemma fitted_object_fit :
  fst (fst (fit Demo.X_train (Demo.object 1 10))) = Ok tt.
Proof. vm_compute. reflexivity. Qed.


Lemma demo_constructed3 : constructed Demo.fitted_object3.
Proof.
  vm_compute. repeat split; try reflexivity; try lia; try discriminate.
Qed.

Lemma demo_fitted3 : fitted Demo.fitted_object3.
Proof. vm_compute. repeat split; discriminate. Qed.

Lemma run_eta {C : Collaborators} {A}
  (x : outcome A * LSCP * list warning) (a : A) :
  fst (fst x) = Ok a -> x = (Ok a, snd (fst x), snd x).
Proof. destruct x as [[r s] w]. simpl. intros ->. reflexivity. Qed.

Lemma run_eta_all {C : Collaborators} {A}
  (x : outcome A * LSCP * list warning) :
  x = (fst (fst x), snd (fst x), snd x).
Proof. destruct x as [[r s] w]. reflexivity. Qed.

(** ** The claims on concrete runs *)

(** C1 fails as stated: on a fitted model, a batch of a training point and
    the query [(0, 0)], whose local region is empty, gets no score at
    all, although the training point alone is scored. *)
Lemma degenerate_region_counterexample :
  fitted Demo.fitted_object /\
  constructed Demo.fitted_object /\
  check_array Demo.batch = Ok Demo.batch /\
  n_features_ Demo.fitted_object = Some (n_cols Demo.batch) /\
  fst (fst (_get_local_region Demo.batch Demo.fitted_object))
    = Ok [[0; 1]%nat; []] /\
  fst (fst (decision_function Demo.batch Demo.fitted_object))
    = Raise (ValueError RangeNotFinite) /\
  fst (fst (decision_function [[0; 100]] Demo.fitted_object))
    = Ok [Fin (-2811 # 1880)].
Proof.
  split; [exact demo_fitted|]. split; [exact demo_constructed|].
  vm_compute. repeat split; reflexivity.
Qed.

(** The amended C1 on that batch: the call raises. *)
Lemma degenerate_region_aborts_batch_witness :
  exists e s1 w,
    decision_function Demo.batch Demo.fitted_object = (Raise e, s1, w).
Proof.
  assert (H1 : (1 <= n_bins Demo.fitted_object)%Z)
    by (vm_compute; discriminate).
  assert (H2 : check_array Demo.batch = Ok Demo.batch) by reflexivity.
  assert (H3 : n_features_ Demo.fitted_object = Some (n_cols Demo.batch))
    by (vm_compute; reflexivity).
  assert (H4 : prepare_scores Demo.batch Demo.fitted_object =
               (Ok (fst (fst Demo.prepared_scores),
                    snd (fst Demo.prepared_scores),
                    snd Demo.prepared_scores),
                snd (fst (prepare_scores Demo.batch Demo.fitted_object)),
                snd (prepare_scores Demo.batch Demo.fitted_object))).
  { refine (run_eta _ _ _). vm_compute. reflexivity. }
  pose proof (degenerate_region_aborts_batch
                Demo.fitted_object
                (snd (fst (prepare_scores Demo.batch Demo.fitted_object)))
                Demo.batch
                (fst (fst Demo.prepared_scores))
                (snd (fst Demo.prepared_scores))
                (snd Demo.prepared_scores)
                (snd (prepare_scores Demo.batch Demo.fitted_object))
                demo_fitted demo_constructed H1 H2 H3
                demo_standardizer_contract demo_pearson_contract H4) as T.
  refine (proj2 T _).
  exists []. split; [vm_compute; auto | simpl; lia].
Defined.

(** C2 fails as stated: with three features the subspace drawn has one
    feature, fewer than [ceil(3 * 0.5) = 2]. *)
Lemma subspace_below_ceiling :
  fitted Demo.fitted_object3 /\
  constructed Demo.fitted_object3 /\
  X_train_norm_ Demo.fitted_object3 = Some Demo.X_train3 /\
  n_cols Demo.X_train3 = 3%nat /\
  fst (fst (draw_features Demo.fitted_object3)) = Ok [0%nat] /\
  (Z.of_nat (length [0%nat])
     < Qceiling (inject_Z (Z.of_nat (n_cols Demo.X_train3))
                 * local_min_features Demo.fitted_object3))%Z.
Proof.
  split; [exact demo_fitted3|]. split; [exact demo_constructed3|].
  vm_compute. repeat split; reflexivity.
Qed.

(** The amended C2 on the same object. *)
Lemma subspace_size_truncated_witness :
  let d := n_cols Demo.X_train3 in
  exists features,
    draw_features Demo.fitted_object3 =
      (Ok features,
       set_random_state
         (advance Demo.fitted_object3 (random_state Demo.fitted_object3))
         Demo.fitted_object3, []) /\
    (Qfloor (inject_Z (Z.of_nat d) * (1 # 2))
       <= Z.of_nat (length features)
       <= Qfloor (inject_Z (Z.of_nat d)
                  * local_max_features Demo.fitted_object3))%Z /\
    NoDup features /\
    Forall (fun f => (f < d)%nat) features.
Proof.
  apply (subspace_size_truncated Demo.fitted_object3 Demo.X_train3).
  - exact demo_constructed3.
  - vm_compute. reflexivity.
  - vm_compute. discriminate.
Defined.

(** C3 on the training points of the fitted object. *)
Lemma local_region_majority_vote_witness :
  exists regions,
    _get_local_region Demo.X_train Demo.fitted_object =
      (Ok regions,
       snd (fst (raw_votes Demo.X_train Demo.fitted_object)),
       snd (raw_votes Demo.X_train Demo.fitted_object)) /\
    length regions = n_rows Demo.X_train /\
    forall j v, nth_error Demo.training_votes j = Some v ->
      exists r,
        nth_error regions j = Some r /\
        (forall i, In i r <-> (10 < count_occ Nat.eq_dec v i)%nat) /\
        NoDup r /\ incl r v /\
        length v = (20 * Z.to_nat (local_region_size Demo.fitted_object))%nat /\
        (length r <= 20 * Z.to_nat (local_region_size Demo.fitted_object))%nat.
Proof.
  apply (local_region_majority_vote Demo.X_train Demo.fitted_object
           (snd (fst (raw_votes Demo.X_train Demo.fitted_object)))
           Demo.training_votes
           (snd (raw_votes Demo.X_train Demo.fitted_object))).
  - exact demo_knn_contract.
  - exact demo_constructed.
  - refine (run_eta _ _ _). vm_compute. reflexivity.
Defined.

(** C4 on two scores and an object constructed with one bin. *)
Lemma single_bin_selects_all_witness :
  _get_competent_detectors (map Fin Demo.two_scores) (Demo.object 1 1) =
    (Ok (seq 0 (n_clf (Demo.object 1 1))), Demo.object 1 1, []).
Proof.
  apply single_bin_selects_all.
  - reflexivity.
  - reflexivity.
  - vm_compute. lia.
  - reflexivity.
Defined.

(** C5 on two scores and an object constructed with ten bins. *)
Lemma densest_bin_closed_interval_witness :
  exists candidates,
    _get_competent_detectors (map Fin Demo.two_scores) (Demo.object 1 10) =
      (Ok candidates, clamp (Demo.object 1 10),
       clamp_warnings (Demo.object 1 10)).
Proof.
  apply (proj2 (densest_bin_closed_interval (Demo.object 1 10) Demo.two_scores
                  eq_refl ltac:(vm_compute; lia))).
  vm_compute. discriminate.
Defined.

(** C6 fails as stated: on two detectors the selector returns no
    candidate set when one of the two correlation scores is undefined, and
    when the object was constructed with no bin; it raises instead. *)
Lemma selector_returns_no_set :
  (2 <= n_clf (Demo.object 1 10))%nat /\
  length [Fin (1 # 2); NaN] = n_clf (Demo.object 1 10) /\
  fst (fst (_get_competent_detectors [Fin (1 # 2); NaN] (Demo.object 1 10)))
    = Raise (ValueError RangeNotFinite) /\
  (2 <= n_clf (Demo.object 1 0))%nat /\
  length (map Fin Demo.two_scores) = n_clf (Demo.object 1 0) /\
  fst (fst (_get_competent_detectors (map Fin Demo.two_scores)
              (Demo.object 1 0)))
    = Raise (ValueError BinsNotPositive).
Proof. vm_compute. repeat split; try reflexivity; lia. Qed.

(** The amended C6 on two finite scores and an object constructed with
    ten bins. *)
Lemma candidate_set_nonempty_witness :
  exists candidates,
    _get_competent_detectors (map Fin Demo.two_scores) (Demo.object 1 10) =
      (Ok candidates, clamp (Demo.object 1 10),
       clamp_warnings (Demo.object 1 10)) /\
    (1 <= length candidates)%nat.
Proof.
  apply (proj1 (proj2 (candidate_set_nonempty (Demo.object 1 10)
                         (map Fin Demo.two_scores)
                         ltac:(vm_compute; lia) eq_refl eq_refl))).
  - vm_compute. discriminate.
  - repeat constructor.
Defined.

(** C7 on the fitted object: a query of three features is refused, a
    query of two features is scored. *)
Lemma feature_count_checked_witness :
  decision_function [[0; 0; 0]] Demo.fitted_object =
    (Raise (ValueError (FeatureMismatch (n_cols Demo.X_train)
                          (n_cols [[0; 0; 0]]))),
     Demo.fitted_object, []) /\
  decision_function [[0; 0]] Demo.fitted_object =
    _get_decision_scores [[0; 0]] Demo.fitted_object.
Proof.
  assert (HX : X_train_norm_ Demo.fitted_object = Some Demo.X_train)
    by (vm_compute; reflexivity).
  assert (Hn : n_features_ Demo.fitted_object = Some (n_cols Demo.X_train))
    by (vm_compute; reflexivity).
  assert (N : n_cols [[0; 0; 0]] <> n_cols Demo.X_train)
    by (vm_compute; discriminate).
  pose proof (feature_count_checked Demo.fitted_object [[0; 0; 0]]
                Demo.X_train demo_fitted HX Hn eq_refl) as T.
  pose proof (feature_count_checked Demo.fitted_object [[0; 0]]
                Demo.X_train demo_fitted HX Hn eq_refl) as U.
  split.
  - exact (proj1 T N).
  - exact (proj1 (proj2 U eq_refl)).
Defined.

(** C9 on the fitted object with ten bins configured anew. *)
Lemma n_bins_clamped_for_good_witness :
  n_bins (snd (fst (_get_decision_scores Demo.X_train Demo.reconfigured)))
    = Z.of_nat (n_clf Demo.reconfigured) /\
  filter is_bins_reduced
    (snd (_get_decision_scores Demo.X_train Demo.reconfigured))
    = [BinsReduced].
Proof.
  assert (H1 : (Z.of_nat (n_clf Demo.reconfigured) < n_bins Demo.reconfigured)%Z)
    by (vm_compute; reflexivity).
  assert (H2 : Demo.X_train <> []) by discriminate.
  assert (H3 : _get_decision_scores Demo.X_train Demo.reconfigured =
               (Ok Demo.rescored,
                snd (fst (_get_decision_scores Demo.X_train Demo.reconfigured)),
                snd (_get_decision_scores Demo.X_train Demo.reconfigured))).
  { refine (run_eta _ _ _). vm_compute. reflexivity. }
  pose proof (n_bins_clamped_for_good Demo.reconfigured
                (snd (fst (_get_decision_scores Demo.X_train Demo.reconfigured)))
                Demo.X_train Demo.rescored
                (snd (_get_decision_scores Demo.X_train Demo.reconfigured))
                H1 H2 H3) as T.
  split; [exact (proj1 T) | exact (proj1 (proj2 (proj2 T)))].
Defined.

(** C10 on the fitted object: the call leaves the training matrix alone. *)
Lemma decision_function_not_read_only_witness :
  X_train_norm_
    (snd (fst (decision_function Demo.X_train Demo.fitted_object)))
    = X_train_norm_ Demo.fitted_object.
Proof.
  pose proof (proj1 decision_function_not_read_only Demo.collaborators
                Demo.fitted_object
                (snd (fst (decision_function Demo.X_train Demo.fitted_object)))
                Demo.X_train
                (fst (fst (decision_function Demo.X_train Demo.fitted_object)))
                (snd (decision_function Demo.X_train Demo.fitted_object))
                (run_eta_all _)) as T.
  exact (proj1 T).
Defined.

(** * Further properties of the module *)

(** ** The constructor *)

Section Constructor.

Context {collab : Collaborators}.

(** X1: the constructor fails, with an assertion error, exactly when it is
    given fewer than two estimators.  Otherwise it returns an unfitted
    object that keeps the estimators and the configured values, with
    [local_max_features] above 1.0 reduced to 1.0 under a warning and
    left alone, without any warning, otherwise.  (The estimators and the
    contamination are taken to pass the checks made outside the
    module.) *)
Theorem constructor_outcome (ests : list Estimator) (size : Z) (lmf : Q)
  (bins : Z) (g : RandomState) (c : Q) :
  match __init__ ests size lmf bins g c with
  | (Raise e, w) => e = AssertionError /\ w = [] /\ (length ests < 2)%nat
  | (Ok s, w) =>
      (2 <= length ests)%nat /\
      constructed s /\ ~ fitted s /\
      estimator_list s = ests /\ n_clf s = length ests /\
      local_region_size s = size /\ n_bins s = bins /\
      random_state s = g /\ contamination s = c /\
      decision_scores_ s = None /\
      ((lmf <= 1 /\ local_max_features s = lmf /\ w = []) \/
       (1 < lmf /\ local_max_features s = 1 /\
        w = [LocalMaxFeaturesReduced]))
  end.
Proof.
  destruct (__init__ ests size lmf bins g c) as [[s|e] w] eqn:E.
  - assert (C := init_constructed _ _ _ _ _ _ _ _ E).
    unfold __init__ in E.
    destruct (Nat.ltb_spec 1 (length ests)) as [L|L]; [|discriminate].
    split; [lia|]. split; [exact C|].
    destruct (Qleb lmf 1) eqn:Q; inversion E; subst; clear E.
    + apply Qleb_true in Q.
      split; [intros [F _]; apply F; reflexivity|].
      repeat split. left. repeat split. exact Q.
    + apply Qleb_false in Q.
      split; [intros [F _]; apply F; reflexivity|].
      repeat split. right. repeat split. exact Q.
  - unfold __init__ in E.
    destruct (Nat.ltb_spec 1 (length ests)) as [L|L].
    + destruct (Qleb lmf 1); discriminate.
    + inversion E; subst. repeat split. lia.
Qed.

(** X2: an object that has only been constructed refuses
    [decision_function] with the not-fitted error, before it looks at the
    query: nothing is written and nothing is warned about. *)
Theorem constructed_object_refuses_queries (ests : list Estimator) (size : Z)
  (lmf : Q) (bins : Z) (g : RandomState) (c : Q) (s : LSCP)
  (w : list warning) (X : matrix) :
  __init__ ests size lmf bins g c = (Ok s, w) ->
  decision_function X s = (Raise NotFittedError, s, []).
Proof.
  intro E. rewrite decision_function_unfold. unfold __init__ in E.
  destruct (1 <? length ests)%nat; [|discriminate].
  destruct (Qleb lmf 1); inversion E; subst; reflexivity.
Qed.

End Constructor.

(** ** [fit] *)

Lemma map_seq_eq {A B} (l : list A) : forall (f : nat -> B) (g : A -> B),
  (forall i a, nth_error l i = Some a -> f i = g a) ->
  map f (seq 0 (length l)) = map g l.
Proof.
  induction l as [|a l IH]; intros f g H; simpl; [reflexivity|].
  rewrite (H 0%nat a eq_refl). f_equal.
  rewrite <- seq_shift, map_map. apply IH.
  intros i b Hi. apply (H (S i) b). exact Hi.
Qed.

Lemma fit_columns_ok X (ests : list Estimator) : forall k m,
  (k + length ests <= m)%nat ->
  fit_columns X k m ests =
    (Ok (map (fun e => map (scorer e X) X) ests), map (estimator_fit X) ests).
Proof.
  induction ests as [|e ests IH]; intros k m H; simpl; [reflexivity|].
  unfold estimator_decision_scores_. cbn [trained_on estimator_fit scorer].
  destruct (Nat.ltb_spec k m); [|simpl in H; lia].
  rewrite IH by (simpl in H; lia). reflexivity.
Qed.

Lemma fill_columns_scores (X : matrix) (ests : list Estimator) :
  fill_columns (n_rows X) (length ests)
    (map (fun e => map (scorer e X) X) ests) =
  map (fun row => map (fun e => scorer e X row) ests) X.
Proof.
  unfold fill_columns, n_rows. apply map_seq_eq. intros i row Hi.
  apply map_seq_eq. intros k e Hk.
  rewrite (nth_error_nth _ _ [] (map_nth_error _ _ _ Hk)).
  apply nth_error_nth. apply map_nth_error. exact Hi.
Qed.

Section Fit.

Context {collab : Collaborators}.

(** The object on which [fit] runs its scoring call. *)
Lemma fit_success X s s1 w :
  constructed s ->
  fit X s = (Ok tt, s1, w) ->
  check_array X = Ok X /\
  exists scores s3,
    let s2 :=
      set_train_scores_
        (map (fun row => map (fun e => scorer e X row) (estimator_list s)) X)
        (set_estimator_list (map (estimator_fit X) (estimator_list s))
           (set_X_train_norm_ X (set_n_features_ (n_cols X) s))) in
    _get_decision_scores X s2 = (Ok scores, s3, w) /\
    s1 = set_decision_scores_ scores s3.
Proof.
  intros C H. rewrite fit_unfold in H.
  destruct (check_array X) as [X'|e] eqn:EX; [|discriminate].
  destruct (check_array_ok _ _ EX) as [-> _]. split; [reflexivity|].
  cbv zeta in H. destruct C as [Cn _].
  rewrite fit_columns_ok in H by (rewrite Cn; lia). cbn [fst snd] in H.
  rewrite Cn, fill_columns_scores in H. cbv zeta.
  match type of H with context [_get_decision_scores X ?t] =>
    destruct (_get_decision_scores X t) as [[[scores|e] s3] w3] eqn:ED end;
    [|discriminate].
  inversion H; subst. exists scores, s3. split; reflexivity.
Qed.

(** X3: a [fit] that returns has validated the training matrix and leaves
    a fitted object: the training matrix and its feature count are
    stored, [decision_scores_] holds one score per training row, and what
    the constructor established still holds. *)
Theorem fit_leaves_fitted_object (X : matrix) (s s1 : LSCP)
  (w : list warning) :
  constructed s ->
  fit X s = (Ok tt, s1, w) ->
  check_array X = Ok X /\
  fitted s1 /\ constructed s1 /\
  X_train_norm_ s1 = Some X /\ n_features_ s1 = Some (n_cols X) /\
  exists scores,
    decision_scores_ s1 = Some scores /\ length scores = n_rows X.
Proof.
  intros C H.
  destruct (fit_establishes X s s1 w C H) as [F [C1 [HX Hn]]].
  destruct (fit_success X s s1 w C H) as [Hc [scores [s3 [E ->]]]].
  split; [exact Hc|]. split; [exact F|]. split; [exact C1|].
  split; [exact HX|]. split; [exact Hn|].
  exists scores. split; [reflexivity|].
  destruct (decision_scores_state _ _ _ _ _ E) as [_ [_ R]].
  exact (proj1 (R _ eq_refl)).
Qed.

(** X4: a [fit] that returns has fitted every estimator on the training
    matrix, in place and in order, and has stored the train score matrix
    whose entry in row [i] and column [k] is the score estimator [k]
    gives training row [i]. *)
Theorem fit_trains_every_estimator (X : matrix) (s s1 : LSCP)
  (w : list warning) :
  constructed s ->
  fit X s = (Ok tt, s1, w) ->
  estimator_list s1 = map (estimator_fit X) (estimator_list s) /\
  Forall (trained_with X) (estimator_list s1) /\
  length (estimator_list s1) = n_clf s1 /\
  train_scores_ s1 =
    Some (map (fun row => map (fun e => scorer e X row) (estimator_list s)) X).
Proof.
  intros C H.
  destruct (fit_success X s s1 w C H) as [_ [scores [s3 [E ->]]]].
  cbv zeta in E.
  destruct (decision_scores_frame _ _ _ _ _ E) as [_ [F2 [_ [F4 _]]]].
  destruct (decision_scores_bins _ _ _ _ _ E) as [Nc _].
  cbn in F2, F4, Nc.
  cbn [estimator_list train_scores_ n_clf set_decision_scores_].
  rewrite F2, F4, Nc. split; [reflexivity|]. split.
  - apply Forall_map, Forall_forall. intros e _. reflexivity.
  - split; [|reflexivity]. rewrite length_map. symmetry. exact (proj1 C).
Qed.

(** X5: a [fit] that returns leaves in [n_bins] the smaller of the
    configured bin count and the number of estimators, and has warned
    about the reduction once if there was one and not at all
    otherwise. *)
Theorem fit_clamps_n_bins (X : matrix) (s s1 : LSCP) (w : list warning) :
  constructed s ->
  fit X s = (Ok tt, s1, w) ->
  n_bins s1 = Z.min (n_bins s) (Z.of_nat (n_clf s)) /\
  n_clf s1 = n_clf s /\
  filter is_bins_reduced w =
    (if (Z.of_nat (n_clf s) <? n_bins s)%Z then [BinsReduced] else []).
Proof.
  intros C H.
  destruct (fit_success X s s1 w C H) as [Hc [scores [s3 [E ->]]]].
  cbv zeta in E. destruct (check_array_ok _ _ Hc) as [_ HX].
  destruct (decision_scores_bins _ _ _ _ _ E)
    as [Nc [[_ [_ [E0|[e E0]]]]|[B W]]]; [contradiction | discriminate |].
  cbn [n_bins n_clf set_decision_scores_]. rewrite B, W, Nc.
  rewrite n_bins_clamp. unfold clamp_warnings. cbn.
  repeat split.
Qed.

End Fit.

(** ** [decision_function] *)

Section Queries.

Context {collab : Collaborators}.

(** X6: a [decision_function] that returns was given a non-empty batch
    and returns exactly one score per query row; its warnings are the
    region-size warning, if the configured size lies outside the
    recommended range, followed by the bin-count warning, if the stored
    bin count exceeded the number of estimators. *)
Theorem decision_function_one_score_per_row (X : matrix) (s s1 : LSCP)
  (scores : list f64) (w : list warning) :
  decision_function X s = (Ok scores, s1, w) ->
  X <> [] /\
  length scores = n_rows X /\
  w = region_size_warnings s ++ clamp_warnings s.
Proof.
  intro H. rewrite decision_function_unfold in H.
  destruct (training_pseudo_label_ s); [|discriminate].
  destruct (train_scores_ s); [|discriminate].
  destruct (X_train_norm_ s); [|discriminate].
  destruct (n_features_ s) as [d|]; [|discriminate].
  destruct (check_array X) as [X'|e] eqn:EX; [|discriminate].
  destruct (check_array_ok _ _ EX) as [-> HX].
  destruct (d =? n_cols X)%nat; [|discriminate].
  split; [exact HX|].
  destruct (decision_scores_state _ _ _ _ _ H) as [_ [P R]].
  split; [exact (proj1 (R _ eq_refl))|].
  destruct P as [[_ [_ [e E]]]|[[p [_ [_ [E|[e E]]]]]|[p [_ W]]]];
    try discriminate; [contradiction | exact W].
Qed.

Lemma decision_function_keeps_configuration_aux X s r s1 w :
  decision_function X s = (r, s1, w) ->
  estimator_list s1 = estimator_list s /\ decision_scores_ s1 = decision_scores_ s.
Proof.
  intro H. rewrite decision_function_unfold in H.
  assert (Same : (r, s1, w) = (r, s, []) ->
    estimator_list s1 = estimator_list s /\
    decision_scores_ s1 = decision_scores_ s).
  { intro E; inversion E; subst. split; reflexivity. }
  destruct (training_pseudo_label_ s); [|apply Same; congruence].
  destruct (train_scores_ s); [|apply Same; congruence].
  destruct (X_train_norm_ s); [|apply Same; congruence].
  destruct (n_features_ s) as [d|]; [|apply Same; congruence].
  destruct (check_array X) as [X'|e]; [|apply Same; congruence].
  destruct (d =? n_cols X')%nat; [|apply Same; congruence].
  destruct (decision_scores_frame _ _ _ _ _ H) as [_ [_ [_ [F4 [F5 _]]]]].
  split; assumption.
Qed.

(** X7: whatever its outcome, [decision_function] never refits or
    replaces an estimator, never touches [decision_scores_] and changes
    no configured value except [n_bins], which either stays or becomes
    the number of estimators. *)
Theorem decision_function_keeps_configuration (X : matrix) (s s1 : LSCP)
  (r : outcome (list f64)) (w : list warning) :
  decision_function X s = (r, s1, w) ->
  estimator_list s1 = estimator_list s /\
  decision_scores_ s1 = decision_scores_ s /\
  n_clf s1 = n_clf s /\
  contamination s1 = contamination s /\
  local_region_size s1 = local_region_size s /\
  local_max_features s1 = local_max_features s /\
  local_min_features s1 = local_min_features s /\
  local_region_iterations s1 = local_region_iterations s /\
  local_region_threshold s1 = local_region_threshold s /\
  n_selected s1 = n_selected s /\
  (n_bins s1 = n_bins s \/ n_bins s1 = Z.of_nat (n_clf s)).
Proof.
  intro H. rewrite decision_function_unfold in H.
  assert (Same : (r, s1, w) = (r, s, []) ->
    estimator_list s1 = estimator_list s /\
    decision_scores_ s1 = decision_scores_ s /\
    n_clf s1 = n_clf s /\
    contamination s1 = contamination s /\
    local_region_size s1 = local_region_size s /\
    local_max_features s1 = local_max_features s /\
    local_min_features s1 = local_min_features s /\
    local_region_iterations s1 = local_region_iterations s /\
    local_region_threshold s1 = local_region_threshold s /\
    n_selected s1 = n_selected s /\
    (n_bins s1 = n_bins s \/ n_bins s1 = Z.of_nat (n_clf s))).
  { intro E; inversion E; subst. repeat split. left. reflexivity. }
  destruct (training_pseudo_label_ s); [|apply Same; congruence].
  destruct (train_scores_ s); [|apply Same; congruence].
  destruct (X_train_norm_ s); [|apply Same; congruence].
  destruct (n_features_ s) as [d|]; [|apply Same; congruence].
  destruct (check_array X) as [X'|e]; [|apply Same; congruence].
  destruct (d =? n_cols X')%nat; [|apply Same; congruence].
  destruct (decision_scores_state _ _ _ _ _ H) as [_ [P _]].
  destruct P as [[A _]|[[p [A _]]|[p [A _]]]]; rewrite A.
  - repeat split. left. reflexivity.
  - repeat split. left. reflexivity.
  - unfold clamp.
    cbn [n_clf n_bins set_training_pseudo_label_ set_random_state].
    destruct (_ <? _)%Z; repeat split; [right | left]; reflexivity.
Qed.

End Queries.

(** ** The container methods *)

Lemma py_list_index_spec {A} (l : list A) (index : Z) :
  let n := Z.of_nat (length l) in
  ((0 <= index < n)%Z ->
     py_list_index l index = nth_error l (Z.to_nat index) /\
     py_list_index l (index - n) = nth_error l (Z.to_nat index) /\
     py_list_index l index <> None) /\
  ((index < - n \/ n <= index)%Z -> py_list_index l index = None).
Proof.
  cbv zeta. unfold py_list_index. split.
  - intros [H0 H1].
    destruct (Z.leb_spec 0 index); [|lia].
    destruct (Z.leb_spec 0 (index - Z.of_nat (length l))); [lia|].
    destruct (Z.leb_spec (- Z.of_nat (length l)) (index - Z.of_nat (length l)));
      [|lia].
    split; [reflexivity|]. split.
    + f_equal. lia.
    + apply nth_error_Some. lia.
  - intros [H|H].
    + destruct (Z.leb_spec 0 index); [lia|].
      destruct (Z.leb_spec (- Z.of_nat (length l)) index); [lia | reflexivity].
    + destruct (Z.leb_spec 0 index); [|lia].
      apply nth_error_None. lia.
Qed.

Section Container.

Context {collab : Collaborators}.

(** X8: on a constructed object [len] is the number of estimators, at
    least two; indexing succeeds exactly for the indices from [-len] to
    [len - 1], an index [i - len] giving the same estimator as [i], and
    raises the index error otherwise; indexing over [range(len)] visits
    the estimators in the order in which iteration yields them.  No
    container method writes to the object. *)
Theorem container_methods_agree (s : LSCP) :
  constructed s ->
  let n := Z.of_nat (n_clf s) in
  __len__ s = (Ok (n_clf s), s, []) /\ (2 <= n_clf s)%nat /\
  __iter__ s = (Ok (estimator_list s), s, []) /\
  (forall i e, nth_error (estimator_list s) i = Some e ->
     __getitem__ (Z.of_nat i) s = (Ok e, s, []) /\
     __getitem__ (Z.of_nat i - n) s = (Ok e, s, [])) /\
  (forall index, (- n <= index < n)%Z ->
     exists e, __getitem__ index s = (Ok e, s, [])) /\
  (forall index, (index < - n \/ n <= index)%Z ->
     __getitem__ index s = (Raise IndexError, s, [])).
Proof.
  intros [Cn [Cm _]] n.
  assert (G : forall index,
    __getitem__ index s =
      (of_option (py_list_index (estimator_list s) index) IndexError, s, [])).
  { intro index. unfold __getitem__. rewrite bind_get. reflexivity. }
  split; [unfold __len__; rewrite bind_get, Cn; reflexivity|].
  split; [exact Cm|].
  split; [unfold __iter__; rewrite bind_get; reflexivity|].
  assert (L : Z.of_nat (length (estimator_list s)) = n)
    by (unfold n; rewrite Cn; reflexivity).
  split; [|split].
  - intros i e Hi.
    assert (Hlt : (i < length (estimator_list s))%nat)
      by (apply nth_error_Some; congruence).
    destruct (py_list_index_spec (estimator_list s) (Z.of_nat i)) as [P _].
    destruct P as [P1 [P2 _]]; [lia|].
    rewrite Nat2Z.id in P1, P2. rewrite L in P2.
    rewrite !G, P1, P2, Hi. split; reflexivity.
  - intros index [H0 H1]. rewrite G.
    destruct (Z.leb_spec 0 index) as [Hp|Hn].
    + destruct (py_list_index_spec (estimator_list s) index) as [P _].
      destruct P as [_ [_ P3]]; [lia|].
      destruct (py_list_index (estimator_list s) index) as [e|];
        [exists e; reflexivity | congruence].
    + destruct (py_list_index_spec (estimator_list s) (index + n)) as [P _].
      destruct P as [P1 [P2 P3]]; [lia|].
      rewrite L in P2. replace (index + n - n)%Z with index in P2 by lia.
      rewrite <- P1 in P2. rewrite P2.
      destruct (py_list_index (estimator_list s) (index + n)) as [e|];
        [exists e; reflexivity | congruence].
  - intros index H. rewrite G.
    destruct (py_list_index_spec (estimator_list s) index) as [_ P].
    rewrite P by lia. reflexivity.
Qed.

Lemma fit_keeps_length X s r s1 w :
  fit X s = (r, s1, w) ->
  length (estimator_list s1) = length (estimator_list s).
Proof.
  rewrite fit_unfold.
  destruct (check_array X) as [X'|e]; [|intro H; inversion H; reflexivity].
  cbv zeta.
  assert (L := fit_columns_length X' (estimator_list s) 0 (n_clf s)).
  destruct (fit_columns X' 0 (n_clf s) (estimator_list s)) as [[cols|e] l];
    cbn [fst snd] in *; [|intro H; inversion H; subst; exact L].
  match goal with |- context [_get_decision_scores X' ?t] =>
    destruct (_get_decision_scores X' t) as [[[scores|e] s3] w3] eqn:ED end;
    destruct (decision_scores_frame _ _ _ _ _ ED) as [_ [_ [_ [F _]]]];
    cbn in F; intro H; inversion H; subst; cbn;
    first [exact L | rewrite F; exact L].
Qed.

(** X9: neither [fit] nor [decision_function], whatever their outcome,
    changes what [len] returns. *)
Theorem len_is_stable (X : matrix) (s : LSCP) :
  fst (fst (__len__ (snd (fst (fit X s))))) = fst (fst (__len__ s)) /\
  fst (fst (__len__ (snd (fst (decision_function X s)))))
    = fst (fst (__len__ s)).
Proof.
  unfold __len__. rewrite !bind_get. cbn [ret fst snd]. split; f_equal.
  - destruct (fit X s) as [[r s1] w] eqn:E. cbn [fst snd].
    exact (fit_keeps_length _ _ _ _ _ E).
  - destruct (decision_function X s) as [[r s1] w] eqn:E. cbn [fst snd].
    destruct (decision_function_keeps_configuration_aux X s r s1 w E) as [F _].
    rewrite F. reflexivity.
Qed.

End Container.

(** ** The competency selector *)

Lemma where_from_length {A} (p : A -> bool) (l : list A) : forall k,
  length (where_from k (map p l)) = length (filter p l).
Proof.
  induction l as [|a l IH]; intro k; simpl; [reflexivity|].
  destruct (p a); simpl; rewrite IH; reflexivity.
Qed.

Lemma filter_length_le_impl {A} (p q : A -> bool) (l : list A) :
  (forall a, In a l -> p a = true -> q a = true) ->
  (length (filter p l) <= length (filter q l))%nat.
Proof.
  induction l as [|a l IH]; intro H; simpl; [lia|].
  assert (IH' : (length (filter p l) <= length (filter q l))%nat).
  { apply IH. intros b Hb. apply H. right. exact Hb. }
  destruct (p a) eqn:Pa.
  - rewrite (H a (or_introl eq_refl) Pa). simpl. lia.
  - destruct (q a); simpl; lia.
Qed.

(** Every value falls into one bin: the counts add up to the number of
    values. *)
Lemma indicator_sum (n j : nat) : forall start,
  list_sum (map (fun b => if (j =? b)%nat then 1 else 0)%nat (seq start n)) =
  (if ((start <=? j) && (j <? start + n))%nat%bool then 1 else 0)%nat.
Proof.
  induction n as [|n IH]; intro start; simpl.
  - destruct (Nat.leb_spec start j); destruct (Nat.ltb_spec j (start + 0));
      simpl; try reflexivity; lia.
  - rewrite IH.
    destruct (Nat.eqb_spec j start); destruct (Nat.leb_spec start j);
      destruct (Nat.leb_spec (S start) j);
      destruct (Nat.ltb_spec j (start + S n));
      destruct (Nat.ltb_spec j (S start + n)); simpl; try reflexivity; lia.
Qed.

Lemma count_bin_cons (first last : Q) (n : nat) (x : Q) (xs : list Q) (b : nat) :
  count_bin first last n (x :: xs) b =
  ((if (bin_index first last n x =? b)%nat then 1 else 0)
   + count_bin first last n xs b)%nat.
Proof.
  unfold count_bin. cbn [filter].
  destruct (bin_index first last n x =? b)%nat; reflexivity.
Qed.

Lemma histogram_total (first last : Q) (n : nat) (xs : list Q) :
  Forall (fun x => (bin_index first last n x < n)%nat) xs ->
  list_sum (map (count_bin first last n xs) (seq 0 n)) = length xs.
Proof.
  induction 1 as [|x xs Hx _ IH].
  - induction (seq 0 n) as [|b l IHl]; [reflexivity | exact IHl].
  - cbn [length]. rewrite <- IH.
    assert (E : forall l,
      list_sum (map (count_bin first last n (x :: xs)) l) =
      (list_sum (map (fun b => if (bin_index first last n x =? b)%nat
                               then 1 else 0)%nat l)
       + list_sum (map (count_bin first last n xs) l))%nat).
    { induction l as [|b l IHl]; [reflexivity|].
      unfold list_sum in *. cbn [map fold_right].
      rewrite IHl, count_bin_cons. lia. }
    rewrite E, indicator_sum.
    destruct (Nat.leb_spec 0 (bin_index first last n x)); [|lia].
    destruct (Nat.ltb_spec (bin_index first last n x) (0 + n)); [|lia].
    reflexivity.
Qed.

Lemma list_sum_bound (c : nat) (l : list nat) :
  (forall b x, nth_error l b = Some x -> (x <= c)%nat) ->
  (list_sum l <= c * length l)%nat.
Proof.
  induction l as [|x l IH]; intro H; simpl; [lia|].
  assert (x <= c)%nat by (apply (H 0%nat); reflexivity).
  assert (list_sum l <= c * length l)%nat.
  { apply IH. intros b y Hb. apply (H (S b)). exact Hb. }
  lia.
Qed.

Section SelectorMore.

Context {collab : Collaborators}.

(** What the selector returns, whenever it returns. *)
Lemma selector_returns (s s1 : LSCP) (scores : list f64)
  (candidates : list nat) (w : list warning) :
  n_selected s = 1%nat ->
  _get_competent_detectors scores s = (Ok candidates, s1, w) ->
  exists xs b,
    scores = map Fin xs /\
    (1 <= used_bins s)%nat /\ (b < used_bins s)%nat /\
    densest (map (count_bin (fst (outer_edges xs)) (snd (outer_edges xs))
                    (used_bins s) xs) (seq 0 (used_bins s))) b /\
    candidates =
      np_where (map (in_bin
        (bin_edge (fst (outer_edges xs)) (snd (outer_edges xs)) (used_bins s) b)
        (bin_edge (fst (outer_edges xs)) (snd (outer_edges xs)) (used_bins s)
           (b + 1))) scores).
Proof.
  intros Hsel E.
  assert (E0 := E). rewrite selector_unfold in E0. unfold np_histogram in E0.
  destruct (Z.ltb_spec (n_bins (clamp s)) 1) as [L|L]; [discriminate|].
  destruct (finite_values scores) as [xs|] eqn:Ef; [|discriminate].
  clear E0.
  destruct (selector_finite scores xs s Hsel L Ef) as [b [Hb [Hd E']]].
  rewrite E' in E. inversion E; subst candidates.
  exists xs, b. split; [apply finite_values_spec; exact Ef|].
  split; [unfold used_bins; lia|]. split; [exact Hb|]. split; [exact Hd|].
  reflexivity.
Qed.

(** X11: when all detectors have the same correlation score, the selector
    returns every detector. *)
Theorem equal_scores_select_all (s : LSCP) (x0 : Q) (xs : list Q) :
  n_selected s = 1%nat ->
  (1 <= n_bins s)%Z ->
  (1 <= n_clf s)%nat ->
  xs <> [] ->
  Forall (fun x => x == x0) xs ->
  _get_competent_detectors (map Fin xs) s =
    (Ok (seq 0 (length xs)), clamp s, clamp_warnings s).
Proof.
  intros Hsel Hb Hm Hne Heq.
  assert (Hc := clamp_bins_pos s Hb Hm).
  destruct (selector_candidates s xs Hne Hsel Hc) as [cands [E [L _]]].
  destruct (selector_returns s _ _ _ _ Hsel E)
    as [ys [b [Ey [_ [_ [_ Ec]]]]]].
  assert (ys = xs).
  { clear - Ey. revert ys Ey. induction xs as [|x xs IH]; intros [|y ys] H;
      simpl in H; try discriminate; [reflexivity|].
    inversion H; subst. f_equal. apply IH. assumption. }
  subst ys. rewrite E. f_equal. f_equal. f_equal. rewrite Ec.
  set (low := bin_edge _ _ _ b) in *. set (high := bin_edge _ _ _ (b + 1)) in *.
  (* one score lies in the bin, hence all of them do *)
  assert (Hin : exists x, In x xs /\ low <= x /\ x <= high).
  { destruct cands as [|i cands']; [simpl in L; lia|].
    assert (I : In i (np_where (map (in_bin low high) (map Fin xs))))
      by (rewrite <- Ec; left; reflexivity).
    apply In_selected in I. destruct I as [x [Hx Hr]].
    exists x. split; [eapply nth_error_In; exact Hx | exact Hr]. }
  destruct Hin as [x [Ix [H1 H2]]].
  rewrite Forall_forall in Heq.
  unfold np_where. rewrite where_from_all.
  - rewrite !length_map. reflexivity.
  - rewrite map_map. apply Forall_map, Forall_forall. intros y Iy.
    apply in_bin_Fin. rewrite (Heq y Iy), <- (Heq x Ix). split; assumption.
Qed.

(** X12: the selector raises a value error, returning no detector, when
    the bin count it would use is not positive, and when a score is
    undefined; by then it has already clamped [n_bins] and warned, and
    that stays so. *)
Theorem selector_errors (s : LSCP) (scores : list f64) :
  ((Z.min (n_bins s) (Z.of_nat (n_clf s)) < 1)%Z ->
   _get_competent_detectors scores s =
     (Raise (ValueError BinsNotPositive), clamp s, clamp_warnings s)) /\
  ((1 <= Z.min (n_bins s) (Z.of_nat (n_clf s)))%Z ->
   In NaN scores ->
   _get_competent_detectors scores s =
     (Raise (ValueError RangeNotFinite), clamp s, clamp_warnings s)).
Proof.
  rewrite <- n_bins_clamp. split.
  - intro H. rewrite selector_unfold. unfold np_histogram.
    destruct (Z.ltb_spec (n_bins (clamp s)) 1); [reflexivity | lia].
  - intros H N. rewrite selector_unfold. unfold np_histogram.
    destruct (Z.ltb_spec (n_bins (clamp s)) 1); [lia|].
    apply finite_values_None in N. rewrite N. reflexivity.
Qed.

(** X13: the selector returns at least the [1 / n_bins] share of the
    detectors, [n_bins] being the bin count it works with: the product of
    the number of candidates and the bin count is never below the number
    of detectors. *)
Theorem candidates_share (s s1 : LSCP) (xs : list Q)
  (candidates : list nat) (w : list warning) :
  n_selected s = 1%nat ->
  _get_competent_detectors (map Fin xs) s = (Ok candidates, s1, w) ->
  (length xs <= length candidates * used_bins s)%nat.
Proof.
  intros Hsel E.
  destruct (selector_returns s s1 _ candidates w Hsel E)
    as [ys [b [Ey [Hn [Hb [[c [Hc Hmax]] Ec]]]]]].
  assert (ys = xs).
  { clear - Ey. revert ys Ey. induction xs as [|x xs IH]; intros [|y ys] H;
      simpl in H; try discriminate; [reflexivity|].
    inversion H; subst. f_equal. apply IH. assumption. }
  subst ys.
  set (n := used_bins s) in *.
  set (first := fst (outer_edges xs)) in *.
  set (last := snd (outer_edges xs)) in *.
  destruct (outer_edges_spec xs) as [Hfl Hall]. fold first last in Hfl, Hall.
  rewrite Forall_forall in Hall.
  (* the counts add up to the number of scores *)
  assert (T : list_sum (map (count_bin first last n xs) (seq 0 n)) = length xs).
  { apply histogram_total. apply Forall_forall. intros x Hx.
    exact (proj1 (bin_index_spec first last x n Hfl Hn (Hall x Hx))). }
  (* no count exceeds that of the densest bin *)
  assert (B : (list_sum (map (count_bin first last n xs) (seq 0 n))
               <= c * n)%nat).
  { assert (Ln : length (map (count_bin first last n xs) (seq 0 n)) = n)
      by (rewrite length_map, length_seq; reflexivity).
    pose proof (list_sum_bound c (map (count_bin first last n xs) (seq 0 n))
                  (fun b' x Hb' => proj1 (Hmax b' x Hb'))) as Bd.
    rewrite Ln in Bd. exact Bd. }
  (* every score of the densest bin is a candidate *)
  rewrite nth_error_hist in Hc.
  destruct (Nat.ltb_spec b n); [|discriminate]. inversion Hc as [Hcb].
  assert (C : (c <= length candidates)%nat).
  { rewrite <- Hcb, Ec. unfold np_where, count_bin.
    rewrite map_map, where_from_length.
    apply filter_length_le_impl. intros x Hx Hbx.
    apply Nat.eqb_eq in Hbx. apply in_bin_Fin.
    destruct (bin_index_spec first last x n Hfl Hn (Hall x Hx)) as [_ [L1 L2]].
    rewrite Hbx in L1, L2. split; assumption. }
  rewrite <- T. nia.
Qed.

End SelectorMore.

(** ** The local region estimator *)

Lemma count_occ_split (a : nat) (v : list nat) :
  length v =
  (count_occ Nat.eq_dec v a
   + length (filter (fun x => negb (x =? a)%nat) v))%nat.
Proof.
  induction v as [|x v IH]; [reflexivity|].
  cbn [count_occ filter length].
  destruct (Nat.eq_dec x a) as [->|N].
  - rewrite Nat.eqb_refl. cbn [negb]. lia.
  - apply Nat.eqb_neq in N. rewrite N. cbn [negb length]. lia.
Qed.

Lemma count_occ_others (a i : nat) (v : list nat) :
  i <> a ->
  count_occ Nat.eq_dec (filter (fun x => negb (x =? a)%nat) v) i =
  count_occ Nat.eq_dec v i.
Proof.
  intro N. induction v as [|x v IH]; [reflexivity|].
  cbn [filter count_occ].
  destruct (Nat.eqb_spec x a) as [->|Nx]; cbn [negb].
  - destruct (Nat.eq_dec a i); [congruence | exact IH].
  - cbn [count_occ]. destruct (Nat.eq_dec x i); rewrite IH; reflexivity.
Qed.

(** Items that occur at least [c] times each share the votes among them. *)
Lemma frequent_count_bound (c : nat) (r : list nat) : forall v,
  NoDup r ->
  (forall i, In i r -> (c <= count_occ Nat.eq_dec v i)%nat) ->
  (c * length r <= length v)%nat.
Proof.
  induction r as [|a r IH]; intros v ND H; [simpl; lia|].
  inversion ND as [|a' r' Na ND']; subst.
  assert (Ha := H a (or_introl eq_refl)).
  assert (IH' := IH (filter (fun x => negb (x =? a)%nat) v) ND').
  rewrite (count_occ_split a v). cbn [length].
  assert (c * length r <= length (filter (fun x => negb (x =? a)%nat) v))%nat.
  { apply IH'. intros i Hi. rewrite count_occ_others.
    - apply H. right. exact Hi.
    - intros ->. contradiction. }
  lia.
Qed.

Lemma count_occ_total (n : nat) (v : list nat) :
  Forall (fun i => (i < n)%nat) v ->
  list_sum (map (count_occ Nat.eq_dec v) (seq 0 n)) = length v.
Proof.
  induction 1 as [|x v Hx _ IH].
  - induction (seq 0 n) as [|b l IHl]; [reflexivity | exact IHl].
  - cbn [length]. rewrite <- IH.
    assert (E : forall l,
      list_sum (map (count_occ Nat.eq_dec (x :: v)) l) =
      (list_sum (map (fun b => if (x =? b)%nat then 1 else 0)%nat l)
       + list_sum (map (count_occ Nat.eq_dec v) l))%nat).
    { induction l as [|b l IHl]; [reflexivity|].
      unfold list_sum in *. cbn [map fold_right]. rewrite IHl.
      destruct (Nat.eq_dec x b) as [->|N].
      - rewrite Nat.eqb_refl, count_occ_cons_eq by reflexivity. lia.
      - rewrite count_occ_cons_neq by exact N.
        apply Nat.eqb_neq in N. rewrite N. lia. }
    rewrite E, indicator_sum.
    destruct (Nat.leb_spec 0 x); [|lia].
    destruct (Nat.ltb_spec x (0 + n)); [|lia].
    reflexivity.
Qed.

Lemma list_sum_two_levels (f : nat -> nat) (p : nat -> bool) (hi lo : nat)
  (l : list nat) :
  (forall i, In i l -> p i = true -> (f i <= hi)%nat) ->
  (forall i, In i l -> p i = false -> (f i <= lo)%nat) ->
  (list_sum (map f l)
   <= hi * length (filter p l) + lo * (length l - length (filter p l)))%nat.
Proof.
  intros H1 H2.
  assert (L : (length (filter p l) <= length l)%nat) by apply filter_length_le.
  induction l as [|a l IH]; [simpl; lia|].
  assert (L' : (length (filter p l) <= length l)%nat) by apply filter_length_le.
  assert (IH' := IH (fun i Hi => H1 i (or_intror Hi))
                    (fun i Hi => H2 i (or_intror Hi)) L').
  unfold list_sum in *. cbn [map fold_right filter length] in *.
  destruct (p a) eqn:Pa.
  - assert (f a <= hi)%nat by (apply H1; [left; reflexivity | exact Pa]).
    cbn [length]. nia.
  - assert (f a <= lo)%nat by (apply H2; [left; reflexivity | exact Pa]).
    nia.
Qed.

(** When no item occurs more than [2 * t] times among votes for [n]
    items, the items that occur more than [t] times make up for what the
    others cannot hold. *)
Lemma majority_lower_bound (t n : nat) (v r : list nat) :
  Forall (fun i => (i < n)%nat) v ->
  (forall i, (count_occ Nat.eq_dec v i <= 2 * t)%nat) ->
  NoDup r ->
  (forall i, In i r <-> (t < count_occ Nat.eq_dec v i)%nat) ->
  (length v <= t * n + t * length r)%nat.
Proof.
  intros Hv Hmax ND Hr.
  set (p := fun i => (t <? count_occ Nat.eq_dec v i)%nat).
  assert (S := list_sum_two_levels (count_occ Nat.eq_dec v) p (2 * t) t
                 (seq 0 n)).
  rewrite (count_occ_total n v Hv), length_seq in S.
  assert (A : (length (filter p (seq 0 n)) <= length r)%nat).
  { apply NoDup_incl_length.
    - apply NoDup_filter, seq_NoDup.
    - intros i Hi. apply filter_In in Hi. destruct Hi as [_ Hi].
      apply Hr. apply Nat.ltb_lt. exact Hi. }
  assert (B : (length (filter p (seq 0 n)) <= n)%nat).
  { pose proof (filter_length_le p (seq 0 n)) as Bl.
    rewrite length_seq in Bl. exact Bl. }
  assert (S' : (length v <= 2 * t * length (filter p (seq 0 n))
                           + t * (n - length (filter p (seq 0 n))))%nat).
  { apply S.
    - intros i _ _. apply Hmax.
    - intros i _ Hp. unfold p in Hp. apply Nat.ltb_ge in Hp. exact Hp. }
  nia.
Qed.

Lemma select_columns_rows (A : matrix) (cols : list nat) : forall B,
  select_columns A cols = Some B -> length B = length A.
Proof.
  induction A as [|r A IH]; intros B H; simpl in H.
  - inversion H. reflexivity.
  - destruct (take r cols); [|discriminate].
    destruct (select_columns A cols) as [B'|]; [|discriminate].
    inversion H. simpl. rewrite (IH B' eq_refl). reflexivity.
Qed.

Lemma add_neighbors_counts (n : nat) (ind_arr : list (list nat)) :
  Forall (fun nb => NoDup nb /\ Forall (fun i => (i < n)%nat) nb) ind_arr ->
  forall lrl t lrl',
    Forall (fun v => (forall i, (count_occ Nat.eq_dec v i <= t)%nat) /\
                     Forall (fun i => (i < n)%nat) v) lrl ->
    add_neighbors lrl ind_arr = Ok lrl' ->
    Forall (fun v => (forall i, (count_occ Nat.eq_dec v i <= t + 1)%nat) /\
                     Forall (fun i => (i < n)%nat) v) lrl'.
Proof.
  induction 1 as [|nb ind_arr [Hnd Hnb] Hrest IH]; intros lrl t lrl' Hl E.
  - destruct lrl; simpl in E; [|discriminate]. inversion E. constructor.
  - destruct lrl as [|r rest]; simpl in E.
    + inversion E. constructor.
    + inversion Hl as [|r' rest' [Hc Hr] Hl']; subst.
      destruct (add_neighbors rest ind_arr) as [t'|] eqn:Er; [|discriminate].
      inversion E; subst. constructor; [|exact (IH _ _ _ Hl' Er)].
      split.
      * intro i. rewrite count_occ_app.
        assert (count_occ Nat.eq_dec nb i <= 1)%nat
          by (apply (proj1 (NoDup_count_occ Nat.eq_dec nb)); exact Hnd).
        specialize (Hc i). lia.
      * apply Forall_app. split; assumption.
Qed.

Section RegionSize.

Context {collab : Collaborators}.

Ltac unfold_monad :=
  unfold attr, index, raise in *;
  unfold bind, get, put, ret, lift, warn, of_option in *.

Lemma local_region_iteration_counts X X_train lrl s votes s1 w t :
  knn_distinct_contract ->
  X_train_norm_ s = Some X_train ->
  local_region_iteration X lrl s = (Ok votes, s1, w) ->
  Forall (fun v => (forall i, (count_occ Nat.eq_dec v i <= t)%nat) /\
                   Forall (fun i => (i < n_rows X_train)%nat) v) lrl ->
  Forall (fun v => (forall i, (count_occ Nat.eq_dec v i <= t + 1)%nat) /\
                   Forall (fun i => (i < n_rows X_train)%nat) v) votes.
Proof.
  intros K EX.
  unfold local_region_iteration, bind at 1. rewrite draw_features_unfold.
  rewrite EX.
  cbv zeta. destruct (generate_bagging_indices _ _ _ _) as [[features|e] g];
    cbn [fst snd]; [|discriminate].
  unfold_monad. cbn [X_train_norm_ set_random_state local_region_size].
  rewrite EX.
  destruct (select_columns X_train features) as [train_sub|] eqn:ET; cbn;
    [|discriminate].
  destruct (select_columns X features); cbn; [|discriminate].
  destruct (kdtree_query _ _ _) as [ind_arr|] eqn:EK; cbn; [|discriminate].
  destruct (add_neighbors lrl ind_arr) as [lrl'|] eqn:EA; [|discriminate].
  intros H Hl. inversion H; subst.
  eapply add_neighbors_counts; [|exact Hl | exact EA].
  apply K in EK. rewrite (select_columns_rows _ _ _ ET) in EK. exact EK.
Qed.

Lemma votes_loop_counts X X_train (n : nat) :
  knn_distinct_contract -> forall lrl s votes s1 w t,
  X_train_norm_ s = Some X_train ->
  for_range n (local_region_iteration X) lrl s = (Ok votes, s1, w) ->
  Forall (fun v => (forall i, (count_occ Nat.eq_dec v i <= t)%nat) /\
                   Forall (fun i => (i < n_rows X_train)%nat) v) lrl ->
  Forall (fun v => (forall i, (count_occ Nat.eq_dec v i <= t + n)%nat) /\
                   Forall (fun i => (i < n_rows X_train)%nat) v) votes.
Proof.
  intro K. induction n as [|n IH]; intros lrl s votes s1 w t EX H Hl;
    simpl in H.
  - inversion H; subst. eapply Forall_impl; [|exact Hl].
    simpl. intros v [A B]. split; [|exact B]. intro i. specialize (A i). lia.
  - unfold bind in H.
    destruct (local_region_iteration X lrl s) as [[[lrl'|e] s'] w'] eqn:E;
      [|discriminate].
    destruct (for_range n (local_region_iteration X) lrl' s')
      as [[r2 s2] w2] eqn:E2.
    inversion H; subst.
    assert (B := local_region_iteration_counts _ _ _ _ _ _ _ _ K EX E Hl).
    destruct (local_region_iteration_state _ _ _ _ _ _ E) as [C _].
    assert (EX' : X_train_norm_ s' = Some X_train)
      by (rewrite C; cbn [X_train_norm_ set_random_state]; exact EX).
    assert (G := IH _ _ _ _ _ _ EX' E2 B).
    eapply Forall_impl; [|exact G].
    simpl. intros v [A1 A2]. split; [|exact A2].
    intro i. specialize (A1 i). lia.
Qed.

(** X14: a local region holds fewer than twice [local_region_size]
    training points: eleven times its size is at most twenty times
    [local_region_size], since each of its points took more than ten of
    the [20 * local_region_size] votes. *)
Theorem local_region_at_most (X : matrix) (s s1 : LSCP)
  (regions : list (list nat)) (w : list warning) :
  knn_contract ->
  constructed s ->
  _get_local_region X s = (Ok regions, s1, w) ->
  Forall (fun r => NoDup r /\
            (11 * length r <= 20 * Z.to_nat (local_region_size s))%nat)
    regions.
Proof.
  intros K [_ [_ [_ [_ [_ [_ [Hit [Hth _]]]]]]]] E.
  rewrite get_local_region_unfold in E.
  destruct (raw_votes X s) as [[[votes|e] s'] w'] eqn:Hv; [|discriminate].
  inversion E; subst. clear E.
  unfold raw_votes in Hv. rewrite bind_get, Hit in Hv.
  destruct (votes_loop_length X 20 K _ _ _ _ _ 0%nat Hv) as [_ F].
  { apply Forall_forall. intros x Hx. apply repeat_spec in Hx. subst.
    reflexivity. }
  apply Forall_map. eapply Forall_impl; [|exact F]. simpl. intros v L.
  rewrite Hth.
  destruct (frequent_items_spec 10 v) as [A [B _]]; [lia|].
  split; [exact B|].
  assert (G := frequent_count_bound 11 (frequent_items 10 v) v B).
  rewrite L in G. apply G. intros i Hi. apply A in Hi. lia.
Qed.

(** X15: when the neighbour query returns distinct training points, no
    training point takes more than one vote per iteration, so that a local
    region cannot be smaller than twice [local_region_size] minus the
    number of training points; its members are indices of training
    points. *)
Theorem local_region_at_least (X X_train : matrix) (s s1 : LSCP)
  (regions : list (list nat)) (w : list warning) :
  knn_contract ->
  knn_distinct_contract ->
  constructed s ->
  X_train_norm_ s = Some X_train ->
  _get_local_region X s = (Ok regions, s1, w) ->
  Forall (fun r =>
            (2 * Z.to_nat (local_region_size s)
             <= length r + n_rows X_train)%nat /\
            Forall (fun i => (i < n_rows X_train)%nat) r)
    regions.
Proof.
  intros K KD [_ [_ [_ [_ [_ [_ [Hit [Hth _]]]]]]]] EX E.
  rewrite get_local_region_unfold in E.
  destruct (raw_votes X s) as [[[votes|e] s'] w'] eqn:Hv; [|discriminate].
  inversion E; subst. clear E.
  unfold raw_votes in Hv. rewrite bind_get, Hit in Hv.
  assert (I0 : Forall (fun v : list nat =>
                  (forall i, (count_occ Nat.eq_dec v i <= 0)%nat) /\
                  Forall (fun i => (i < n_rows X_train)%nat) v)
                (repeat [] (n_rows X))).
  { apply Forall_forall. intros x Hx. apply repeat_spec in Hx. subst.
    split; [intro i; simpl; lia | constructor]. }
  assert (C := votes_loop_counts X X_train 20 KD _ _ _ _ _ 0%nat EX Hv I0).
  destruct (votes_loop_length X 20 K _ _ _ _ _ 0%nat Hv) as [_ F].
  { apply Forall_forall. intros x Hx. apply repeat_spec in Hx. subst.
    reflexivity. }
  apply Forall_map. rewrite Forall_forall in C, F. apply Forall_forall.
  intros v Hin. destruct (C v Hin) as [C1 C2]. assert (L := F v Hin).
  rewrite Hth.
  destruct (frequent_items_spec 10 v) as [A [B [I _]]]; [lia|].
  split.
  - assert (G := majority_lower_bound 10 (n_rows X_train) v
                   (frequent_items 10 v) C2).
    rewrite L in G. cbn [Nat.add Nat.mul] in G.
    assert (length v <= 10 * n_rows X_train
                        + 10 * length (frequent_items 10 v))%nat.
    { rewrite L. apply G.
      - intro i. specialize (C1 i). simpl in C1. lia.
      - exact B.
      - intro i. rewrite A. lia. }
    lia.
  - apply Forall_forall. intros i Hi. rewrite Forall_forall in C2.
    apply C2, I, Hi.
Qed.

End RegionSize.

(** ** The ensemble score of an instance *)




Section InstanceScore.

Context {collab : Collaborators}.


(** X17: an array that [check_array] refuses is refused by [fit] and, on
    a fitted object, by [decision_function], with [check_array]'s
    exception and without a warning.  [fit] has by then assigned
    [random_state] (line 147 precedes the validation) and no other
    attribute; [decision_function], which validates first, leaves the
    object as it was. *)
Theorem invalid_array_refused (X : matrix) (s : LSCP) (e : exn) :
  check_array X = Raise e ->
  fst (fst (fit X s)) = Raise e /\
  snd (fit X s) = [] /\
  snd (fst (fit X s)) =
    set_random_state (random_state (snd (fst (fit X s)))) s /\
  (fitted s -> decision_function X s = (Raise e, s, [])).
Proof.
  intro H. rewrite fit_unfold, H. cbn [fst snd].
  split; [reflexivity|]. split; [reflexivity|].
  split; [symmetry; apply set_random_state_same|].
  intros [F1 [F2 [F3 F4]]]. rewrite decision_function_unfold.
  destruct (training_pseudo_label_ s); [|congruence].
  destruct (train_scores_ s); [|congruence].
  destruct (X_train_norm_ s); [|congruence].
  destruct (n_features_ s); [|congruence].
  rewrite H. reflexivity.
Qed.

End InstanceScore.

(** ** The training scores can be replayed *)

Section Replay.

Context {collab : Collaborators}.

Lemma scoring_view_set_random_state g s :
  scoring_view (set_random_state g s) = set_random_state g (scoring_view s).
Proof. unfold scoring_view, clamp. cbn. destruct (_ <? _)%Z; reflexivity. Qed.

Lemma selecting_view_clamp s : selecting_view (clamp s) = selecting_view s.
Proof.
  unfold selecting_view. rewrite clamp_idem. unfold clamp.
  destruct (_ <? _)%Z; reflexivity.
Qed.

Lemma scoring_view_clamp s : scoring_view (clamp s) = scoring_view s.
Proof.
  unfold scoring_view. rewrite clamp_idem. unfold clamp.
  destruct (_ <? _)%Z; reflexivity.
Qed.

Lemma scoring_view_bins s s' :
  scoring_view s = scoring_view s' -> n_bins (clamp s) = n_bins (clamp s').
Proof. intro H. exact (f_equal n_bins H). Qed.

Lemma scoring_view_label pseudo s s' :
  scoring_view s = scoring_view s' ->
  selecting_view (set_training_pseudo_label_ pseudo s) =
  selecting_view (set_training_pseudo_label_ pseudo s').
Proof.
  intro H.
  assert (B : n_bins (clamp (set_training_pseudo_label_ pseudo s)) =
              n_bins (clamp (set_training_pseudo_label_ pseudo s'))).
  { assert (forall t, n_bins (clamp (set_training_pseudo_label_ pseudo t)) =
                      n_bins (clamp t))
      by (intro t; unfold clamp; cbn; destruct (_ <? _)%Z; reflexivity).
    rewrite !H0. exact (scoring_view_bins s s' H). }
  unfold selecting_view. rewrite B. clear B.
  unfold scoring_view in H.
  set (b := n_bins (clamp s)) in *. set (b' := n_bins (clamp s')) in *.
  clearbody b b'. destruct s, s'. cbn in *.
  injection H as -> -> -> -> -> -> -> -> -> -> -> -> -> -> -> ->.
  reflexivity.
Qed.

Lemma scoring_view_scores v s :
  scoring_view (set_decision_scores_ v s) = scoring_view s.
Proof. unfold scoring_view, clamp. cbn. destruct (_ <? _)%Z; reflexivity. Qed.

Lemma scoring_view_stored pseudo s :
  scoring_view (set_training_pseudo_label_ pseudo s) = scoring_view s.
Proof. unfold scoring_view, clamp. cbn. destruct (_ <? _)%Z; reflexivity. Qed.

Lemma scoring_view_reseeded g s :
  scoring_view (set_random_state (random_state s) (set_random_state g s)) =
  scoring_view s.
Proof.
  unfold scoring_view, clamp. destruct s. cbn.
  destruct (_ <? _)%Z; reflexivity.
Qed.

Lemma draw_features_replay s s' :
  scoring_view s = scoring_view s' ->
  agree_on scoring_view (draw_features s) (draw_features s').
Proof.
  intro H. rewrite !draw_features_unfold.
  rewrite <- (f_equal X_train_norm_ H : X_train_norm_ s = X_train_norm_ s').
  rewrite <- (f_equal random_state H : random_state s = random_state s').
  rewrite <- (f_equal local_min_features H
              : local_min_features s = local_min_features s').
  rewrite <- (f_equal local_max_features H
              : local_max_features s = local_max_features s').
  destruct (X_train_norm_ s); [|split; [reflexivity | exact H]].
  cbv zeta. split; [reflexivity|]. cbn [fst snd].
  rewrite !scoring_view_set_random_state, H. reflexivity.
Qed.

Lemma local_region_iteration_replay X lrl s s' :
  scoring_view s = scoring_view s' ->
  agree_on scoring_view (local_region_iteration X lrl s)
    (local_region_iteration X lrl s').
Proof.
  intro H. unfold local_region_iteration.
  apply (bind_agree scoring_view scoring_view);
    [apply draw_features_replay; exact H| |auto].
  intros features t t' R. rewrite !bind_get. unfold attr, index.
  rewrite <- (f_equal X_train_norm_ R : X_train_norm_ t = X_train_norm_ t').
  rewrite <- (f_equal local_region_size R
              : local_region_size t = local_region_size t').
  rewrite !bind_lift.
  destruct (X_train_norm_ t) as [X_train|]; cbn [of_option];
    [|split; [reflexivity | exact R]].
  rewrite !bind_lift.
  destruct (select_columns X_train features); cbn [of_option];
    [|split; [reflexivity | exact R]].
  rewrite !bind_lift.
  destruct (select_columns X features); cbn [of_option];
    [|split; [reflexivity | exact R]].
  rewrite !bind_lift.
  destruct (kdtree_query _ _ _); cbn [of_option];
    [|split; [reflexivity | exact R]].
  apply lift_agree. exact R.
Qed.

Lemma votes_loop_replay X (n : nat) : forall lrl s s',
  scoring_view s = scoring_view s' ->
  agree_on scoring_view (for_range n (local_region_iteration X) lrl s)
    (for_range n (local_region_iteration X) lrl s').
Proof.
  induction n as [|n IH]; intros lrl s s' H; simpl.
  - split; [reflexivity | exact H].
  - apply (bind_agree scoring_view scoring_view);
      [apply local_region_iteration_replay; exact H| |auto].
    intros lrl' t t' R. apply IH. exact R.
Qed.

Lemma get_local_region_replay X s s' :
  scoring_view s = scoring_view s' ->
  agree_on scoring_view (_get_local_region X s) (_get_local_region X s').
Proof.
  intro H. rewrite !get_local_region_unfold. unfold raw_votes.
  rewrite !bind_get.
  rewrite <- (f_equal local_region_iterations H
              : local_region_iterations s = local_region_iterations s').
  rewrite <- (f_equal local_region_threshold H
              : local_region_threshold s = local_region_threshold s').
  destruct (votes_loop_replay X (local_region_iterations s)
              (repeat [] (n_rows X)) s s' H) as [E R].
  destruct (for_range _ _ _ s) as [[[votes|e] t] w];
    destruct (for_range _ _ _ s') as [[[votes'|e'] t'] w'];
    simpl in E, R; inversion E; subst; split; try reflexivity; exact R.
Qed.

Lemma prepare_scores_replay X s s' :
  scoring_view s = scoring_view s' ->
  agree_on selecting_view (prepare_scores X s) (prepare_scores X s') \/
  (exists e, fst (fst (prepare_scores X s)) = Raise e /\
             fst (fst (prepare_scores X s')) = Raise e).
Proof.
  intro H. rewrite !prepare_scores_unfold.
  rewrite <- (f_equal n_clf H : n_clf s = n_clf s').
  rewrite <- (f_equal estimator_list H : estimator_list s = estimator_list s').
  rewrite <- (f_equal train_scores_ H : train_scores_ s = train_scores_ s').
  destruct (get_local_region_replay X s s' H) as [E R].
  destruct (_get_local_region X s) as [[[regions|e] t] w];
    destruct (_get_local_region X s') as [[[regions'|e'] t'] w'];
    simpl in E, R; inversion E; subst; [|right; eexists; split; reflexivity].
  destruct (score_columns X 0 (n_clf s) (estimator_list s)) as [cols|e];
    [|right; eexists; split; reflexivity].
  destruct (train_scores_ s) as [train_scores|];
    [|right; eexists; split; reflexivity].
  cbv zeta. destruct (np_max_axis1 _) as [pseudo|];
    [|right; eexists; split; reflexivity].
  left. split; [reflexivity|]. cbn [fst snd].
  apply scoring_view_label. exact R.
Qed.

Lemma selector_replay scores s s' :
  selecting_view s = selecting_view s' ->
  agree_on selecting_view (_get_competent_detectors scores s)
    (_get_competent_detectors scores s').
Proof.
  intro H.
  assert (B : n_bins (clamp s) = n_bins (clamp s'))
    by exact (f_equal n_bins H).
  assert (Sel : n_selected (clamp s) = n_selected (clamp s')).
  { assert (forall t, n_selected (clamp t) = n_selected t)
      by (intro t; unfold clamp; destruct (_ <? _)%Z; reflexivity).
    rewrite !H0. exact (f_equal n_selected H). }
  destruct (_get_competent_detectors scores s) as [[r t] w] eqn:E1.
  destruct (_get_competent_detectors scores s') as [[r' t'] w'] eqn:E2.
  destruct (selector_state _ _ _ _ _ E1) as [A1 _].
  destruct (selector_state _ _ _ _ _ E2) as [A2 _]. subst t t'.
  split; [|cbn [fst snd]; rewrite !selecting_view_clamp; exact H].
  cbn [fst snd]. rewrite selector_unfold in E1, E2.
  rewrite <- B, <- Sel in E2.
  destruct (np_histogram scores (n_bins (clamp s))) as [hb|e].
  - assert (P := select_loop_pure scores (snd hb)
                   (argmaxn (fst hb) (n_selected (clamp s))) []
                   (clamp s) (clamp s')).
    match type of E1 with context [for_each ?f ?l ?a (clamp s)] =>
      destruct (for_each f l a (clamp s)) as [[r1 t1] w1] end.
    match type of E2 with context [for_each ?f ?l ?a (clamp s')] =>
      destruct (for_each f l a (clamp s')) as [[r2 t2] w2] end.
    simpl in P. inversion E1; inversion E2; subst. reflexivity.
  - inversion E1; inversion E2; subst. reflexivity.
Qed.

Lemma local_correlations_replay tr region s s' :
  selecting_view s = selecting_view s' ->
  agree_on selecting_view (local_correlations tr region s)
    (local_correlations tr region s').
Proof.
  intro H. unfold local_correlations. rewrite !bind_get. unfold attr, index.
  rewrite <- (f_equal training_pseudo_label_ H
              : training_pseudo_label_ s = training_pseudo_label_ s').
  rewrite <- (f_equal n_clf H : n_clf s = n_clf s').
  rewrite !bind_lift.
  destruct (training_pseudo_label_ s) as [pseudo|]; cbn [of_option];
    [|split; [reflexivity | exact H]].
  rewrite !bind_lift.
  destruct (take pseudo region); cbn [of_option];
    [|split; [reflexivity | exact H]].
  rewrite !bind_lift.
  destruct (take tr region); cbn [of_option];
    [|split; [reflexivity | exact H]].
  apply lift_agree. exact H.
Qed.

Lemma score_instance_replay tr te i region s s' :
  selecting_view s = selecting_view s' ->
  agree_on selecting_view (score_instance tr te i region s)
    (score_instance tr te i region s').
Proof.
  intro H. unfold score_instance.
  apply (bind_agree selecting_view selecting_view);
    [apply local_correlations_replay; exact H| |auto].
  intros corr t t' R.
  apply (bind_agree selecting_view selecting_view);
    [apply selector_replay; exact R| |auto].
  intros cands u u' Ru. unfold index. rewrite !bind_lift.
  destruct (nth_error te i) as [row|]; cbn [of_option];
    [|split; [reflexivity | exact Ru]].
  rewrite !bind_lift.
  destruct (take row cands); cbn [of_option];
    [|split; [reflexivity | exact Ru]].
  split; [reflexivity | exact Ru].
Qed.

Lemma score_instances_replay tr te (regions : list (list nat)) : forall i s s',
  selecting_view s = selecting_view s' ->
  agree_on selecting_view (score_instances tr te i regions s)
    (score_instances tr te i regions s').
Proof.
  induction regions as [|region rest IH]; intros i s s' H; simpl.
  - split; [reflexivity | exact H].
  - apply (bind_agree selecting_view selecting_view);
      [apply score_instance_replay; exact H| |auto].
    intros x t t' R.
    apply (bind_agree selecting_view selecting_view);
      [apply IH; exact R| |auto].
    intros xs u u' Ru. split; [reflexivity | exact Ru].
Qed.

(** The outcome of [_get_decision_scores] depends on neither the scores
    nor the pseudo ground truth that the object holds. *)
Lemma decision_scores_replay X s s' :
  scoring_view s = scoring_view s' ->
  fst (fst (_get_decision_scores X s)) = fst (fst (_get_decision_scores X s')).
Proof.
  intro H. unfold _get_decision_scores, bind.
  destruct (prepare_scores_replay X s s' H) as [[E R]|[e [E1 E2]]].
  - destruct (prepare_scores X s) as [[[p|e] t] w];
      destruct (prepare_scores X s') as [[[p'|e'] t'] w'];
      simpl in E, R; inversion E; subst; [|reflexivity].
    destruct (score_instances_replay (fst (fst p')) (snd (fst p')) (snd p')
                0 t t' R) as [E' _].
    destruct (score_instances _ _ _ _ t) as [[r2 t2] w2].
    destruct (score_instances _ _ _ _ t') as [[r2' t2'] w2'].
    exact E'.
  - destruct (prepare_scores X s) as [[[p|e1] t] w];
      destruct (prepare_scores X s') as [[[p'|e2] t'] w'];
      simpl in E1, E2; try discriminate.
    inversion E1; inversion E2; subst. reflexivity.
Qed.

(** X18: the scores that [fit] stores in [decision_scores_] are the scores
    that [decision_function] returns for the training matrix when the
    random state is put back to what it was at the call of [fit]. *)
Theorem training_scores_replayed (X : matrix) (s s1 : LSCP)
  (w : list warning) :
  constructed s ->
  fit X s = (Ok tt, s1, w) ->
  exists scores,
    decision_scores_ s1 = Some scores /\
    fst (fst (decision_function X (set_random_state (random_state s) s1))) =
      Ok scores.
Proof.
  intros C F.
  destruct (fit_success X s s1 w C F) as [CA [scores [s3 [ED E1]]]].
  cbv zeta in ED. subst s1. exists scores. split; [reflexivity|].
  set (s2 := set_train_scores_ _ _) in ED.
  destruct (decision_scores_state _ _ _ _ _ ED) as [_ [St _]].
  assert (V : exists pseudo,
            training_pseudo_label_ s3 = Some pseudo /\
            scoring_view (set_random_state (random_state s) s3) =
            scoring_view s2).
  { assert (R : random_state s = random_state s2) by reflexivity.
    destruct St as [[_ [_ [e Ee]]]|[[pseudo [E3 _]]|[pseudo [E3 _]]]];
      [discriminate| |]; exists pseudo; rewrite E3.
    - split; [reflexivity|].
      rewrite scoring_view_set_random_state, scoring_view_stored,
        <- scoring_view_set_random_state, R.
      apply scoring_view_reseeded.
    - split; [unfold clamp; destruct (_ <? _)%Z; reflexivity|].
      rewrite scoring_view_set_random_state, scoring_view_clamp,
        scoring_view_stored, <- scoring_view_set_random_state, R.
      apply scoring_view_reseeded. }
  destruct V as [pseudo [Tp V]].
  assert (Fs : train_scores_ s3 = train_scores_ s2 /\
               X_train_norm_ s3 = X_train_norm_ s2 /\
               n_features_ s3 = n_features_ s2).
  { destruct St as [[_ [_ [e Ee]]]|[[p [E3 _]]|[p [E3 _]]]];
      [discriminate| |]; rewrite E3.
    - repeat split.
    - unfold clamp. destruct (_ <? _)%Z; repeat split. }
  destruct Fs as [F1 [F2 F3]].
  rewrite decision_function_unfold.
  cbn [training_pseudo_label_ train_scores_ X_train_norm_ n_features_
       set_random_state set_decision_scores_].
  rewrite Tp, F1, F2, F3. subst s2.
  cbn [training_pseudo_label_ train_scores_ X_train_norm_ n_features_
       set_train_scores_ set_estimator_list set_X_train_norm_
       set_n_features_].
  rewrite CA, Nat.eqb_refl.
  rewrite (decision_scores_replay X _
             (set_train_scores_
                (map (fun row => map (fun e => scorer e X row)
                                   (estimator_list s)) X)
                (set_estimator_list
                   (map (estimator_fit X) (estimator_list s))
                   (set_X_train_norm_ X (set_n_features_ (n_cols X) s))))).
  - rewrite ED. reflexivity.
  - rewrite scoring_view_set_random_state, scoring_view_scores,
      <- scoring_view_set_random_state. exact V.
Qed.

End Replay.

(** ** The exceptions of a scoring call *)

Section Errors.

Context {collab : Collaborators}.

Ltac unfold_monad :=
  unfold attr, index, raise in *;
  unfold bind, get, put, ret, lift, warn, of_option in *.

Lemma generate_bagging_indices_data g d a b :
  data_errors_only (fst (generate_bagging_indices g d a b)).
Proof.
  unfold generate_bagging_indices.
  destruct ((0 <=? a) && (a <=? b) && (b <=? Z.of_nat d))%Z%bool;
    [|reflexivity].
  destruct (randint g (Z.to_nat a) (Z.to_nat b)) as [k g1].
  destruct (draw_distinct g1 (seq 0 d) k) as [features g2]. exact I.
Qed.

Lemma add_neighbors_data lrl : forall ind_arr,
  data_errors_only (add_neighbors lrl ind_arr).
Proof.
  induction lrl as [|r rest IH]; intros [|nb ind_arr]; simpl;
    try exact I; try reflexivity.
  specialize (IH ind_arr).
  destruct (add_neighbors rest ind_arr); simpl in *; auto.
Qed.

Lemma local_region_iteration_data X lrl s r s1 w :
  X_train_norm_ s <> None ->
  local_region_iteration X lrl s = (r, s1, w) ->
  data_errors_only r.
Proof.
  intro HX.
  unfold local_region_iteration, bind at 1. rewrite draw_features_unfold.
  destruct (X_train_norm_ s) as [X_train|] eqn:EX; [|congruence].
  cbv zeta.
  assert (G := generate_bagging_indices_data (random_state s) (n_cols X_train)
    (py_int (inject_Z (Z.of_nat (n_cols X_train)) * local_min_features s))
    (py_int (inject_Z (Z.of_nat (n_cols X_train)) * local_max_features s))).
  destruct (generate_bagging_indices _ _ _ _) as [[features|e] g].
  - cbn [fst snd]. unfold_monad. cbn [X_train_norm_ set_random_state].
    rewrite EX.
    destruct (select_columns X_train features); cbn;
      [destruct (select_columns X features); cbn;
        [destruct (kdtree_query _ _ _); cbn|]|];
      intro H; inversion H; subst; try reflexivity.
    apply add_neighbors_data.
  - cbn [fst snd] in *. intro H; inversion H; subst. exact G.
Qed.

Lemma votes_loop_data X (n : nat) : forall lrl s r s1 w,
  X_train_norm_ s <> None ->
  for_range n (local_region_iteration X) lrl s = (r, s1, w) ->
  data_errors_only r.
Proof.
  induction n as [|n IH]; intros lrl s r s1 w HX H; simpl in H.
  - inversion H; subst. exact I.
  - unfold bind in H.
    destruct (local_region_iteration X lrl s) as [[[lrl'|e] s'] w'] eqn:E.
    + destruct (local_region_iteration_state _ _ _ _ _ _ E) as [A _].
      destruct (for_range n (local_region_iteration X) lrl' s')
        as [[r2 s2] w2] eqn:E2.
      inversion H; subst r s1 w.
      assert (HX' : X_train_norm_ s' <> None)
        by (rewrite A; cbn [X_train_norm_ set_random_state]; exact HX).
      exact (IH _ _ _ _ _ HX' E2).
    + inversion H; subst r s1 w.
      exact (local_region_iteration_data _ _ _ _ _ _ HX E).
Qed.

Lemma get_local_region_data X s r s1 w :
  X_train_norm_ s <> None ->
  _get_local_region X s = (r, s1, w) ->
  data_errors_only r.
Proof.
  intros HX H. rewrite get_local_region_unfold in H.
  destruct (raw_votes X s) as [[[votes|e] s'] w'] eqn:Hv.
  - inversion H; subst. exact I.
  - inversion H; subst. unfold raw_votes in Hv. rewrite bind_get in Hv.
    exact (votes_loop_data _ _ _ _ _ _ _ HX Hv).
Qed.

Lemma score_columns_data X ests : forall k m,
  Forall (fun e => trained_on e <> None) ests ->
  data_errors_only (score_columns X k m ests).
Proof.
  induction ests as [|e ests IH]; intros k m F; simpl; [exact I|].
  inversion F as [|e' ests' Te Fe]; subst.
  unfold estimator_decision_function.
  destruct (trained_on e); [|congruence].
  destruct (k <? m)%nat; [|reflexivity].
  specialize (IH (S k) m Fe). destruct (score_columns X (S k) m ests); auto.
Qed.

Lemma prepare_scores_data X s r s1 w :
  X_train_norm_ s <> None ->
  train_scores_ s <> None ->
  Forall (fun e => trained_on e <> None) (estimator_list s) ->
  prepare_scores X s = (r, s1, w) ->
  data_errors_only r /\
  (forall p, r = Ok p -> training_pseudo_label_ s1 <> None).
Proof.
  intros HX HT HE H. rewrite prepare_scores_unfold in H.
  destruct (_get_local_region X s) as [[[regions|e] t] w0] eqn:ER.
  2:{ inversion H; subst. split; [|discriminate].
      exact (get_local_region_data _ _ _ _ _ HX ER). }
  assert (C := score_columns_data X (estimator_list s) 0 (n_clf s) HE).
  destruct (score_columns X 0 (n_clf s) (estimator_list s)) as [cols|e].
  2:{ inversion H; subst. split; [exact C | discriminate]. }
  destruct (train_scores_ s) as [train_scores|]; [|congruence].
  cbv zeta in H. destruct (np_max_axis1 _) as [pseudo|].
  - inversion H; subst. split; [exact I|]. intros p _. discriminate.
  - inversion H; subst. split; [reflexivity | discriminate].
Qed.

Lemma select_loop_data scores edges (bins : list nat) : forall acc s r s1 w,
  for_each
    (fun candidates max_bin =>
       bind (lift (select_in_bin scores edges max_bin))
         (fun selected => ret (candidates ++ selected)))
    bins acc s = (r, s1, w) ->
  data_errors_only r.
Proof.
  induction bins as [|b bins IH]; intros acc s r s1 w H; simpl in H.
  - inversion H; subst. exact I.
  - unfold bind at 1 in H. rewrite bind_lift in H.
    unfold select_in_bin in H.
    destruct (nth_error edges b) as [lo|];
      [destruct (nth_error edges (b + 1)) as [hi|]|].
    + unfold ret at 1 in H.
      match type of H with context [for_each ?f ?l ?a ?st] =>
        destruct (for_each f l a st) as [[r2 s2] w2] eqn:E2 end.
      inversion H; subst. exact (IH _ _ _ _ _ E2).
    + inversion H; subst. reflexivity.
    + inversion H; subst. reflexivity.
Qed.

Lemma selector_data scores s r s1 w :
  _get_competent_detectors scores s = (r, s1, w) ->
  data_errors_only r.
Proof.
  rewrite selector_unfold. unfold np_histogram.
  destruct (n_bins (clamp s) <? 1)%Z.
  { intro H; inversion H; subst. reflexivity. }
  destruct (finite_values scores) as [xs|].
  2:{ intro H; inversion H; subst. reflexivity. }
  destruct (outer_edges xs) as [first last].
  match goal with |- context [for_each ?f ?l ?a ?st] =>
    destruct (for_each f l a st) as [[r2 s2] w2] eqn:E2 end.
  intro H; inversion H; subst.
  exact (select_loop_data _ _ _ _ _ _ _ _ E2).
Qed.

Lemma local_correlations_data tr region s r s1 w :
  training_pseudo_label_ s <> None ->
  local_correlations tr region s = (r, s1, w) ->
  data_errors_only r.
Proof.
  intro HP.
  unfold local_correlations. rewrite bind_get. unfold attr, index.
  rewrite bind_lift.
  destruct (training_pseudo_label_ s) as [pseudo|]; simpl; [|congruence].
  rewrite bind_lift. destruct (take pseudo region) as [lpgt|]; simpl.
  2:{ intro H; inversion H; subst. reflexivity. }
  rewrite bind_lift. destruct (take tr region) as [lts|]; simpl.
  2:{ intro H; inversion H; subst. reflexivity. }
  unfold lift. intro H; inversion H; subst.
  destruct (pearson_scores lpgt lts (seq 0 (n_clf s1))) as [l|e] eqn:E;
    [exact I|]. apply pearson_scores_exn in E. subst. reflexivity.
Qed.

Lemma score_instance_data tr te i region s r s1 w :
  training_pseudo_label_ s <> None ->
  score_instance tr te i region s = (r, s1, w) ->
  data_errors_only r.
Proof.
  intro HP. unfold score_instance. unfold bind at 1.
  destruct (local_correlations tr region s) as [[[corr|e0] s0] w0] eqn:E0.
  2:{ intro H; inversion H; subst.
      exact (local_correlations_data _ _ _ _ _ _ HP E0). }
  unfold bind at 1.
  destruct (_get_competent_detectors corr s0) as [[[cands|e1] s1'] w1] eqn:E1.
  2:{ intro H; inversion H; subst. exact (selector_data _ _ _ _ _ E1). }
  unfold index. rewrite bind_lift.
  destruct (nth_error te i) as [row|]; simpl.
  2:{ intro H; inversion H; subst. reflexivity. }
  rewrite bind_lift. destruct (take row cands) as [selected|]; simpl.
  2:{ intro H; inversion H; subst. reflexivity. }
  unfold ret. intro H; inversion H; subst. exact I.
Qed.

Lemma score_instances_data tr te (regions : list (list nat)) :
  forall i s r s1 w,
  training_pseudo_label_ s <> None ->
  score_instances tr te i regions s = (r, s1, w) ->
  data_errors_only r.
Proof.
  induction regions as [|region rest IH]; intros i s r s1 w HP H; simpl in H.
  - inversion H; subst. exact I.
  - unfold bind at 1 in H.
    destruct (score_instance tr te i region s) as [[[x|e0] s0] w0] eqn:E0.
    2:{ inversion H; subst. exact (score_instance_data _ _ _ _ _ _ _ _ HP E0). }
    assert (HP0 : training_pseudo_label_ s0 <> None).
    { destruct (score_instance_state _ _ _ _ _ _ _ _ E0)
        as [[[-> _]|[-> _]] _]; [exact HP|].
      unfold clamp. destruct (_ <? _)%Z; exact HP. }
    unfold bind at 1 in H.
    destruct (score_instances tr te (S i) rest s0) as [[[xs|e1] s2] w2] eqn:E2.
    + unfold ret in H. inversion H; subst. exact I.
    + inversion H; subst. exact (IH _ _ _ _ _ HP0 E2).
Qed.

Lemma decision_scores_data X s r s1 w :
  X_train_norm_ s <> None ->
  train_scores_ s <> None ->
  Forall (fun e => trained_on e <> None) (estimator_list s) ->
  _get_decision_scores X s = (r, s1, w) ->
  data_errors_only r.
Proof.
  intros HX HT HE. unfold _get_decision_scores, bind.
  destruct (prepare_scores X s) as [[[p|e] t] w0] eqn:EP;
    destruct (prepare_scores_data _ _ _ _ _ HX HT HE EP) as [D L].
  - destruct (score_instances _ _ _ _ t) as [[r2 t2] w2] eqn:ES.
    intro H; inversion H; subst.
    exact (score_instances_data _ _ _ _ _ _ _ _ (L p eq_refl) ES).
  - intro H; inversion H; subst. exact D.
Qed.

Lemma fit_columns_trained X (ests : list Estimator) : forall k m cols,
  fst (fit_columns X k m ests) = Ok cols ->
  Forall (fun e => trained_on e <> None) (snd (fit_columns X k m ests)).
Proof.
  induction ests as [|e ests IH]; intros k m cols H; simpl in *;
    [constructor|].
  unfold estimator_decision_scores_ in *.
  cbn [trained_on estimator_fit scorer] in *.
  destruct (k <? m)%nat; [|discriminate].
  specialize (IH (S k) m).
  destruct (fit_columns X (S k) m ests) as [[cols'|e'] l]; [|discriminate].
  cbn [fst snd] in *. constructor; [discriminate|].
  exact (IH cols' eq_refl).
Qed.

Lemma fit_columns_data X (ests : list Estimator) : forall k m,
  data_errors_only (fst (fit_columns X k m ests)).
Proof.
  induction ests as [|e ests IH]; intros k m; simpl; [exact I|].
  unfold estimator_decision_scores_.
  cbn [trained_on estimator_fit scorer].
  destruct (k <? m)%nat; [|reflexivity].
  specialize (IH (S k) m).
  destruct (fit_columns X (S k) m ests) as [[cols'|e'] l]; [exact I|].
  exact IH.
Qed.

Lemma fit_columns_mismatch X (ests : list Estimator) : forall k m,
  no_mismatch (fst (fit_columns X k m ests)).
Proof.
  induction ests as [|e ests IH]; intros k m; simpl; [exact I|].
  unfold estimator_decision_scores_.
  cbn [trained_on estimator_fit scorer].
  destruct (k <? m)%nat; [|reflexivity].
  specialize (IH (S k) m).
  destruct (fit_columns X (S k) m ests) as [[cols'|e'] l]; [exact I|].
  exact IH.
Qed.

(** X19: on a fitted object whose estimators are fitted,
    [decision_function] fails, if it fails, with a value error or an index
    error: it never finds an attribute missing, an estimator unfitted or
    an assertion violated.  The attributes [check_is_fitted] asks for are
    all that the scoring path reads. *)
Theorem fitted_object_fails_on_data_only (X : matrix) (s s1 : LSCP)
  (r : outcome (list f64)) (w : list warning) :
  fitted s ->
  Forall (fun e => trained_on e <> None) (estimator_list s) ->
  decision_function X s = (r, s1, w) ->
  data_errors_only r.
Proof.
  intros [F1 [F2 [F3 F4]]] HE. rewrite decision_function_unfold.
  destruct (training_pseudo_label_ s); [|congruence].
  destruct (train_scores_ s) eqn:ET; [|congruence].
  destruct (X_train_norm_ s) eqn:EX; [|congruence].
  destruct (n_features_ s) as [d|]; [|congruence].
  destruct (check_array X) as [X'|e] eqn:EC.
  - destruct (d =? n_cols X')%nat.
    + intro H. apply (decision_scores_data X' s r s1 w); try assumption.
      * rewrite EX. discriminate.
      * rewrite ET. discriminate.
    + intro H; inversion H; subst. reflexivity.
  - intro H; inversion H; subst.
    unfold check_array in EC. destruct X as [|row X0]; [inversion EC; reflexivity|].
    destruct (_ && _)%bool; [discriminate | inversion EC; reflexivity].
Qed.

(** X20: [fit] needs nothing of the object's earlier state: whatever the
    object, it assigns the attributes the scoring path reads and fits the
    estimators before it scores the training matrix, so that it fails, if
    it fails, with a value error or an index error, and never with the
    feature-count error of [decision_function].  (A base detector is a
    scoring rule here: its own [fit] does not fail.) *)
Theorem fit_fails_on_data_only (X : matrix) (s : LSCP) :
  data_errors_only (fst (fst (fit X s))) /\ no_mismatch (fst (fst (fit X s))).
Proof.
  rewrite fit_unfold.
  destruct (check_array X) as [X'|e] eqn:EC.
  2:{ cbn [fst]. assert (N := check_array_exn X). rewrite EC in N.
      split; [|exact N].
      unfold check_array in EC. destruct X as [|row X0];
        [inversion EC; reflexivity|].
      destruct (_ && _)%bool; [discriminate | inversion EC; reflexivity]. }
  cbv zeta.
  assert (D := fit_columns_data X' (estimator_list s) 0 (n_clf s)).
  assert (T := fit_columns_trained X' (estimator_list s) 0 (n_clf s)).
  assert (N := fit_columns_mismatch X' (estimator_list s) 0 (n_clf s)).
  destruct (fit_columns X' 0 (n_clf s) (estimator_list s)) as [[cols|e] l].
  2:{ cbn [fst snd] in *. split; [exact D | exact N]. }
  cbn [fst snd] in *.
  match goal with |- context [_get_decision_scores X' ?t] =>
    destruct (_get_decision_scores X' t) as [[[scores|e] s3] w3] eqn:ED end.
  - cbn [fst]. split; exact I.
  - cbn [fst]. split.
    + refine (decision_scores_data X' _ _ _ _ _ _ _ ED);
        cbn [X_train_norm_ train_scores_ estimator_list set_train_scores_
             set_estimator_list set_X_train_norm_ set_n_features_];
        [discriminate | discriminate | exact (T cols eq_refl)].
    + exact (proj1 (decision_scores_state _ _ _ _ _ ED)).
Qed.

End Errors.

(** ** The further properties on concrete runs *)

Lemma insert_by_perm d i l :
  Permutation (map snd (Demo.insert_by d i l)) (i :: map snd l).
Proof.
  induction l as [|[d' i'] l IH]; simpl; [reflexivity|].
  destruct (Qleb d' d); simpl; [|reflexivity].
  rewrite IH. apply perm_swap.
Qed.

Lemma ranked_perm (q : list Q) (l : list (nat * list Q)) : forall acc,
  Permutation
    (map snd (fold_left
       (fun acc p => Demo.insert_by (Demo.sqdist q (snd p)) (fst p) acc)
       l acc))
    (map fst l ++ map snd acc).
Proof.
  induction l as [|p l IH]; intro acc; simpl; [reflexivity|].
  rewrite IH, insert_by_perm. symmetry. apply Permutation_middle.
Qed.

Lemma map_fst_combine_seq {A} (l : list A) : forall start,
  map fst (combine (seq start (length l)) l) = seq start (length l).
Proof.
  induction l as [|a l IH]; intro start; simpl; [reflexivity|].
  rewrite IH. reflexivity.
Qed.

Lemma nearest_distinct train k q :
  NoDup (Demo.nearest train k q) /\
  Forall (fun i => (i < length train)%nat) (Demo.nearest train k q).
Proof.
  unfold Demo.nearest.
  set (ranked := fold_left _ _ _).
  assert (P : Permutation (map snd ranked) (seq 0 (length train))).
  { unfold ranked. rewrite ranked_perm, map_fst_combine_seq. simpl.
    rewrite app_nil_r. reflexivity. }
  assert (ND : NoDup (map snd ranked)).
  { eapply Permutation_NoDup; [symmetry; exact P | apply seq_NoDup]. }
  rewrite <- (firstn_skipn k (map snd ranked)) in ND.
  split; [exact (NoDup_app_remove_r _ _ ND)|].
  apply Forall_forall. intros i Hi.
  assert (In i (map snd ranked)).
  { rewrite <- (firstn_skipn k (map snd ranked)). apply in_or_app.
    left. exact Hi. }
  apply (Permutation_in _ P) in H. apply in_seq in H. lia.
Qed.

Lemma demo_knn_distinct_contract : @knn_distinct_contract Demo.collaborators.
Proof.
  intros train queries k ind_arr H. cbn in H.
  unfold Demo.brute_force_query in H.
  destruct (_ || _)%bool; [discriminate|].
  inversion H; subst. apply Forall_map, Forall_forall.
  intros q _. apply nearest_distinct.
Qed.

Lemma demo_object_constructed : constructed (Demo.object 1 10).
Proof.
  vm_compute. repeat split; try reflexivity; try lia; try discriminate.
Qed.

Lemma demo_wide_constructed : constructed Demo.fitted_wide.
Proof.
  vm_compute. repeat split; try reflexivity; try lia; try discriminate.
Qed.

Lemma demo_fit_run :
  fit Demo.X_train (Demo.object 1 10) =
    (Ok tt, snd (fst (fit Demo.X_train (Demo.object 1 10))),
     snd (fit Demo.X_train (Demo.object 1 10))).
Proof. refine (run_eta _ _ _). exact fitted_object_fit. Qed.

Lemma constructed_object_refuses_queries_witness :
  decision_function Demo.batch (Demo.object 1 10) =
    (Raise NotFittedError, Demo.object 1 10, []).
Proof.
  pose proof (@constructed_object_refuses_queries Demo.collaborators
                [Demo.est_sum; Demo.est_diff] 2 1 10 1%N (1 # 10)
                (Demo.object 1 10) [] Demo.batch eq_refl) as T.
  exact T.
Defined.

Lemma fit_leaves_fitted_object_witness :
  check_array Demo.X_train = Ok Demo.X_train /\
  fitted (snd (fst (fit Demo.X_train (Demo.object 1 10)))) /\
  constructed (snd (fst (fit Demo.X_train (Demo.object 1 10)))) /\
  X_train_norm_ (snd (fst (fit Demo.X_train (Demo.object 1 10))))
    = Some Demo.X_train /\
  n_features_ (snd (fst (fit Demo.X_train (Demo.object 1 10))))
    = Some (n_cols Demo.X_train) /\
  exists scores,
    decision_scores_ (snd (fst (fit Demo.X_train (Demo.object 1 10))))
      = Some scores /\
    length scores = n_rows Demo.X_train.
Proof.
  pose proof (fit_leaves_fitted_object Demo.X_train (Demo.object 1 10)
                (snd (fst (fit Demo.X_train (Demo.object 1 10))))
                (snd (fit Demo.X_train (Demo.object 1 10)))
                demo_object_constructed demo_fit_run) as T.
  exact T.
Defined.

Lemma fit_trains_every_estimator_witness :
  Forall (trained_with Demo.X_train)
    (estimator_list (snd (fst (fit Demo.X_train (Demo.object 1 10))))).
Proof.
  pose proof (fit_trains_every_estimator Demo.X_train (Demo.object 1 10)
                (snd (fst (fit Demo.X_train (Demo.object 1 10))))
                (snd (fit Demo.X_train (Demo.object 1 10)))
                demo_object_constructed demo_fit_run) as T.
  exact (proj1 (proj2 T)).
Defined.

Lemma fit_clamps_n_bins_witness :
  n_bins (snd (fst (fit Demo.X_train (Demo.object 1 10)))) =
    Z.min (n_bins (Demo.object 1 10)) (Z.of_nat (n_clf (Demo.object 1 10))) /\
  n_clf (snd (fst (fit Demo.X_train (Demo.object 1 10)))) =
    n_clf (Demo.object 1 10) /\
  filter is_bins_reduced (snd (fit Demo.X_train (Demo.object 1 10))) =
    (if (Z.of_nat (n_clf (Demo.object 1 10)) <? n_bins (Demo.object 1 10))%Z
     then [BinsReduced] else []).
Proof.
  pose proof (fit_clamps_n_bins Demo.X_train (Demo.object 1 10)
                (snd (fst (fit Demo.X_train (Demo.object 1 10))))
                (snd (fit Demo.X_train (Demo.object 1 10)))
                demo_object_constructed demo_fit_run) as T.
  exact T.
Defined.

Lemma decision_function_one_score_per_row_witness :
  [[0; 100]] <> [] /\
  length [Fin (-2811 # 1880)] = n_rows [[0; 100]] /\
  snd (decision_function [[0; 100]] Demo.fitted_object) =
    region_size_warnings Demo.fitted_object ++
    clamp_warnings Demo.fitted_object.
Proof.
  assert (H : decision_function [[0; 100]] Demo.fitted_object =
              (Ok [Fin (-2811 # 1880)],
               snd (fst (decision_function [[0; 100]] Demo.fitted_object)),
               snd (decision_function [[0; 100]] Demo.fitted_object))).
  { refine (run_eta _ _ _). vm_compute. reflexivity. }
  pose proof (decision_function_one_score_per_row [[0; 100]]
                Demo.fitted_object
                (snd (fst (decision_function [[0; 100]] Demo.fitted_object)))
                [Fin (-2811 # 1880)]
                (snd (decision_function [[0; 100]] Demo.fitted_object))
                H) as T.
  exact T.
Defined.

Lemma decision_function_keeps_configuration_witness :
  estimator_list (snd (fst (decision_function Demo.batch Demo.fitted_object)))
    = estimator_list Demo.fitted_object /\
  decision_scores_ (snd (fst (decision_function Demo.batch Demo.fitted_object)))
    = decision_scores_ Demo.fitted_object.
Proof.
  pose proof (decision_function_keeps_configuration Demo.batch
                Demo.fitted_object
                (snd (fst (decision_function Demo.batch Demo.fitted_object)))
                (fst (fst (decision_function Demo.batch Demo.fitted_object)))
                (snd (decision_function Demo.batch Demo.fitted_object))
                (run_eta_all _)) as T.
  split; [exact (proj1 T) | exact (proj1 (proj2 T))].
Defined.

Lemma container_methods_agree_witness :
  __len__ Demo.fitted_object =
    (Ok (n_clf Demo.fitted_object), Demo.fitted_object, []) /\
  (2 <= n_clf Demo.fitted_object)%nat /\
  __iter__ Demo.fitted_object =
    (Ok (estimator_list Demo.fitted_object), Demo.fitted_object, []).
Proof.
  pose proof (container_methods_agree Demo.fitted_object demo_constructed)
    as T.
  cbv zeta in T.
  split; [exact (proj1 T)|].
  split; [exact (proj1 (proj2 T)) | exact (proj1 (proj2 (proj2 T)))].
Defined.

Lemma selector_run :
  _get_competent_detectors (map Fin Demo.two_scores) (Demo.object 1 10) =
    (Ok [1%nat],
     snd (fst (_get_competent_detectors (map Fin Demo.two_scores)
                 (Demo.object 1 10))),
     snd (_get_competent_detectors (map Fin Demo.two_scores)
            (Demo.object 1 10))).
Proof. refine (run_eta _ _ _). vm_compute. reflexivity. Qed.

Lemma equal_scores_select_all_witness :
  _get_competent_detectors (map Fin [1 # 2; 2 # 4]) (Demo.object 1 10) =
    (Ok (seq 0 (length [1 # 2; 2 # 4])), clamp (Demo.object 1 10),
     clamp_warnings (Demo.object 1 10)).
Proof.
  assert (H1 : (1 <= n_bins (Demo.object 1 10))%Z)
    by (vm_compute; discriminate).
  assert (H2 : (1 <= n_clf (Demo.object 1 10))%nat) by (vm_compute; lia).
  assert (H3 : [1 # 2; 2 # 4] <> []) by discriminate.
  assert (H4 : Forall (fun x => x == 1 # 2) [1 # 2; 2 # 4])
    by (repeat constructor).
  pose proof (equal_scores_select_all (Demo.object 1 10) (1 # 2)
                [1 # 2; 2 # 4] eq_refl H1 H2 H3 H4) as T.
  exact T.
Defined.

Lemma selector_errors_witness :
  _get_competent_detectors (map Fin Demo.two_scores)
    (set_n_bins 0 (Demo.object 1 10)) =
    (Raise (ValueError BinsNotPositive), clamp (set_n_bins 0 (Demo.object 1 10)),
     clamp_warnings (set_n_bins 0 (Demo.object 1 10))) /\
  _get_competent_detectors [Fin (1 # 2); NaN] (Demo.object 1 10) =
    (Raise (ValueError RangeNotFinite), clamp (Demo.object 1 10),
     clamp_warnings (Demo.object 1 10)).
Proof.
  pose proof (selector_errors (set_n_bins 0 (Demo.object 1 10))
                (map Fin Demo.two_scores)) as T.
  pose proof (selector_errors (Demo.object 1 10) [Fin (1 # 2); NaN]) as U.
  split.
  - refine (proj1 T _). vm_compute. reflexivity.
  - refine (proj2 U _ _); [vm_compute; discriminate | right; left; reflexivity].
Defined.

Lemma candidates_share_witness :
  (length Demo.two_scores <= length [1%nat] * used_bins (Demo.object 1 10))%nat.
Proof.
  pose proof (candidates_share (Demo.object 1 10)
                (snd (fst (_get_competent_detectors (map Fin Demo.two_scores)
                             (Demo.object 1 10))))
                Demo.two_scores [1%nat]
                (snd (_get_competent_detectors (map Fin Demo.two_scores)
                        (Demo.object 1 10)))
                eq_refl selector_run) as T.
  exact T.
Defined.

Lemma local_region_at_most_witness :
  Forall (fun r => NoDup r /\
            (11 * length r
             <= 20 * Z.to_nat (local_region_size Demo.fitted_object))%nat)
    [[0; 1]%nat; []].
Proof.
  assert (H : _get_local_region Demo.batch Demo.fitted_object =
              (Ok [[0; 1]%nat; []],
               snd (fst (_get_local_region Demo.batch Demo.fitted_object)),
               snd (_get_local_region Demo.batch Demo.fitted_object))).
  { refine (run_eta _ _ _). vm_compute. reflexivity. }
  pose proof (local_region_at_most Demo.batch Demo.fitted_object
                (snd (fst (_get_local_region Demo.batch Demo.fitted_object)))
                [[0; 1]%nat; []]
                (snd (_get_local_region Demo.batch Demo.fitted_object))
                demo_knn_contract demo_constructed H) as T.
  exact T.
Defined.

Lemma local_region_at_least_witness :
  Forall (fun r =>
            (2 * Z.to_nat (local_region_size Demo.fitted_wide)
             <= length r + n_rows Demo.X_train)%nat /\
            Forall (fun i => (i < n_rows Demo.X_train)%nat) r)
    [[0; 1; 5; 4; 2]%nat; [4; 5; 0; 2; 1]%nat].
Proof.
  assert (HX : X_train_norm_ Demo.fitted_wide = Some Demo.X_train)
    by (vm_compute; reflexivity).
  assert (H : _get_local_region Demo.batch Demo.fitted_wide =
              (Ok [[0; 1; 5; 4; 2]%nat; [4; 5; 0; 2; 1]%nat],
               snd (fst (_get_local_region Demo.batch Demo.fitted_wide)),
               snd (_get_local_region Demo.batch Demo.fitted_wide))).
  { refine (run_eta _ _ _). vm_compute. reflexivity. }
  pose proof (local_region_at_least Demo.batch Demo.X_train Demo.fitted_wide
                (snd (fst (_get_local_region Demo.batch Demo.fitted_wide)))
                [[0; 1; 5; 4; 2]%nat; [4; 5; 0; 2; 1]%nat]
                (snd (_get_local_region Demo.batch Demo.fitted_wide))
                demo_knn_contract demo_knn_distinct_contract
                demo_wide_constructed HX H) as T.
  exact T.
Defined.

Lemma invalid_array_refused_witness :
  fst (fst (fit [[0; 1]; [2]] Demo.fitted_object))
    = Raise (ValueError BadArray) /\
  snd (fit [[0; 1]; [2]] Demo.fitted_object) = [] /\
  decision_function [[0; 1]; [2]] Demo.fitted_object =
    (Raise (ValueError BadArray), Demo.fitted_object, []).
Proof.
  pose proof (invalid_array_refused [[0; 1]; [2]] Demo.fitted_object
                (ValueError BadArray) eq_refl) as T.
  split; [exact (proj1 T)|].
  split; [exact (proj1 (proj2 T))|].
  exact (proj2 (proj2 (proj2 T)) demo_fitted).
Defined.

Lemma training_scores_replayed_witness :
  exists scores,
    decision_scores_ (snd (fst (fit Demo.X_train (Demo.object 1 10))))
      = Some scores /\
    fst (fst (decision_function Demo.X_train
                (set_random_state (random_state (Demo.object 1 10))
                   (snd (fst (fit Demo.X_train (Demo.object 1 10)))))))
      = Ok scores.
Proof.
  pose proof (training_scores_replayed Demo.X_train (Demo.object 1 10)
                (snd (fst (fit Demo.X_train (Demo.object 1 10))))
                (snd (fit Demo.X_train (Demo.object 1 10)))
                demo_object_constructed demo_fit_run) as T.
  exact T.
Defined.


Lemma demo_estimators_fitted :
  Forall (fun e => trained_on e <> None) (estimator_list Demo.fitted_object).
Proof. vm_compute. repeat constructor; discriminate. Qed.

Lemma fitted_object_fails_on_data_only_witness :
  data_errors_only
    (fst (fst (decision_function Demo.batch Demo.fitted_object))).
Proof.
  pose proof (fitted_object_fails_on_data_only Demo.batch Demo.fitted_object
                (snd (fst (decision_function Demo.batch Demo.fitted_object)))
                (fst (fst (decision_function Demo.batch Demo.fitted_object)))
                (snd (decision_function Demo.batch Demo.fitted_object))
                demo_fitted demo_estimators_fitted (run_eta_all _)) as T.
  exact T.
Defined.
